(** * ollama-acp: the session and prompt-execution core of [OllamaAgent]

    A shallow embedding of [src/ollama_acp/agent.py]:
    - [Extractor]: [_extract_content_from_prompt] as a loop over duck-typed
      prompt blocks;
    - [Agent]: [AgentSession], the registry [_sessions] and the coroutines
      [prompt], [handle_prompt], [_stream_ollama_response] and [cancel],
      run on an explicit model of the asyncio event loop: coroutines are
      cut at their awaits, tasks carry the cancellation flag of
      [Task.cancel], and the surroundings (protocol client, backend stream,
      connection) choose the events;
    - [Connection]: [list_models] and [verify_connection], and
      [run_agent_command] of [src/ollama_acp/cli.py].

    Python [str] values are Rocq strings holding their UTF-8 encoding, so
    concatenation, equality and emptiness are those of the byte strings. *)

From Stdlib Require Import Ascii List NArith Lia.
From Stdlib Require Import Strings.Byte.
From stdpp Require Import base option list gmap strings pretty.


(** ** Python built-ins used by the agent *)
Module Py.

(** An exception value; [exn_str e] is what [str(e)] gives. *)
Record exn := Exn { exn_type : string; exn_str : string }.

Global Instance exn_eq_dec : EqDecision exn.
Proof. solve_decision. Defined.

(** Outcome of a call that may raise. *)
Inductive result (A : Type) :=
  | Ok (a : A)
  | Raise (e : exn).
Arguments Ok {A} a.
Arguments Raise {A} e.

(** [bytes] objects. *)
Definition bytes := list byte.

(** [str.isspace] on one character, by the length of its UTF-8 encoding.
    The whitespace code points are U+0009-000D, U+001C-0020, U+0085, U+00A0,
    U+1680, U+2000-200A, U+2028, U+2029, U+202F, U+205F and U+3000. *)
Definition space1 (c : ascii) : bool :=
  let n := N_of_ascii c in
  ((9 <=? n) && (n <=? 13) || (28 <=? n) && (n <=? 32))%N.

Definition space2 (c1 c2 : ascii) : bool :=
  let n1 := N_of_ascii c1 in
  let n2 := N_of_ascii c2 in
  ((n1 =? 194) && ((n2 =? 133) || (n2 =? 160)))%N.

Definition space3 (c1 c2 c3 : ascii) : bool :=
  let n1 := N_of_ascii c1 in
  let n2 := N_of_ascii c2 in
  let n3 := N_of_ascii c3 in
  ((n1 =? 225) && (n2 =? 154) && (n3 =? 128)
   || (n1 =? 226) && (n2 =? 128)
      && ((128 <=? n3) && (n3 <=? 138) || (n3 =? 168) || (n3 =? 169)
          || (n3 =? 175))
   || (n1 =? 226) && (n2 =? 129) && (n3 =? 159)
   || (n1 =? 227) && (n2 =? 128) && (n3 =? 128))%N.

(** Drop whitespace characters from the front; [sp2] and [sp3] recognise the
    two- and three-byte encodings in the order the bytes are met. *)
Fixpoint lstrip_with (sp2 : ascii -> ascii -> bool)
    (sp3 : ascii -> ascii -> ascii -> bool) (s : string) : string :=
  match s with
  | EmptyString => s
  | String c1 s1 =>
    if space1 c1 then lstrip_with sp2 sp3 s1
    else
      match s1 with
      | EmptyString => s
      | String c2 s2 =>
        if sp2 c1 c2 then lstrip_with sp2 sp3 s2
        else
          match s2 with
          | EmptyString => s
          | String c3 s3 =>
            if sp3 c1 c2 c3 then lstrip_with sp2 sp3 s3 else s
          end
      end
  end.

Definition lstrip (s : string) : string := lstrip_with space2 space3 s.

Definition rstrip (s : string) : string :=
  String.rev
    (lstrip_with (fun a b => space2 b a) (fun a b c => space3 c b a)
       (String.rev s)).

(** [s.strip()] with no argument. *)
Definition strip (s : string) : string := rstrip (lstrip s).

(** Truthiness of a [str]: non-empty. *)
Definition truthy (s : string) : bool :=
  match s with
  | EmptyString => false
  | String _ _ => true
  end.

(** The base64 alphabet: the six-bit value of a character, if it has one. *)
Definition b64_value (c : ascii) : option N :=
  let n := N_of_ascii c in
  if ((65 <=? n) && (n <=? 90))%N then Some (n - 65)%N
  else if ((97 <=? n) && (n <=? 122))%N then Some (n - 71)%N
  else if ((48 <=? n) && (n <=? 57))%N then Some (n + 4)%N
  else if (n =? 43)%N then Some 62%N
  else if (n =? 47)%N then Some 63%N
  else None.

(** An [unsigned char] from a number. *)
Definition uchar (n : N) : byte :=
  byte_of_ascii (ascii_of_N (n mod 256)).

Definition binascii_Error (msg : string) : exn := Exn "binascii.Error" msg.

(** [binascii.a2b_base64] in its default, non-strict mode: characters outside
    the alphabet are dropped, a complete pad sequence ends the input, and a
    quad left open at the end is an error.  [quad_pos], [leftchar] and [pads]
    are the variables of the C loop; [out] is the output so far. *)
Fixpoint a2b_base64 (s : string) (quad_pos : nat) (leftchar : N) (pads : nat)
    (out : bytes) : result bytes :=
  match s with
  | EmptyString =>
    match quad_pos with
    | 0 => Ok out
    | 1 =>
      Raise (binascii_Error
        ("Invalid base64-encoded string: number of data characters ("
         +:+ pretty (length out / 3 * 4 + 1)
         +:+ ") cannot be 1 more than a multiple of 4"))
    | _ => Raise (binascii_Error "Incorrect padding")
    end
  | String c rest =>
    if (N_of_ascii c =? 61)%N then
      if (2 <=? quad_pos)%nat then
        if (4 <=? quad_pos + S pads)%nat then Ok out
        else a2b_base64 rest quad_pos leftchar (S pads) out
      else a2b_base64 rest quad_pos leftchar pads out
    else
      match b64_value c with
      | None => a2b_base64 rest quad_pos leftchar pads out
      | Some v =>
        match quad_pos with
        | 0 => a2b_base64 rest 1 v 0 out
        | 1 =>
          a2b_base64 rest 2 (N.land v 15) 0
            (out ++ [uchar (N.lor (N.shiftl leftchar 2) (N.shiftr v 4))])
        | 2 =>
          a2b_base64 rest 3 (N.land v 3) 0
            (out ++ [uchar (N.lor (N.shiftl leftchar 4) (N.shiftr v 2))])
        | _ =>
          a2b_base64 rest 0 0%N 0
            (out ++ [uchar (N.lor (N.shiftl leftchar 6) v)])
        end
      end
  end.

(** Whether every character of a [str] is ASCII. *)
Fixpoint isascii (s : string) : bool :=
  match s with
  | EmptyString => true
  | String c rest => (N_of_ascii c <? 128)%N && isascii rest
  end.

(** [base64.b64decode(s)] for a [str] argument with the default options. *)
Definition b64decode (s : string) : result bytes :=
  if isascii s then a2b_base64 s 0 0%N 0 []
  else
    Raise (Exn "ValueError"
             "string argument should contain only ASCII characters").

End Py.

Import Py.

(** ** Content extraction *)
Module Extractor.

(** A prompt block as the loop sees it: an object with attributes (the
    protocol's content-block classes), or a plain [dict].  Attribute and item
    values are [str], as the protocol schema types [text], [type] and
    [data]. *)
Inductive block :=
  | Obj (attrs : gmap string string)
  | Dict (items : gmap string string).

(** [hasattr(block, name)] for the names the loop asks about ([text], [type]);
    a [dict] has neither as an attribute. *)
Definition hasattr (b : block) (name : string) : bool :=
  match b with
  | Obj attrs => bool_decide (is_Some (attrs !! name))
  | Dict _ => false
  end.

(** [getattr(block, name, default)]. *)
Definition getattr (b : block) (name dflt : string) : string :=
  match b with
  | Obj attrs => default dflt (attrs !! name)
  | Dict _ => dflt
  end.

(** [block.get(key, default)] on a [dict] block. *)
Definition dict_get (items : gmap string string) (key dflt : string)
    : string :=
  default dflt (items !! key).

(** One record of the [logging] module: level and message. *)
Record log_record := Log { log_level : string; log_msg : string }.

Section WithDecoder.

(** [base64.b64decode(data)]: the decoded bytes, or the exception raised. *)
Variable b64decode : string -> result bytes.

(** The loop variables of [_extract_content_from_prompt], with the records
    written to the log so far. *)
Record acc := Acc {
  prompt_text : string;
  images : list bytes;
  logged : list log_record
}.

(** [if data: try: images.append(base64.b64decode(data)) except Exception as
    e: logging.error(f"Failed to decode image: {e}")]. *)
Definition append_image (data : string) (a : acc) : acc :=
  if truthy data then
    match b64decode data with
    | Ok img => Acc (prompt_text a) (images a ++ [img]) (logged a)
    | Raise e =>
      Acc (prompt_text a) (images a)
        (logged a ++ [Log "ERROR" ("Failed to decode image: " +:+ exn_str e)])
    end
  else a.

(** [prompt_text += t]. *)
Definition append_text (t : string) (a : acc) : acc :=
  Acc (prompt_text a +:+ t) (images a) (logged a).

(** The first [if]/[elif] of the loop body: text of an object, or the text
    or image of a [dict]. *)
Definition text_or_dict (b : block) (a : acc) : acc :=
  if hasattr b "text" then append_text (getattr b "text" "") a
  else
    match b with
    | Dict items =>
      if decide (items !! "type" = Some "text")
      then append_text (dict_get items "text" "") a
      else if decide (items !! "type" = Some "image")
      then append_image (dict_get items "data" "") a
      else a
    | Obj _ => a
    end.

(** The second [if] of the loop body: image of an object. *)
Definition object_image (b : block) (a : acc) : acc :=
  if hasattr b "type" && bool_decide (getattr b "type" "" = "image")
  then append_image (getattr b "data" "") a
  else a.

Definition loop_body (a : acc) (b : block) : acc :=
  object_image b (text_or_dict b a).

(** The [for] loop from the empty text and image list. *)
Definition extract_loop (prompt : list block) : acc :=
  fold_left loop_body prompt (Acc "" [] []).

(** [_extract_content_from_prompt(prompt)]: the returned pair. *)
Definition _extract_content_from_prompt (prompt : list block)
    : string * list bytes :=
  let a := extract_loop prompt in
  (strip (prompt_text a), images a).

(** The records it logs. *)
Definition extract_log (prompt : list block) : list log_record :=
  logged (extract_loop prompt).

(** What one block adds to the loop variables, whatever they hold. *)
Definition contribution (b : block) : acc := loop_body (Acc "" [] []) b.

End WithDecoder.

(** Appending the loop variables of two runs of the loop. *)
Definition acc_app (a1 a2 : acc) : acc :=
  Acc (prompt_text a1 +:+ prompt_text a2) (images a1 ++ images a2)
    (logged a1 ++ logged a2).

(** *** The extraction as the specification words it *)

(** The text content of a text block: the [text] attribute of an object that
    has one, the [text] item of a [dict] of type [text]; any other block has
    none. *)
Definition text_content (b : block) : string :=
  match b with
  | Obj attrs => default "" (attrs !! "text")
  | Dict items =>
    if decide (items !! "type" = Some "text") then dict_get items "text" ""
    else ""
  end.

(** Concatenation of a sequence of strings, in order. *)
Definition join (l : list string) : string := foldr String.append "" l.

(** "Concatenate all text-block contents in source order, trimming
    leading/trailing whitespace from the final concatenation only." *)
Definition concatenated_text (prompt : list block) : string :=
  strip (join (map text_content prompt)).

(** The [data] of an image block: of a [dict] of type [image], or of an
    object whose [type] attribute is [image]. *)
Definition image_data (b : block) : option string :=
  match b with
  | Obj attrs =>
    if decide (attrs !! "type" = Some "image")
    then Some (default "" (attrs !! "data"))
    else None
  | Dict items =>
    if decide (items !! "type" = Some "image")
    then Some (dict_get items "data" "")
    else None
  end.

(** *** Sample blocks *)

(** A text content block of the protocol. *)
Definition text_block (t : string) : block :=
  Obj {[ "type" := "text"; "text" := t ]}.

(** An image content block of the protocol, with base64 [data]. *)
Definition image_block (data : string) : block :=
  Obj {[ "type" := "image"; "mimeType" := "image/png"; "data" := data ]}.

(** The same two as plain dicts. *)
Definition text_dict (t : string) : block :=
  Dict {[ "type" := "text"; "text" := t ]}.

Definition image_dict (data : string) : block :=
  Dict {[ "type" := "image"; "data" := data ]}.

(** An object of type [image] that also has a [text] attribute. *)
Definition captioned_image (t data : string) : block :=
  Obj {[ "type" := "image"; "data" := data; "text" := t ]}.

(** *** What one block gives, case by case *)

(** The image a block yields: the decoding of its non-empty [data], when it
    is an image block and the decoding succeeds. *)
Definition decoded_image (b64decode : string -> result bytes) (b : block)
    : option bytes :=
  match image_data b with
  | Some data =>
    if truthy data then
      match b64decode data with
      | Ok img => Some img
      | Raise _ => None
      end
    else None
  | None => None
  end.

(** The record a block makes the loop log: the error of decoding its
    non-empty [data], when it is an image block and the decoding fails. *)
Definition decode_error (b64decode : string -> result bytes) (b : block)
    : option log_record :=
  match image_data b with
  | Some data =>
    if truthy data then
      match b64decode data with
      | Ok _ => None
      | Raise e => Some (Log "ERROR" ("Failed to decode image: " +:+ exn_str e))
      end
    else None
  | None => None
  end.

(** Whether a block is an image block with non-empty [data]: the blocks the
    loop tries to decode. *)
Definition has_image_data (b : block) : bool :=
  match image_data b with
  | Some data => truthy data
  | None => false
  end.

(** A block no branch of the loop body takes: it has no [text] attribute, it
    is not a [dict] of type [text], and it is not of type [image]. *)
Definition unrecognised (b : block) : Prop :=
  hasattr b "text" = false
  /\ image_data b = None
  /\ match b with
     | Dict items => items !! "type" <> Some "text"
     | Obj _ => True
     end.

(** A [str] of ASCII whitespace only. *)
Fixpoint blank (s : string) : bool :=
  match s with
  | EmptyString => true
  | String c rest => space1 c && blank rest
  end.

(** An audio content block of the protocol: the loop has no branch for it. *)
Definition audio_block (data : string) : block :=
  Obj {[ "type" := "audio"; "mimeType" := "audio/wav"; "data" := data ]}.

End Extractor.

(** ** Sessions, runs and the event loop *)
Module Agent.

Import Extractor.

(** A message of the conversation history: the dict with [role] and
    [content], and its [images] entry when there is one. *)
Record message := Message {
  role : string;
  content : string;
  msg_images : option (list bytes)
}.

(** [class AgentSession].  [pending_prompt] refers to an asyncio task. *)
Record AgentSession := Session {
  pending_prompt : option nat;
  conversation_history : list message
}.

(** A chunk of the backend stream: [None] when it has no [message] key, else
    [chunk['message'].get('content', '')]. *)
Definition chunk := option string.

(** Where the coroutine [handle_prompt] can be suspended; the two middle
    points are inside [_stream_ollama_response] and carry its local
    [full_response]. *)
Inductive await_point :=
  | AwaitChat
      (* stream = await self.ollama_client.chat(...) *)
  | AwaitNext (full_response : string)
      (* async for chunk in stream *)
  | AwaitUpdate (full_response : string)
      (* await self._conn.session_update(...content...) *)
  | AwaitNotice.
      (* await self._conn.session_update(...) in the handler of handle_prompt *)

(** The coroutine object of [handle_prompt(session_id, prompt)]: not yet
    entered, or suspended with its local [session]. *)
Inductive coroutine :=
  | Created (session_id : string) (prompt : list block)
  | Suspended (session_id : string) (session : nat) (point : await_point).

(** An [asyncio.Task]: pending, with the flag [cancel()] sets, or done with a
    result ([None]), cancelled, or done with an exception. *)
Inductive task :=
  | Pending (co : coroutine) (must_cancel : bool)
  | Returned
  | Cancelled
  | Raised (e : exn).

(** What the event loop sends or throws into a task when it runs it once. *)
Inductive resume :=
  | Start
      (* first run of a created task *)
  | ChatReturned
      (* chat(...) returned the stream *)
  | Next (c : chunk)
      (* the stream yielded a chunk *)
  | StreamEnd
      (* the stream is exhausted *)
  | Sent
      (* session_update(...) returned *)
  | Throw (e : exn)
      (* the awaited call raised e, an Exception *)
  | ThrowCancelled.
      (* asyncio.CancelledError, after cancel() *)

Global Instance resume_eq_dec : EqDecision resume.
Proof. solve_decision. Defined.

Inductive PromptResponse := StopReason (stop_reason : string).

(** One invocation of [prompt]: its local [session], the task it awaits, and
    its outcome once it has returned or raised. *)
Record call := Call {
  call_session : nat;
  call_task : nat;
  call_outcome : option (result PromptResponse)
}.

(** The agent and its surroundings.  [AgentSession] objects live in [objects]
    and are referred to by index, so that [_sessions], the locals of [prompt]
    and of [handle_prompt] can share one object.  [tasks] are the tasks made
    by [asyncio.create_task], [calls] the invocations of [prompt], both in
    order of creation.  [sink] is the sequence of [session_update] calls made
    on the connection, as (session id, text), each recorded when the call is
    made. *)
Record state := State {
  _sessions : gmap string nat;
  objects : list AgentSession;
  tasks : list task;
  calls : list call;
  sink : list (string * string);
  log : list log_record
}.

(** A fresh [OllamaAgent]. *)
Definition init : state := State ∅ [] [] [] [] [].

(** *** Field updates *)

Definition set_pending (v : option nat) (o : AgentSession) : AgentSession :=
  Session v (conversation_history o).

Definition history_append (m : message) (o : AgentSession) : AgentSession :=
  Session (pending_prompt o) (conversation_history o ++ [m]).

Definition with_objects (f : list AgentSession -> list AgentSession)
    (s : state) : state :=
  State (_sessions s) (f (objects s)) (tasks s) (calls s) (sink s) (log s).

Definition with_tasks (f : list task -> list task) (s : state) : state :=
  State (_sessions s) (objects s) (f (tasks s)) (calls s) (sink s) (log s).

Definition with_calls (f : list call -> list call) (s : state) : state :=
  State (_sessions s) (objects s) (tasks s) (f (calls s)) (sink s) (log s).

Definition set_task (t : nat) (x : task) : state -> state :=
  with_tasks (fun ts => <[t := x]> ts).

(** [self._conn.session_update(session_id=..., update=update_agent_message_text(text))]. *)
Definition session_update (session_id text : string) (s : state) : state :=
  State (_sessions s) (objects s) (tasks s) (calls s)
    (sink s ++ [(session_id, text)]) (log s).

Definition logging (records : list log_record) (s : state) : state :=
  State (_sessions s) (objects s) (tasks s) (calls s) (sink s)
    (log s ++ records).

(** [task.cancel()]: a done task is left alone; a pending one gets
    [CancelledError] thrown in when the loop next runs it. *)
Definition cancel_task (x : task) : task :=
  match x with
  | Pending co _ => Pending co true
  | _ => x
  end.

(** The session object behind a reference (references are never dangling;
    the default is not reached). *)
Definition deref (s : state) (session : nat) : AgentSession :=
  default (Session None []) (objects s !! session).

(** [if session.pending_prompt: session.pending_prompt.cancel()], on the
    tasks. *)
Definition cancel_pending (o : AgentSession) (ts : list task) : list task :=
  match pending_prompt o with
  | Some old => alter cancel_task old ts
  | None => ts
  end.

Section WithDecoder.

Variable b64decode : string -> result bytes.

(** *** Protocol entry points *)

(** [new_session]: [token] is what [secrets.token_hex(16)] returned. *)
Definition new_session (token : string) (s : state) : state :=
  logging [Log "INFO" ("Created new session: " +:+ token)]
    (State (<[token := length (objects s)]> (_sessions s))
       (objects s ++ [Session None []]) (tasks s) (calls s) (sink s) (log s)).

(** [prompt], from its entry to [await session.pending_prompt]: look the
    session up or create it, cancel the pending task if there is one, create
    the task of [handle_prompt] and store it in the session. *)
Definition prompt (session_id : string) (blocks : list block) (s : state)
    : state :=
  let '(session, s1) :=
    match _sessions s !! session_id with
    | Some session => (session, s)
    | None =>
      (length (objects s),
       State (<[session_id := length (objects s)]> (_sessions s))
         (objects s ++ [Session None []]) (tasks s) (calls s) (sink s)
         (log s))
    end in
  let s2 := with_tasks (cancel_pending (deref s1 session)) s1 in
  let t := length (tasks s2) in
  with_calls (fun cs => cs ++ [Call session t None])
    (with_objects (alter (set_pending (Some t)) session)
       (with_tasks (fun ts => ts ++ [Pending (Created session_id blocks) false])
          s2)).

(** [prompt], from the wake-up of [await session.pending_prompt] to its end:
    the three ways out of the [try], each through the [finally]. *)
Definition prompt_resumed (c : nat) (s : state) : option state :=
  match calls s !! c with
  | Some (Call session t None) =>
    let leave (out : result PromptResponse) (s' : state) : state :=
      with_calls (fun cs => <[c := Call session t (Some out)]> cs)
        (with_objects (alter (set_pending None) session) s') in
    match tasks s !! t with
    | Some Returned => Some (leave (Ok (StopReason "end_turn")) s)
    | Some Cancelled => Some (leave (Ok (StopReason "cancelled")) s)
    | Some (Raised e) =>
      Some (leave (Raise e)
              (logging [Log "ERROR" "Error handling prompt"] s))
    | _ => None
    end
  | _ => None
  end.

(** [cancel]. *)
Definition cancel (session_id : string) (s : state) : state :=
  match _sessions s !! session_id with
  | Some session => with_tasks (cancel_pending (deref s session)) s
  | None => s
  end.

(** *** The task of [handle_prompt] *)

(** The [KeyError] of [self._sessions[session_id]].  [str] of it is [repr]
    of the key, which for a key of printable ASCII characters without quote
    or backslash is the key between single quotes; that is the text kept
    here.  In a state the agent can reach the lookup never fails. *)
Definition KeyError (key : string) : exn :=
  Exn "KeyError" ("'" +:+ key +:+ "'").

(** The text of the notice sent when the backend call fails. *)
Definition error_notice (e : exn) : string :=
  "Xin lỗi, đã có lỗi xảy ra: " +:+ exn_str e.

(** [not prompt_text and not images]. *)
Definition no_content (extracted : string * list bytes) : bool :=
  negb (truthy extracted.1) && bool_decide (extracted.2 = []).

(** The message of the user: [images] is set only when there are some. *)
Definition user_message (extracted : string * list bytes) : message :=
  Message "user" extracted.1
    (if bool_decide (extracted.2 = []) then None else Some extracted.2).

(** [handle_prompt], from its entry to the first await (inside
    [_stream_ollama_response]) or to its early return. *)
Definition handle_prompt (t : nat) (session_id : string)
    (blocks : list block) (s : state) : state :=
  match _sessions s !! session_id with
  | None => set_task t (Raised (KeyError session_id)) s
  | Some session =>
    let extracted := _extract_content_from_prompt b64decode blocks in
    let s1 := logging (extract_log b64decode blocks) s in
    if no_content extracted then set_task t Returned s1
    else
      set_task t (Pending (Suspended session_id session AwaitChat) false)
        (with_objects (alter (history_append (user_message extracted)) session)
           s1)
  end.

(** What resuming [_stream_ollama_response] leads to: the next await inside
    it, after a delivery to the sink if one is made; its [return]; or an
    [Exception] that its handler re-raises. *)
Inductive driver_step :=
  | Await (point : await_point) (delivered : option string)
  | ReturnText (full_response : string)
  | Reraise (e : exn).

(** [_stream_ollama_response], resumed at one of its await points with what
    the awaited call gave: the stream from [chat], the next chunk (its content
    is accumulated and sent when it is non-empty), the end of the stream, the
    return of a send, or an exception. *)
Definition _stream_ollama_response (point : await_point) (r : resume)
    : option driver_step :=
  match point, r with
  | AwaitChat, ChatReturned => Some (Await (AwaitNext "") None)
  | AwaitNext full_response, Next (Some content) =>
    if truthy content
    then Some (Await (AwaitUpdate (full_response +:+ content)) (Some content))
    else Some (Await (AwaitNext full_response) None)
  | AwaitNext full_response, Next None =>
    Some (Await (AwaitNext full_response) None)
  | AwaitNext full_response, StreamEnd => Some (ReturnText full_response)
  | AwaitUpdate full_response, Sent =>
    Some (Await (AwaitNext full_response) None)
  | AwaitChat, Throw e
  | AwaitNext _, Throw e
  | AwaitUpdate _, Throw e => Some (Reraise e)
  | _, _ => None
  end.

(** The handler of [handle_prompt] for an [Exception] out of
    [_stream_ollama_response]: it logs, sends the notice and awaits the
    send. *)
Definition handle_prompt_except (t : nat) (session_id : string)
    (session : nat) (e : exn) (s : state) : state :=
  set_task t (Pending (Suspended session_id session AwaitNotice) false)
    (session_update session_id (error_notice e)
       (logging [Log "ERROR" "Error calling Ollama"] s)).

(** Resuming [handle_prompt] at an await point.  Inside
    [_stream_ollama_response] the driver goes on; when it returns, the
    assistant message is appended and the coroutine ends; when it raises, the
    handler takes over.  At the send of the notice the coroutine ends, or
    the exception of the send leaves it.

    The handler of [_stream_ollama_response] calls
    [logging.exception("Error during Ollama streaming", e)]: [e] is passed
    as a format argument to a message without a placeholder, so the record
    cannot be formatted; the logging handler reports that on its error
    stream and emits nothing, and the call returns.  The log is left as it
    is, and the exception is re-raised. *)
Definition handle_prompt_resumed (t : nat) (session_id : string)
    (session : nat) (point : await_point) (r : resume) (s : state)
    : option state :=
  match point with
  | AwaitNotice =>
    match r with
    | Sent => Some (set_task t Returned s)
    | Throw e => Some (set_task t (Raised e) s)
    | _ => None
    end
  | _ =>
    match _stream_ollama_response point r with
    | Some (Await point' delivered) =>
      Some (set_task t (Pending (Suspended session_id session point') false)
              (match delivered with
               | Some content => session_update session_id content s
               | None => s
               end))
    | Some (ReturnText response_text) =>
      Some (set_task t Returned
              (with_objects
                 (alter (history_append (Message "assistant" response_text None))
                    session) s))
    | Some (Reraise e) => Some (handle_prompt_except t session_id session e s)
    | None => None
    end
  end.

(** The event loop runs task [t] once.  With [must_cancel] set it throws
    [CancelledError] into the coroutine, which no handler of [handle_prompt]
    or [_stream_ollama_response] catches ([except Exception] does not): the
    task ends cancelled, and a coroutine that was never entered runs none of
    its body. *)
Definition run_task (t : nat) (r : resume) (s : state) : option state :=
  match tasks s !! t with
  | Some (Pending _ true) =>
    match r with
    | ThrowCancelled => Some (set_task t Cancelled s)
    | _ => None
    end
  | Some (Pending (Created session_id blocks) false) =>
    match r with
    | Start => Some (handle_prompt t session_id blocks s)
    | _ => None
    end
  | Some (Pending (Suspended session_id session point) false) =>
    handle_prompt_resumed t session_id session point r s
  | _ => None
  end.

(** *** Executions *)

(** What can happen in one turn of the event loop.  The protocol connection
    calls an entry point, which runs up to its first await; or the loop runs
    a task of [handle_prompt] from where it is suspended to its next await or
    its end; or a call of [prompt] whose task is done wakes up and leaves.
    Code between two awaits runs without interruption.  The order of the
    events of an execution is not constrained further: which request arrives
    when, and what the backend and the connection answer, is up to the
    surroundings. *)
Inductive event :=
  | NewSession (token : string)
      (* new_session(...), the token generator giving token *)
  | Prompt (session_id : string) (blocks : list block)
      (* prompt(blocks, session_id), up to its await *)
  | Cancel (session_id : string)
      (* cancel(session_id) *)
  | Step (t : nat) (r : resume)
      (* the loop runs task t once *)
  | Return (c : nat).
      (* call c of prompt resumes after its await *)

(** One turn of the event loop; [None] when the event cannot happen in [s]. *)
Definition step (s : state) (ev : event) : option state :=
  match ev with
  | NewSession token => Some (new_session token s)
  | Prompt session_id blocks => Some (prompt session_id blocks s)
  | Cancel session_id => Some (cancel session_id s)
  | Step t r => run_task t r s
  | Return c => prompt_resumed c s
  end.

Fixpoint run (s : state) (tr : list event) : option state :=
  match tr with
  | [] => Some s
  | ev :: tr' =>
    match step s ev with
    | Some s' => run s' tr'
    | None => None
    end
  end.

End WithDecoder.

(** *** Observations on states *)

(** The conversation history of a session object. *)
Definition history (s : state) (session : nat) : list message :=
  conversation_history (deref s session).

(** [task.done()]. *)
Definition done (x : task) : bool :=
  match x with
  | Pending _ _ => false
  | _ => true
  end.

(** The session id a pending task of [handle_prompt] works for. *)
Definition task_session (x : task) : option string :=
  match x with
  | Pending (Created session_id _) _ => Some session_id
  | Pending (Suspended session_id _ _) _ => Some session_id
  | _ => None
  end.

(** The runs of a session that are in flight: the tasks created for it that
    are not done. *)
Definition in_flight (s : state) (session_id : string) : list nat :=
  filter (fun t => tasks s !! t ≫= task_session = Some session_id)
    (seq 0 (length (tasks s))).

(** *** Observations on executions *)

(** What the event loop handed to task [t], in order. *)
Definition resumes (t : nat) (tr : list event) : list resume :=
  omap (fun ev =>
          match ev with
          | Step t' r => if decide (t' = t) then Some r else None
          | _ => None
          end) tr.

(** The text increments among them: the non-empty contents of the chunks. *)
Definition increments (rs : list resume) : list string :=
  omap (fun r =>
          match r with
          | Next (Some content) => if truthy content then Some content else None
          | _ => None
          end) rs.

(** The first exception thrown in, if any. *)
Definition failure (rs : list resume) : option exn :=
  head (omap (fun r =>
                match r with
                | Throw e => Some e
                | _ => None
                end) rs).

(** An event that leaves the run of task [t] for session [session_id] to
    itself: no other task runs, and the session id is not handed out again. *)
Definition undisturbed (t : nat) (session_id : string) (ev : event) : Prop :=
  match ev with
  | Step t' _ => t' = t
  | NewSession token => token <> session_id
  | _ => True
  end.

(** A step of the event loop on some task. *)
Definition is_step (ev : event) : Prop :=
  match ev with
  | Step _ _ => True
  | _ => False
  end.

(** The history a run leaves, from the history [h0] it found, the content
    extracted from its prompt and what it was handed. *)
Definition expected_history (h0 : list message)
    (extracted : string * list bytes) (rs : list resume) : list message :=
  h0
  ++ (if bool_decide (Start ∈ rs) && negb (no_content extracted)
      then [user_message extracted] else [])
  ++ (if bool_decide (StreamEnd ∈ rs)
      then [Message "assistant" (join (increments rs)) None] else []).

(** The sink after a run, from the sink [k0] it found. *)
Definition expected_sink (k0 : list (string * string)) (session_id : string)
    (rs : list resume) : list (string * string) :=
  k0
  ++ (pair session_id <$> increments rs)
  ++ (match failure rs with
      | Some e => [(session_id, error_notice e)]
      | None => []
      end).

(** What the state of a task says about what it was handed so far. *)
Definition consistent (session_id : string) (session : nat)
    (blocks : list block) (extracted : string * list bytes) (x : task)
    (rs : list resume) : Prop :=
  match x with
  | Pending (Created session_id' blocks') _ =>
    session_id' = session_id /\ blocks' = blocks /\ rs = []
  | Pending (Suspended session_id' session' point) _ =>
    session_id' = session_id /\ session' = session
    /\ no_content extracted = false
    /\ (Start ∈ rs) /\ (StreamEnd ∉ rs) /\ (ThrowCancelled ∉ rs)
    /\ match point with
       | AwaitChat => increments rs = [] /\ failure rs = None
       | AwaitNext full_response | AwaitUpdate full_response =>
         full_response = join (increments rs) /\ failure rs = None
       | AwaitNotice => failure rs <> None
       end
  | Returned => ThrowCancelled ∉ rs
  | Cancelled => ThrowCancelled ∈ rs
  | Raised _ => (ThrowCancelled ∉ rs) /\ (StreamEnd ∉ rs)
  end.

(** The steps of task [t] when the backend streams [chunks] to the end and
    every send succeeds. *)
Definition chunk_events (t : nat) (c : chunk) : list event :=
  match c with
  | Some content =>
    if truthy content then [Step t (Next c); Step t Sent] else [Step t (Next c)]
  | None => [Step t (Next c)]
  end.

Definition stream_events (t : nat) (chunks : list chunk) : list event :=
  [Step t Start; Step t ChatReturned]
  ++ flat_map (chunk_events t) chunks ++ [Step t StreamEnd].

(** The invariant of an undisturbed run of task [t], created for
    [session_id] with [blocks], on the session object [session] whose history
    was [h0] when the sink held [k0]. *)
Record run_invariant (t : nat) (session_id : string) (session : nat)
    (blocks : list block) (extracted : string * list bytes)
    (h0 : list message) (k0 : list (string * string)) (s : state)
    (rs : list resume) : Prop := RunInvariant {
  inv_task : exists x, tasks s !! t = Some x
               /\ consistent session_id session blocks extracted x rs;
  inv_registry : _sessions s !! session_id = Some session;
  inv_history : exists o, objects s !! session = Some o
                  /\ conversation_history o = expected_history h0 extracted rs;
  inv_sink : sink s = expected_sink k0 session_id rs;
  inv_end : StreamEnd ∈ rs ->
            failure rs = None /\ (Start ∈ rs)
            /\ no_content extracted = false /\ (ThrowCancelled ∉ rs);
  inv_failure : failure rs <> None ->
                (Start ∈ rs) /\ no_content extracted = false
                /\ (StreamEnd ∉ rs)
}.

(** *** Sample executions *)

Definition boom : exn := Exn "ResponseError" "model not found".

(** A session is opened and a prompt submitted: task 0 is created. *)
Definition opening : list event :=
  [NewSession "s1"; Prompt "s1" [text_block "hello"]].

(** The prompt is cancelled before the event loop has run its task. *)
Definition early_cancel : list event :=
  [Cancel "s1"; Step 0 ThrowCancelled; Return 0].

(** The prompt is cancelled while its task awaits the backend. *)
Definition late_cancel : list event :=
  [Step 0 Start; Cancel "s1"; Step 0 ThrowCancelled].

(** The backend streams two increments among empty chunks. *)
Definition streaming : list event :=
  [Step 0 Start; Step 0 ChatReturned; Step 0 (Next (Some "Hel")); Step 0 Sent;
   Step 0 (Next None); Step 0 (Next (Some "")); Step 0 (Next (Some "lo"));
   Step 0 Sent].

(** The first run of a session has reached the backend call. *)
Definition first_run : list event :=
  [NewSession "s1"; Prompt "s1" [text_block "first"]; Step 0 Start].

(** A second prompt arrives while the first run awaits the backend. *)
Definition handoff_trace : list event :=
  first_run ++ [Prompt "s1" [text_block "second"]].

(** The backend call fails, the notice is sent, the call returns. *)
Definition failure_trace : list event :=
  [NewSession "s1"; Prompt "s1" [text_block "hello"]; Step 0 Start;
   Step 0 ChatReturned; Step 0 (Next (Some "Hel")); Step 0 Sent;
   Step 0 (Throw boom); Step 0 Sent; Return 0].

(** The handoff continued: the first run ends cancelled, the second starts,
    and the first call is about to return. *)
Definition superseded_trace : list event :=
  handoff_trace ++ [Step 0 ThrowCancelled; Step 1 Start].

(** After the first call has returned, a third prompt finds no pending run
    to cancel: the second and the third run stream side by side. *)
Definition overlap_trace : list event :=
  superseded_trace
  ++ [Return 0; Prompt "s1" [text_block "third"]; Step 2 Start;
      Step 1 ChatReturned; Step 2 ChatReturned].

(** The state a fresh agent is in after an execution, with the decoder of
    the Python library. *)
Definition state_after (tr : list event) : state :=
  default init (run b64decode init tr).

(** *** Well-formed states *)

(** [conversation_history.append] of several messages in a row. *)
Definition history_extend (ms : list message) (o : AgentSession)
    : AgentSession :=
  Session (pending_prompt o) (conversation_history o ++ ms).

(** The session id a coroutine of [handle_prompt] was called with. *)
Definition coroutine_session (co : coroutine) : string :=
  match co with
  | Created session_id _ => session_id
  | Suspended session_id _ _ => session_id
  end.

(** The session object a coroutine of [handle_prompt] works on: its local
    [session] once it has one, else what [self._sessions[session_id]] will
    give. *)
Definition coroutine_object (s : state) (co : coroutine) : option nat :=
  match co with
  | Created session_id _ => _sessions s !! session_id
  | Suspended _ session _ => Some session
  end.

(** What [prompt] makes of the end of the task it awaits. *)
Definition outcome_of (x : task) : option (result PromptResponse) :=
  match x with
  | Returned => Some (Ok (StopReason "end_turn"))
  | Cancelled => Some (Ok (StopReason "cancelled"))
  | Raised e => Some (Raise e)
  | Pending _ _ => None
  end.

(** No reference dangles: the registry, the locals of suspended coroutines
    and of calls, and [pending_prompt] refer to objects and tasks that exist,
    and a task that has not started yet was created for a registered
    session id. *)
Record well_formed (s : state) : Prop := WellFormed {
  wf_registry : forall sid session,
    _sessions s !! sid = Some session -> session < length (objects s);
  wf_created : forall t sid blocks mc,
    tasks s !! t = Some (Pending (Created sid blocks) mc) ->
    is_Some (_sessions s !! sid);
  wf_suspended : forall t sid session point mc,
    tasks s !! t = Some (Pending (Suspended sid session point) mc) ->
    session < length (objects s);
  wf_calls : forall c cl,
    calls s !! c = Some cl ->
    call_session cl < length (objects s) /\ call_task cl < length (tasks s);
  wf_pending : forall i o t,
    objects s !! i = Some o -> pending_prompt o = Some t ->
    t < length (tasks s)
}.

(** The non-empty contents of a sequence of chunks, in order. *)
Definition chunk_texts (chunks : list chunk) : list string :=
  omap (fun c : chunk =>
          match c with
          | Some content => if truthy content then Some content else None
          | None => None
          end) chunks.

(** A run has reached the stream of the backend. *)
Definition cancelled_trace : list event :=
  opening ++ [Step 0 Start; Step 0 ChatReturned].

(** A run whose stream was empty has ended; its call has not resumed yet. *)
Definition quiet_run : list event := opening ++ stream_events 0 [].

(** A new prompt for the same session, cancelled at once. *)
Definition resubmission : list event :=
  [Prompt "s1" [text_block "again"]; Cancel "s1"].

(** Two increments among chunks without content. *)
Definition sample_chunks : list chunk :=
  [Some "Hel"; None; Some ""; Some "lo"].

(** *** The turns of an execution *)

(** One turn of the event loop: the state it found, what happened, the
    state it left. *)
Record turn := Turn {
  before : state;
  happened : event;
  after : state
}.

(** The event is a run of task [t]. *)
Definition runs_task (t : nat) (ev : event) : bool :=
  match ev with
  | Step t' _ => bool_decide (t' = t)
  | _ => false
  end.

(** What a turn appended to the history of session object [i]: what lies
    beyond the length the history had. *)
Definition appended (i : nat) (x : turn) : list message :=
  drop (length (history (before x) i)) (history (after x) i).

(** What a turn delivered to the update sink: what lies beyond the length
    the sink had. *)
Definition delivered (x : turn) : list (string * string) :=
  drop (length (sink (before x))) (sink (after x)).


Section Turns.

Variable b64decode : string -> result bytes.

(** The turns of an execution, in order. *)
Fixpoint turns (s : state) (tr : list event) : list turn :=
  match tr with
  | [] => []
  | ev :: tr' =>
    match step b64decode s ev with
    | Some s' => Turn s ev s' :: turns s' tr'
    | None => []
    end
  end.

(** The turns in which the event loop ran task [t].  Code between two
    awaits runs without interruption, so what such a turn changed is what the
    run of [t] did, whatever happens in the turns between them. *)
Definition turns_of (t : nat) (s : state) (tr : list event) : list turn :=
  filter (fun x => runs_task t (happened x) = true) (turns s tr).

(** What the run of task [t] appended to the history of session object [i]
    along an execution, and what it delivered to the update sink. *)
Definition appended_by (t i : nat) (s : state) (tr : list event)
    : list message :=
  flat_map (appended i) (turns_of t s tr).

Definition delivered_by (t : nat) (s : state) (tr : list event)
    : list (string * string) :=
  flat_map delivered (turns_of t s tr).

End Turns.

(** The invariant of the run of task [t], created for [session_id] with
    [blocks], in any execution: [rs] is what it was handed so far, [T] are
    its turns so far, and [session] is the session object it works on once
    it has started. *)
Record run_turns_invariant (t : nat) (session_id : string)
    (blocks : list block) (extracted : string * list bytes) (session : nat)
    (s : state) (rs : list resume) (T : list turn) : Prop :=
  RunTurnsInvariant {
  rt_task : exists x, tasks s !! t = Some x
              /\ consistent session_id session blocks extracted x rs;
  rt_events : happened <$> T = Step t <$> rs;
  rt_started : forall x, x ∈ T -> happened x = Step t Start ->
               _sessions (before x) !! session_id = Some session;
  rt_appended : flat_map (appended session) T
                = expected_history [] extracted rs;
  rt_elsewhere : forall i, i <> session -> flat_map (appended i) T = [];
  rt_delivered : flat_map delivered T = expected_sink [] session_id rs;
  rt_end : StreamEnd ∈ rs ->
           failure rs = None /\ (Start ∈ rs)
           /\ no_content extracted = false /\ (ThrowCancelled ∉ rs);
  rt_failure : failure rs <> None ->
               (Start ∈ rs) /\ no_content extracted = false
               /\ (StreamEnd ∉ rs)
}.

(** Two sessions and a prompt for each: tasks 0 and 1 are created. *)
Definition two_sessions : list event :=
  [NewSession "s1"; NewSession "s2"; Prompt "s1" [text_block "hello"];
   Prompt "s2" [text_block "hi"]].

(** Both runs stream to their end, their turns interleaved. *)
Definition interleaved : list event :=
  [Step 0 Start; Step 1 Start; Step 0 ChatReturned; Step 1 ChatReturned;
   Step 1 (Next (Some "a")); Step 0 (Next (Some "Hel")); Step 0 Sent;
   Step 1 Sent; Step 0 (Next None); Step 0 (Next (Some "lo"));
   Step 1 StreamEnd; Step 0 Sent; Step 0 StreamEnd].


(** After the handoff: the first run of the session ends cancelled, and its
    second and third runs stream side by side on the one history. *)
Definition overlap_completed : list event :=
  [Step 0 ThrowCancelled; Step 1 Start; Return 0;
   Prompt "s1" [text_block "third"]; Step 2 Start; Step 1 ChatReturned;
   Step 2 ChatReturned; Step 2 (Next (Some "b")); Step 2 Sent;
   Step 2 StreamEnd; Step 1 (Next (Some "a")); Step 1 Sent;
   Step 1 StreamEnd].

End Agent.

(** ** The connection check and the command that starts the agent

    [list_models] and [verify_connection] of [OllamaAgent], and
    [run_agent_command] of [src/ollama_acp/cli.py].  Each awaits one call of
    the surroundings, whose answer is a parameter here. *)
Module Connection.

Import Py Extractor.

(** What the field [model] of a listed model holds: a [str] or [None]
    (an [Optional[str]] in the schema of the ollama client). *)
Definition name := option string.

(** An element of [result.models]: an object with an attribute [model], a
    [dict], or anything else. *)
Inductive entry :=
  | ModelObject (model : name)
  | ModelDict (items : gmap string name)
  | OtherEntry.

(** What [await self.ollama_client.list()] gives: an [Exception], or a
    result with its attribute [models] when it has one. *)
Inductive list_answer :=
  | ListRaised (e : exn)
  | ListResult (models : option (list entry)).

(** How [await run_agent(agent)] ends, when it does. *)
Inductive agent_end :=
  | AgentReturned
  | AgentInterrupted
      (* KeyboardInterrupt *)
  | AgentRaised (e : exn).

(** What [run_agent_command] did: its return value, whether it got to
    [run_agent], and what it logged. *)
Record command_result := CommandResult {
  exit_code : nat;
  agent_started : bool;
  command_log : list log_record
}.

(** [s.startswith(prefix)]. *)
Fixpoint startswith (s prefix : string) : bool :=
  match prefix, s with
  | EmptyString, _ => true
  | String _ _, EmptyString => false
  | String p prefix', String c s' =>
    if decide (p = c) then startswith s' prefix' else false
  end.

(** [sub in s], for two [str]. *)
Fixpoint contains (sub s : string) : bool :=
  startswith s sub
  || match s with
     | EmptyString => false
     | String _ s' => contains sub s'
     end.

(** [list_models]. *)
Definition list_models (answer : list_answer)
    : list entry * list log_record :=
  match answer with
  | ListResult (Some models) => (models, [])
  | ListResult None => ([], [])
  | ListRaised e =>
    ([], [Log "ERROR" ("Failed to list models: " +:+ exn_str e)])
  end.

(** The loop of [verify_connection] that collects the names. *)
Definition model_name (m : entry) : option name :=
  match m with
  | ModelObject model => Some model
  | ModelDict items => Some (default (Some "") (items !! "model"))
  | OtherEntry => None
  end.

Definition model_names (models : list entry) : list name :=
  omap model_name models.

(** [", ".join(l)]. *)
Fixpoint comma_join (l : list string) : string :=
  match l with
  | [] => ""
  | [x] => x
  | x :: l' => x +:+ ", " +:+ comma_join l'
  end.

Section WithInterpreter.

(** [repr] on [str], and the text of the [TypeError] that [x in None]
    raises, are the interpreter's. *)
Variable repr : string -> string.
Variable not_iterable : string.

(** [repr] of the list of names, as the f-string formats it. *)
Definition repr_names (model_names : list name) : string :=
  "[" +:+ comma_join (map (fun n : name =>
                             match n with
                             | Some s => repr s
                             | None => "None"
                             end) model_names) +:+ "]".

(** [any(self.model in name or name.startswith(self.model)
         for name in model_names)]: it stops at the first match, and raises
    at a [None] it reaches. *)
Fixpoint any_match (model : string) (model_names : list name) : result bool :=
  match model_names with
  | [] => Ok false
  | Some name :: rest =>
    if contains model name || startswith name model then Ok true
    else any_match model rest
  | None :: _ => Raise (Exn "TypeError" not_iterable)
  end.

(** [verify_connection]. *)
Definition verify_connection (model : string) (answer : list_answer)
    : bool * list log_record :=
  let '(models, listed) := list_models answer in
  let model_names := model_names models in
  match any_match model model_names with
  | Ok model_exists =>
    (true,
     listed
     ++ (if model_exists then []
         else [Log "WARNING"
                 ("Model '" +:+ model +:+ "' not found. Available models: "
                  +:+ repr_names model_names);
               Log "WARNING" ("Please run: ollama pull " +:+ model)]))
  | Raise e =>
    (false,
     listed ++ [Log "ERROR" ("Failed to connect to Ollama: " +:+ exn_str e)])
  end.

(** [run_agent_command]. *)
Definition run_agent_command (model : string) (answer : list_answer)
    (agent : agent_end) : command_result :=
  let '(connected, logged) := verify_connection model answer in
  if negb connected
  then CommandResult 1 false
         (logged ++ [Log "ERROR" "Failed to connect to Ollama. Exiting."])
  else
    match agent with
    | AgentReturned => CommandResult 0 true logged
    | AgentInterrupted => CommandResult 0 true logged
    | AgentRaised e =>
      CommandResult 1 true (logged ++ [Log "ERROR" "Agent error"])
    end.

End WithInterpreter.

(** A name that is a [str] in which the model does not occur. *)
Definition missing (model : string) (n : name) : Prop :=
  exists s, n = Some s /\ contains model s = false.

(** [repr] of a [str] of printable ASCII characters without quote or
    backslash. *)
Definition quoted (s : string) : string := "'" +:+ s +:+ "'".

(** The text of the [TypeError] of [x in None] in CPython 3.11. *)
Definition none_not_iterable : string :=
  "argument of type 'NoneType' is not iterable".

(** The server cannot be reached. *)
Definition refused : list_answer :=
  ListRaised (Exn "ConnectError" "All connection attempts failed").

(** The server lists a model without a name after one that does not
    match. *)
Definition nameless : list_answer :=
  ListResult (Some [ModelObject (Some "gemma3:1b"); ModelObject None;
                    ModelDict {[ "model" := Some "llama3.2:latest" ]}]).

(** The server lists the model wanted, among others. *)
Definition listed : list_answer :=
  ListResult (Some [ModelObject (Some "gemma3:1b"); OtherEntry;
                    ModelDict {[ "model" := Some "llama3.2:latest" ]};
                    ModelObject None]).

End Connection.

(** * Properties of the content extraction *)
Module ExtractorFacts.

Import Extractor.

Lemma append_cons (x : ascii) (a b : string) :
  String x a +:+ b = String x (a +:+ b).
Proof. reflexivity. Qed.

Lemma append_assoc (a b c : string) : (a +:+ b) +:+ c = a +:+ (b +:+ c).
Proof.
  induction a as [|x a IH]; [reflexivity |].
  by rewrite !append_cons, IH.
Qed.

Lemma append_empty_r (a : string) : a +:+ "" = a.
Proof.
  induction a as [|x a IH]; [reflexivity |].
  by rewrite append_cons, IH.
Qed.

Lemma join_app (l1 l2 : list string) : join (l1 ++ l2) = join l1 +:+ join l2.
Proof.
  induction l1 as [|x l1 IH]; [reflexivity |].
  cbn [app]. unfold join in *. cbn [foldr]. by rewrite IH, append_assoc.
Qed.

Section WithDecoder.

Variable b64decode : string -> result bytes.

Local Abbreviation loop_body := (loop_body b64decode).
Local Abbreviation extract_loop := (extract_loop b64decode).
Local Abbreviation append_image := (append_image b64decode).
Local Abbreviation contribution := (contribution b64decode).
Local Abbreviation extract := (_extract_content_from_prompt b64decode).
Local Abbreviation extract_log := (extract_log b64decode).

Lemma acc_app_empty_r a : acc_app a (Acc "" [] []) = a.
Proof.
  destruct a as [t i l]. unfold acc_app. cbn [prompt_text images logged].
  by rewrite append_empty_r, !app_nil_r.
Qed.

Lemma acc_app_assoc a1 a2 a3 :
  acc_app (acc_app a1 a2) a3 = acc_app a1 (acc_app a2 a3).
Proof.
  unfold acc_app. cbn [prompt_text images logged].
  by rewrite append_assoc, <- !(assoc_L (++)).
Qed.

Lemma append_image_acc data a :
  append_image data a = acc_app a (append_image data (Acc "" [] [])).
Proof.
  unfold Extractor.append_image.
  destruct (truthy data); [| by rewrite acc_app_empty_r].
  destruct (b64decode data); unfold acc_app; cbn [prompt_text images logged];
    by rewrite append_empty_r, ?app_nil_r.
Qed.

Lemma append_text_acc t a :
  append_text t a = acc_app a (append_text t (Acc "" [] [])).
Proof.
  unfold append_text, acc_app. cbn [prompt_text images logged].
  by rewrite !app_nil_r.
Qed.

Lemma text_or_dict_acc b a :
  text_or_dict b64decode b a
  = acc_app a (text_or_dict b64decode b (Acc "" [] [])).
Proof.
  unfold text_or_dict.
  destruct (hasattr b "text"); [apply append_text_acc |].
  destruct b as [attrs | items]; [by rewrite acc_app_empty_r |].
  repeat case_decide;
    auto using append_text_acc, append_image_acc, eq_sym, acc_app_empty_r.
Qed.

Lemma object_image_acc b a :
  object_image b64decode b a
  = acc_app a (object_image b64decode b (Acc "" [] [])).
Proof.
  unfold object_image.
  destruct (_ && _); [apply append_image_acc | by rewrite acc_app_empty_r].
Qed.

(** The loop body only appends: it acts on the loop variables by the
    contribution of the block. *)
Lemma loop_body_acc a b : loop_body a b = acc_app a (contribution b).
Proof.
  unfold contribution, Extractor.loop_body.
  rewrite object_image_acc, text_or_dict_acc.
  rewrite (object_image_acc b (text_or_dict _ _ _)).
  by rewrite acc_app_assoc.
Qed.

Lemma fold_loop_acc l a :
  fold_left loop_body l a = acc_app a (extract_loop l).
Proof.
  unfold Extractor.extract_loop.
  revert a. induction l as [|b l IH] using rev_ind; intros a.
  - simpl. by rewrite acc_app_empty_r.
  - rewrite !fold_left_app. simpl.
    rewrite IH, loop_body_acc, acc_app_assoc.
    by rewrite <- loop_body_acc.
Qed.

(** The loop over a concatenation is the loop over its parts, appended. *)
Lemma extract_loop_app l1 l2 :
  extract_loop (l1 ++ l2) = acc_app (extract_loop l1) (extract_loop l2).
Proof.
  unfold Extractor.extract_loop at 1. rewrite fold_left_app.
  apply fold_loop_acc.
Qed.

Lemma extract_loop_cons b l :
  extract_loop (b :: l) = acc_app (contribution b) (extract_loop l).
Proof.
  unfold Extractor.extract_loop at 1. simpl. apply fold_loop_acc.
Qed.

Lemma extract_loop_one b : extract_loop [b] = contribution b.
Proof. reflexivity. Qed.

(** **** Text of a block *)

Lemma append_image_text data a :
  prompt_text (append_image data a) = prompt_text a.
Proof.
  unfold Extractor.append_image.
  destruct (truthy data); [| reflexivity]. by destruct (b64decode data).
Qed.

Lemma object_image_text b a :
  prompt_text (object_image b64decode b a) = prompt_text a.
Proof.
  unfold object_image. destruct (_ && _); [apply append_image_text | done].
Qed.

Lemma contribution_text b : prompt_text (contribution b) = text_content b.
Proof.
  unfold Extractor.contribution, Extractor.loop_body.
  rewrite object_image_text. unfold text_or_dict.
  destruct b as [attrs | items]; cbn [hasattr getattr text_content].
  - destruct (attrs !! "text") as [t|] eqn:Ht.
    + rewrite bool_decide_eq_true_2 by eauto. reflexivity.
    + rewrite bool_decide_eq_false_2 by (intros [? ?]; congruence).
      reflexivity.
  - repeat case_decide; try reflexivity. apply append_image_text.
Qed.

Lemma extract_loop_text l :
  prompt_text (extract_loop l) = join (map text_content l).
Proof.
  induction l as [|b l IH]; [reflexivity |].
  rewrite extract_loop_cons. cbn [acc_app prompt_text map].
  by rewrite IH, contribution_text.
Qed.

(** **** Image of a block *)

(** A block with image data: the one image branch it takes. *)
Lemma contribution_image b data :
  image_data b = Some data ->
  contribution b
  = append_image data (Acc (text_content b) [] []).
Proof.
  unfold Extractor.contribution, Extractor.loop_body, text_or_dict,
    object_image.
  destruct b as [attrs | items]; cbn [hasattr getattr image_data text_content].
  - destruct (decide (attrs !! "type" = Some "image")) as [Hty|];
      [| discriminate].
    intros [= <-]. rewrite Hty. cbn [default andb].
    rewrite (bool_decide_eq_true_2 (is_Some (Some "image"))) by eauto.
    rewrite (bool_decide_eq_true_2 ("image" = "image")) by reflexivity.
    cbn [andb].
    destruct (attrs !! "text") as [t|] eqn:Ht.
    + rewrite bool_decide_eq_true_2 by eauto. reflexivity.
    + rewrite bool_decide_eq_false_2 by (intros [? ?]; congruence).
      reflexivity.
  - destruct (decide (items !! "type" = Some "image")) as [Hty|];
      [| discriminate].
    intros [= <-]. cbn [andb]. rewrite !decide_False by congruence.
    reflexivity.
Qed.

Lemma contribution_undecodable b data e :
  image_data b = Some data -> truthy data = true ->
  b64decode data = Raise e ->
  contribution b
  = Acc (text_content b) []
      [Log "ERROR" ("Failed to decode image: " +:+ exn_str e)].
Proof.
  intros Hb Hd He. rewrite (contribution_image _ _ Hb).
  unfold Extractor.append_image. by rewrite Hd, He.
Qed.

(** An image block without a [text] attribute carries no text. *)
Lemma image_block_without_text b data :
  image_data b = Some data -> hasattr b "text" = false -> text_content b = "".
Proof.
  destruct b as [attrs | items]; cbn [hasattr text_content image_data].
  - intros _ H. destruct (attrs !! "text") eqn:Ht; [| reflexivity].
    apply bool_decide_eq_false in H. destruct H. eauto.
  - destruct (decide (items !! "type" = Some "image")) as [Hty|];
      [| discriminate].
    intros _ _. rewrite decide_False by congruence. reflexivity.
Qed.

(** **** The claims on extraction *)

(** C6.  For every sequence of prompt blocks, the extracted prompt text is
    the concatenation of the text contents of its text blocks, in source
    order, trimmed as a whole: the loop with its accumulator computes what the
    specification words as [concatenated_text], and no block is trimmed on
    its own. *)
Theorem extracted_text_is_trimmed_concatenation (prompt : list block) :
  fst (extract prompt) = concatenated_text prompt.
Proof.
  unfold _extract_content_from_prompt, concatenated_text. cbn [fst].
  by rewrite extract_loop_text.
Qed.

(** C7, amended.  An image block whose data fails to decode contributes no
    image and one logged error; the text and the images of all other blocks
    are returned as without it, and extraction never aborts.  When the block
    has no [text] attribute (every dict, every object without one) the result
    is that of the prompt without the block, and the block alone yields the
    empty result; the text of an object that has one is still returned. *)
Theorem undecodable_image_is_skipped (l1 : list block) (b : block)
    (l2 : list block) (data : string) (e : exn) :
  image_data b = Some data ->
  truthy data = true ->
  b64decode data = Raise e ->
  extract (l1 ++ b :: l2)
  = (strip (prompt_text (extract_loop l1) +:+ text_content b
            +:+ prompt_text (extract_loop l2)),
     images (extract_loop l1) ++ images (extract_loop l2))
  /\ extract_log (l1 ++ b :: l2)
     = extract_log l1
       ++ Log "ERROR" ("Failed to decode image: " +:+ exn_str e)
          :: extract_log l2
  /\ (hasattr b "text" = false ->
      extract (l1 ++ b :: l2) = extract (l1 ++ l2)
      /\ extract [b] = ("", [])).
Proof.
  intros Hb Hd He.
  pose proof (contribution_undecodable _ _ _ Hb Hd He) as Hc.
  assert (Hloop : extract_loop (l1 ++ b :: l2)
    = acc_app (extract_loop l1)
        (acc_app (Acc (text_content b) []
                    [Log "ERROR" ("Failed to decode image: " +:+ exn_str e)])
           (extract_loop l2))).
  { by rewrite extract_loop_app, extract_loop_cons, Hc. }
  split; [| split].
  - unfold _extract_content_from_prompt. by rewrite Hloop.
  - unfold Extractor.extract_log. by rewrite Hloop.
  - intros Hno.
    pose proof (image_block_without_text _ _ Hb Hno) as Ht.
    split.
    + unfold _extract_content_from_prompt.
      rewrite Hloop, extract_loop_app, Ht. reflexivity.
    + unfold _extract_content_from_prompt.
      rewrite extract_loop_one, Hc, Ht. reflexivity.
Qed.

(** C10.  An object block that has a [text] attribute and whose [type] is
    [image], with non-empty decodable data, contributes twice: its text is
    appended to the prompt text and its decoded bytes to the images. *)
Theorem object_with_text_and_image_contributes_twice (l1 : list block)
    (attrs : gmap string string) (l2 : list block) (text data : string)
    (img : bytes) :
  attrs !! "text" = Some text ->
  attrs !! "type" = Some "image" ->
  attrs !! "data" = Some data ->
  truthy data = true ->
  b64decode data = Ok img ->
  extract (l1 ++ Obj attrs :: l2)
  = (strip (prompt_text (extract_loop l1) +:+ text
            +:+ prompt_text (extract_loop l2)),
     images (extract_loop l1) ++ img :: images (extract_loop l2)).
Proof.
  intros Htext Hty Hdata Hd Hok.
  assert (Hc : contribution (Obj attrs) = Acc text [img] []).
  { rewrite (contribution_image _ data).
    - unfold Extractor.append_image. rewrite Hd, Hok.
      cbn [text_content]. by rewrite Htext.
    - cbn [image_data]. rewrite decide_True by done. by rewrite Hdata. }
  unfold _extract_content_from_prompt.
  by rewrite extract_loop_app, extract_loop_cons, Hc.
Qed.

End WithDecoder.

(** C7 as stated fails: an object of type [image] with undecodable data that
    also has a [text] attribute, alone in the prompt, yields its text and not
    the empty result. *)
Lemma lone_undecodable_image_may_yield_text :
  ~ (forall (b : block) (data : string) (e : exn),
       image_data b = Some data ->
       truthy data = true ->
       b64decode data = Raise e ->
       _extract_content_from_prompt b64decode [b] = ("", [])).
Proof.
  intros H.
  specialize (H (captioned_image "hi" "abc") "abc"
                (binascii_Error "Incorrect padding")).
  assert (Hx : _extract_content_from_prompt b64decode
                 [captioned_image "hi" "abc"] = ("hi", []))
    by (vm_compute; reflexivity).
  rewrite Hx in H. discriminate H; vm_compute; reflexivity.
Qed.

Lemma undecodable_image_is_skipped_witness :
  let l1 := [text_block " see "] in
  let b := image_dict "abc" in
  let l2 := [image_block "aGk="; text_dict "this "] in
  let e := binascii_Error "Incorrect padding" in
  (image_data b = Some "abc" /\ truthy "abc" = true
   /\ b64decode "abc" = Raise e)
  /\ _extract_content_from_prompt b64decode (l1 ++ b :: l2)
     = ("see this", [[Byte.x68; Byte.x69]])
  /\ extract_log b64decode (l1 ++ b :: l2)
     = [Log "ERROR" "Failed to decode image: Incorrect padding"]
  /\ _extract_content_from_prompt b64decode [b] = ("", []).
Proof.
  intros l1 b l2 e.
  assert (H1 : image_data b = Some "abc") by (vm_compute; reflexivity).
  assert (H2 : truthy "abc" = true) by reflexivity.
  assert (H3 : b64decode "abc" = Raise e) by (vm_compute; reflexivity).
  destruct (undecodable_image_is_skipped b64decode l1 b l2 "abc" e H1 H2 H3)
    as (Hx & Hl & Hno).
  split; [auto |]. split; [| split].
  - rewrite Hx. vm_compute. reflexivity.
  - rewrite Hl. vm_compute. reflexivity.
  - apply Hno. vm_compute. reflexivity.
Defined.

Lemma object_with_text_and_image_contributes_twice_witness :
  let attrs : gmap string string :=
    {[ "type" := "image"; "data" := "aGk="; "text" := "a cat" ]} in
  (attrs !! "text" = Some "a cat" /\ attrs !! "type" = Some "image"
   /\ attrs !! "data" = Some "aGk=" /\ truthy "aGk=" = true
   /\ b64decode "aGk=" = Ok [Byte.x68; Byte.x69])
  /\ _extract_content_from_prompt b64decode
       ([text_block "look: "] ++ Obj attrs :: [])
     = ("look: a cat", [[Byte.x68; Byte.x69]]).
Proof.
  intros attrs.
  assert (H1 : attrs !! "text" = Some "a cat") by (vm_compute; reflexivity).
  assert (H2 : attrs !! "type" = Some "image") by (vm_compute; reflexivity).
  assert (H3 : attrs !! "data" = Some "aGk=") by (vm_compute; reflexivity).
  assert (H4 : truthy "aGk=" = true) by reflexivity.
  assert (H5 : b64decode "aGk=" = Ok [Byte.x68; Byte.x69])
    by (vm_compute; reflexivity).
  split; [auto |].
  rewrite (object_with_text_and_image_contributes_twice b64decode
             [text_block "look: "] attrs [] "a cat" "aGk="
             [Byte.x68; Byte.x69] H1 H2 H3 H4 H5).
  vm_compute. reflexivity.
Defined.

End ExtractorFacts.

(** * Properties of sessions and runs *)
Module AgentFacts.

Import Extractor Agent.

Lemma alter_snoc {A} (f : A -> A) (l : list A) (x : A) :
  alter f (length l) (l ++ [x]) = l ++ [f x].
Proof.
  replace (length l) with (length l + 0) by lia.
  by rewrite alter_app_r.
Qed.

Lemma alter_insert {A} (f : A -> A) (l : list A) (i : nat) (x : A) :
  l !! i = Some x -> alter f i l = <[i := f x]> l.
Proof.
  intros H. apply list_eq. intros j.
  destruct (decide (i = j)) as [<- | Hne].
  - rewrite list_lookup_alter_eq, H.
    rewrite list_lookup_insert_eq; [done | by eapply lookup_lt_Some].
  - by rewrite list_lookup_alter_ne, list_lookup_insert_ne.
Qed.

Lemma lookup_snoc_length {A} (l : list A) (x : A) :
  (l ++ [x]) !! length l = Some x.
Proof. rewrite lookup_app_r by lia. by rewrite Nat.sub_diag. Qed.

Lemma insert_snoc {A} (l : list A) (x y : A) :
  <[length l := y]> (l ++ [x]) = l ++ [y].
Proof.
  replace (length l) with (length l + 0) by lia.
  by rewrite insert_app_r.
Qed.

Lemma deref_lookup s session o :
  objects s !! session = Some o -> deref s session = o.
Proof. unfold deref. by intros ->. Qed.

Lemma length_cancel_pending o ts : length (cancel_pending o ts) = length ts.
Proof.
  unfold cancel_pending.
  destruct (pending_prompt o); [apply length_alter | done].
Qed.

Lemma with_tasks_id s : with_tasks (fun ts => ts) s = s.
Proof. by destruct s. Qed.

Lemma history_set_pending v i (l : list AgentSession) :
  conversation_history <$> alter (set_pending v) i l
  = conversation_history <$> l.
Proof.
  revert i. induction l as [|o l IH]; intros [|i]; cbn; try done.
  f_equal. apply IH.
Qed.

(** **** What a task was handed *)

Lemma resumes_app t tr1 tr2 :
  resumes t (tr1 ++ tr2) = resumes t tr1 ++ resumes t tr2.
Proof. unfold resumes. apply omap_app. Qed.

Lemma resumes_step t r : resumes t [Step t r] = [r].
Proof. unfold resumes. cbn. by rewrite decide_True. Qed.

Lemma increments_snoc rs r :
  increments (rs ++ [r]) = increments rs ++ increments [r].
Proof. unfold increments. apply omap_app. Qed.

Lemma failure_snoc rs r :
  failure (rs ++ [r])
  = match failure rs with
    | Some e => Some e
    | None => failure [r]
    end.
Proof.
  unfold failure. rewrite omap_app, head_app.
  by destruct (head _).
Qed.

Lemma elem_of_snoc {A} (x y : A) (l : list A) :
  x ∈ l ++ [y] <-> x ∈ l \/ x = y.
Proof. by rewrite elem_of_app, list_elem_of_singleton. Qed.

Section WithDecoder.

Variable b64decode : string -> result bytes.

Local Abbreviation step := (step b64decode).
Local Abbreviation run := (run b64decode).
Local Abbreviation extract := (_extract_content_from_prompt b64decode).
Local Abbreviation handle_prompt := (handle_prompt b64decode).

(** **** The entry points, as equations *)

Lemma prompt_unknown sid blocks s :
  _sessions s !! sid = None ->
  prompt sid blocks s
  = State (<[sid := length (objects s)]> (_sessions s))
      (objects s ++ [Session (Some (length (tasks s))) []])
      (tasks s ++ [Pending (Created sid blocks) false])
      (calls s ++ [Call (length (objects s)) (length (tasks s)) None])
      (sink s) (log s).
Proof.
  intros H. unfold Agent.prompt. rewrite H.
  unfold deref. cbn [objects]. rewrite lookup_snoc_length.
  cbn [default from_option id pending_prompt cancel_pending].
  unfold with_calls, with_objects, with_tasks.
  cbn [_sessions objects tasks calls sink log].
  by rewrite (alter_snoc (A:=AgentSession)).
Qed.

Lemma prompt_known sid blocks s session o :
  _sessions s !! sid = Some session ->
  objects s !! session = Some o ->
  prompt sid blocks s
  = State (_sessions s)
      (<[session := Session (Some (length (tasks s))) (conversation_history o)]>
         (objects s))
      (cancel_pending o (tasks s) ++ [Pending (Created sid blocks) false])
      (calls s ++ [Call session (length (tasks s)) None])
      (sink s) (log s).
Proof.
  intros H Ho. unfold Agent.prompt. rewrite H, (deref_lookup _ _ _ Ho).
  unfold with_calls, with_objects, with_tasks.
  cbn [_sessions objects tasks calls sink log].
  by rewrite length_cancel_pending, (alter_insert _ _ _ _ Ho).
Qed.

Lemma cancel_known sid s session o :
  _sessions s !! sid = Some session ->
  objects s !! session = Some o ->
  cancel sid s = with_tasks (cancel_pending o) s.
Proof.
  intros H Ho. unfold cancel. by rewrite H, (deref_lookup _ _ _ Ho).
Qed.

Lemma handle_prompt_known t sid blocks s session :
  _sessions s !! sid = Some session ->
  handle_prompt t sid blocks s
  = if no_content (extract blocks)
    then State (_sessions s) (objects s) (<[t := Returned]> (tasks s))
           (calls s) (sink s) (log s ++ extract_log b64decode blocks)
    else State (_sessions s)
           (alter (history_append (user_message (extract blocks))) session
              (objects s))
           (<[t := Pending (Suspended sid session AwaitChat) false]> (tasks s))
           (calls s) (sink s) (log s ++ extract_log b64decode blocks).
Proof.
  intros H. unfold Agent.handle_prompt. rewrite H.
  by destruct (no_content _).
Qed.

Lemma run_task_cancelled t r s co :
  tasks s !! t = Some (Pending co true) ->
  run_task b64decode t r s
  = match r with
    | ThrowCancelled => Some (set_task t Cancelled s)
    | _ => None
    end.
Proof. intros H. unfold run_task. rewrite H. by destruct co. Qed.

Lemma run_task_created t r s sid blocks :
  tasks s !! t = Some (Pending (Created sid blocks) false) ->
  run_task b64decode t r s
  = match r with
    | Start => Some (handle_prompt t sid blocks s)
    | _ => None
    end.
Proof. intros H. unfold run_task. by rewrite H. Qed.

Lemma run_task_suspended t r s sid session point :
  tasks s !! t = Some (Pending (Suspended sid session point) false) ->
  run_task b64decode t r s = handle_prompt_resumed t sid session point r s.
Proof. intros H. unfold run_task. by rewrite H. Qed.

(** C8.  A prompt for a session id that is not in the registry does not
    fail: [prompt] creates a fresh session with an empty history, registers
    it under that id, creates the task of [handle_prompt] and awaits it; the
    first run of the task finds the session in the registry (no [KeyError])
    and processes the prompt against it: with content it appends the user
    message to the new session's history and goes on to the backend, without
    content it returns at once. *)
Theorem unknown_session_is_created_on_demand (s : state) (sid : string)
    (blocks : list block) :
  _sessions s !! sid = None ->
  let session := length (objects s) in
  let t := length (tasks s) in
  exists s' s'',
    step s (Prompt sid blocks) = Some s'
    /\ step s' (Step t Start) = Some s''
    /\ _sessions s' = <[sid := session]> (_sessions s)
    /\ objects s' = objects s ++ [Session (Some t) []]
    /\ tasks s' = tasks s ++ [Pending (Created sid blocks) false]
    /\ calls s' = calls s ++ [Call session t None]
    /\ _sessions s'' = _sessions s'
    /\ (if no_content (extract blocks)
        then tasks s'' = tasks s ++ [Returned] /\ objects s'' = objects s'
        else tasks s''
             = tasks s ++ [Pending (Suspended sid session AwaitChat) false]
             /\ objects s''
                = objects s ++ [Session (Some t) [user_message (extract blocks)]]).
Proof.
  intros Hnone session t. subst session t.
  eexists _, _. split; [cbn [Agent.step]; by rewrite prompt_unknown |].
  split.
  { cbn [Agent.step]. erewrite run_task_created;
      [reflexivity | cbn [tasks]; apply lookup_snoc_length]. }
  rewrite handle_prompt_known with (session := length (objects s))
    by (cbn [_sessions]; apply lookup_insert_eq).
  destruct (no_content (extract blocks));
    cbn [_sessions objects tasks calls sink log];
    rewrite (insert_snoc (A:=task)), ?(alter_snoc (A:=AgentSession));
    repeat split; reflexivity.
Qed.

Lemma cancel_nothing_pending sid s session o :
  _sessions s !! sid = Some session ->
  objects s !! session = Some o ->
  pending_prompt o = None ->
  cancel sid s = s.
Proof.
  intros H Ho Hp. rewrite (cancel_known _ _ _ _ H Ho).
  unfold cancel_pending. rewrite Hp. apply with_tasks_id.
Qed.

(** C9.  When a call of [prompt] returns or raises (its task has returned,
    was cancelled, or raised), its [finally] sets [pending_prompt] of its
    session object to [None] whatever the field holds.  In particular when a
    later [prompt] has stored its new, still pending task [new] there: the
    reference is lost, a following [cancel] for the session changes nothing,
    and [new] stays pending as it was. *)
Theorem prompt_return_clears_pending_prompt (s : state) (c session t : nat)
    (o : AgentSession) (x : task) :
  calls s !! c = Some (Call session t None) ->
  objects s !! session = Some o ->
  tasks s !! t = Some x ->
  done x = true ->
  exists s' out,
    step s (Return c) = Some s'
    /\ calls s' !! c = Some (Call session t (Some out))
    /\ (x = Returned -> out = Ok (StopReason "end_turn"))
    /\ (x = Cancelled -> out = Ok (StopReason "cancelled"))
    /\ (forall e, x = Raised e -> out = Raise e)
    /\ objects s'
       = <[session := Session None (conversation_history o)]> (objects s)
    /\ tasks s' = tasks s
    /\ forall sid new co mc,
         _sessions s !! sid = Some session ->
         pending_prompt o = Some new ->
         tasks s !! new = Some (Pending co mc) ->
         new <> t
         /\ pending_prompt (deref s' session) = None
         /\ step s' (Cancel sid) = Some s'
         /\ tasks s' !! new = Some (Pending co mc).
Proof.
  intros Hc Ho Ht Hd.
  assert (Hlt : c < length (calls s)) by (by eapply lookup_lt_Some).
  assert (Hlo : session < length (objects s)) by (by eapply lookup_lt_Some).
  assert (exists s' out,
    prompt_resumed c s = Some s'
    /\ calls s' = <[c := Call session t (Some out)]> (calls s)
    /\ (x = Returned -> out = Ok (StopReason "end_turn"))
    /\ (x = Cancelled -> out = Ok (StopReason "cancelled"))
    /\ (forall e, x = Raised e -> out = Raise e)
    /\ objects s' = alter (set_pending None) session (objects s)
    /\ tasks s' = tasks s /\ _sessions s' = _sessions s)
    as (s' & out & Hs' & Hcalls & H1 & H2 & H3 & Hobj & Htasks & Hreg).
  { unfold prompt_resumed. rewrite Hc, Ht.
    destruct x as [co mc | | | e]; [discriminate Hd | | |];
      eexists _, _; (split; [reflexivity |]);
      cbn [with_calls with_objects logging _sessions objects tasks calls];
      repeat split; try done; congruence. }
  rewrite (alter_insert _ _ _ _ Ho) in Hobj. cbn [set_pending] in Hobj.
  exists s', out. split; [exact Hs' |].
  split; [by rewrite Hcalls, list_lookup_insert_eq |].
  do 5 (split; [assumption |]).
  intros sid new co mc Hsid Hp Hnew.
  assert (Ho' : objects s' !! session
                = Some (Session None (conversation_history o)))
    by (by rewrite Hobj, list_lookup_insert_eq).
  split; [intros ->; rewrite Ht in Hnew; by simplify_eq |].
  split; [by rewrite (deref_lookup _ _ _ Ho') |].
  split; [| by rewrite Htasks].
  cbn [Agent.step]. f_equal.
  eapply cancel_nothing_pending; [by rewrite Hreg | exact Ho' | done].
Qed.

(** C1, amended.  When [prompt] is called while the session refers to a run
    that is still pending, it requests the cancellation of that run and, in
    the same turn of the event loop and without awaiting it, creates the new
    run and stores it in the session.  The old run is still pending then; the
    event loop can only throw [CancelledError] into it, and that step ends it
    cancelled without touching a session object or the sink. *)
Theorem prompt_cancels_without_awaiting (s : state) (sid : string)
    (blocks : list block) (session : nat) (o : AgentSession) (old : nat)
    (co : coroutine) (mc : bool) :
  _sessions s !! sid = Some session ->
  objects s !! session = Some o ->
  pending_prompt o = Some old ->
  tasks s !! old = Some (Pending co mc) ->
  exists s' s'',
    step s (Prompt sid blocks) = Some s'
    /\ tasks s'
       = <[old := Pending co true]> (tasks s)
         ++ [Pending (Created sid blocks) false]
    /\ objects s'
       = <[session := Session (Some (length (tasks s))) (conversation_history o)]>
           (objects s)
    /\ sink s' = sink s
    /\ step s' (Step old ThrowCancelled) = Some s''
    /\ (forall r, r <> ThrowCancelled -> step s' (Step old r) = None)
    /\ tasks s''
       = <[old := Cancelled]> (tasks s)
         ++ [Pending (Created sid blocks) false]
    /\ objects s'' = objects s'
    /\ sink s'' = sink s.
Proof.
  intros Hsid Ho Hp Hold.
  assert (Hlt : old < length (tasks s)) by (by eapply lookup_lt_Some).
  assert (Hts : cancel_pending o (tasks s) = <[old := Pending co true]> (tasks s)).
  { unfold cancel_pending. rewrite Hp. by rewrite (alter_insert _ _ _ _ Hold). }
  assert (Hlook : (<[old := Pending co true]> (tasks s)
                   ++ [Pending (Created sid blocks) false]) !! old
                  = Some (Pending co true)).
  { rewrite lookup_app_l by (by rewrite length_insert).
    by rewrite list_lookup_insert_eq. }
  eexists _, _.
  split; [cbn [Agent.step]; by rewrite (prompt_known _ _ _ _ _ Hsid Ho), Hts |].
  cbn [tasks objects sink].
  do 3 (split; [reflexivity |]).
  split; [cbn [Agent.step]; by erewrite run_task_cancelled |].
  split.
  { intros r Hr. cbn [Agent.step]. erewrite run_task_cancelled by exact Hlook.
    by destruct r. }
  unfold set_task, with_tasks. cbn [tasks objects sink].
  rewrite insert_app_l by (by rewrite length_insert).
  by rewrite list_insert_insert_eq.
Qed.

(** C2, amended.  When the backend call or a send of a run fails with an
    exception, [handle_prompt] reports it through the update sink as one
    notice and does not re-raise it: once the send of the notice has
    returned, the task returns and the call of [prompt] results in
    [end_turn], with no message appended.  The call raises only when the
    send of the notice itself raises. *)
Theorem backend_failure_is_notified_and_turn_ends (s : state) (t : nat)
    (sid : string) (session : nat) (point : await_point) (e : exn)
    (c csession : nat) :
  tasks s !! t = Some (Pending (Suspended sid session point) false) ->
  point <> AwaitNotice ->
  calls s !! c = Some (Call csession t None) ->
  exists s1 s2 s3,
    step s (Step t (Throw e)) = Some s1
    /\ step s1 (Step t Sent) = Some s2
    /\ step s2 (Return c) = Some s3
    /\ sink s1 = sink s ++ [(sid, error_notice e)]
    /\ objects s1 = objects s
    /\ tasks s1 !! t = Some (Pending (Suspended sid session AwaitNotice) false)
    /\ sink s3 = sink s1
    /\ tasks s3 !! t = Some Returned
    /\ calls s3 !! c
       = Some (Call csession t (Some (Ok (StopReason "end_turn"))))
    /\ conversation_history <$> objects s3
       = conversation_history <$> objects s
    /\ forall e',
         exists s2' s3',
           step s1 (Step t (Throw e')) = Some s2'
           /\ step s2' (Return c) = Some s3'
           /\ sink s3' = sink s1
           /\ calls s3' !! c = Some (Call csession t (Some (Raise e'))).
Proof.
  intros Ht Hpoint Hc.
  assert (Hlt : t < length (tasks s)) by (by eapply lookup_lt_Some).
  assert (Hlc : c < length (calls s)) by (by eapply lookup_lt_Some).
  set (s1 := handle_prompt_except t sid session e s).
  assert (H1 : step s (Step t (Throw e)) = Some s1).
  { cbn [Agent.step]. rewrite (run_task_suspended _ _ _ _ _ _ Ht).
    by destruct point. }
  assert (Ht1 : tasks s1 !! t
                = Some (Pending (Suspended sid session AwaitNotice) false)).
  { subst s1. unfold handle_prompt_except, set_task, with_tasks.
    cbn [tasks session_update logging]. by rewrite list_lookup_insert_eq. }
  assert (Hlt1 : t < length (tasks s1)) by (by eapply lookup_lt_Some).
  assert (Hc1 : calls s1 = calls s) by reflexivity.
  exists s1, (set_task t Returned s1).
  eexists. split; [exact H1 |].
  split; [cbn [Agent.step]; by rewrite (run_task_suspended _ _ _ _ _ _ Ht1) |].
  split.
  { cbn [Agent.step]. unfold prompt_resumed.
    cbn [set_task with_tasks calls tasks]. rewrite Hc1, Hc.
    rewrite list_lookup_insert_eq by done. reflexivity. }
  cbn [with_calls with_objects set_task with_tasks sink objects tasks calls].
  split; [reflexivity |]. split; [reflexivity |]. split; [exact Ht1 |].
  split; [reflexivity |].
  split; [by rewrite list_lookup_insert_eq |].
  split; [rewrite Hc1; by rewrite list_lookup_insert_eq |].
  split; [apply history_set_pending |].
  intros e'. exists (set_task t (Raised e') s1). eexists.
  split; [cbn [Agent.step]; by rewrite (run_task_suspended _ _ _ _ _ _ Ht1) |].
  split.
  { cbn [Agent.step]. unfold prompt_resumed.
    cbn [set_task with_tasks calls tasks]. rewrite Hc1, Hc.
    rewrite list_lookup_insert_eq by done. reflexivity. }
  cbn [with_calls with_objects logging set_task with_tasks sink objects tasks
       calls].
  split; [reflexivity |].
  rewrite Hc1. by rewrite list_lookup_insert_eq.
Qed.

Lemma run_snoc s tr ev :
  run s (tr ++ [ev]) = run s tr ≫= fun s' => step s' ev.
Proof.
  revert s. induction tr as [|ev' tr IH]; intros s; cbn.
  - by destruct (Agent.step _ s ev).
  - destruct (Agent.step _ s ev'); [apply IH | done].
Qed.

Lemma run_app s tr1 tr2 :
  run s (tr1 ++ tr2) = run s tr1 ≫= fun s' => run s' tr2.
Proof.
  revert s. induction tr1 as [|ev tr1 IH]; intros s; cbn; [done |].
  destruct (Agent.step _ s ev); [apply IH | done].
Qed.

(** **** Events that are not steps of the task *)

(** What an event other than a step does to a task, a session object, the
    registry entry of a session id that is not handed out again, and the
    sink. *)
Lemma other_event_frame (t : nat) (sid : string) (session : nat)
    (s s' : state) (ev : event) :
  ~ is_step ev ->
  undisturbed t sid ev ->
  step s ev = Some s' ->
  sink s' = sink s
  /\ (forall x, tasks s !! t = Some x ->
               tasks s' !! t = Some x \/ tasks s' !! t = Some (cancel_task x))
  /\ (forall o, objects s !! session = Some o ->
               exists o', objects s' !! session = Some o'
                          /\ conversation_history o' = conversation_history o)
  /\ (_sessions s !! sid = Some session -> _sessions s' !! sid = Some session).
Proof.
  intros Hns Hund Hstep.
  assert (Hcp : forall o x, tasks s !! t = Some x ->
            cancel_pending o (tasks s) !! t = Some x
            \/ cancel_pending o (tasks s) !! t = Some (cancel_task x)).
  { intros o x Hx. unfold cancel_pending.
    destruct (pending_prompt o) as [old|]; [| by left].
    destruct (decide (old = t)) as [-> | Hne].
    - right. by rewrite list_lookup_alter_eq, Hx.
    - left. by rewrite list_lookup_alter_ne. }
  assert (Hsp : forall v i o, objects s !! session = Some o ->
            exists o', alter (set_pending v) i (objects s) !! session = Some o'
                       /\ conversation_history o' = conversation_history o).
  { intros v i o Ho. destruct (decide (i = session)) as [-> | Hne].
    - rewrite list_lookup_alter_eq, Ho. by eexists.
    - rewrite list_lookup_alter_ne by done. by eexists. }
  destruct ev as [token | sid' blocks' | sid' | t' r | c];
    cbn [Agent.step] in Hstep; [| | | by destruct Hns |].
  - (* new_session *)
    injection Hstep as <-. cbn in Hund.
    unfold new_session, logging. cbn [sink tasks objects _sessions].
    split; [done |]. split; [by left |]. split.
    + intros o Ho. exists o. split; [by apply lookup_app_l_Some | done].
    + intros Hs. by rewrite lookup_insert_ne.
  - (* prompt *)
    injection Hstep as <-. unfold Agent.prompt.
    destruct (_sessions s !! sid') as [session'|] eqn:Hreg;
      unfold with_calls, with_objects, with_tasks;
      cbn [sink tasks objects _sessions calls log].
    + split; [done |]. split; [| split; [| done]].
      * intros x Hx.
        destruct (Hcp (deref s session') x Hx) as [H | H]; [left | right];
          by apply lookup_app_l_Some.
      * intros o Ho. by apply Hsp.
    + split; [done |]. split; [| split].
      * intros x Hx.
        destruct (Hcp (deref
           (State (<[sid':=length (objects s)]> (_sessions s))
              (objects s ++ [Session None []]) (tasks s) (calls s) (sink s)
              (log s)) (length (objects s))) x Hx) as [H | H];
          [left | right]; by apply lookup_app_l_Some.
      * intros o Ho.
        assert (Hlt : session < length (objects s))
          by (by eapply lookup_lt_Some).
        rewrite list_lookup_alter_ne by lia.
        exists o. split; [by apply lookup_app_l_Some | done].
      * intros Hs. rewrite lookup_insert_ne; [done |]. congruence.
  - (* cancel *)
    injection Hstep as <-. unfold cancel.
    destruct (_sessions s !! sid') as [session'|];
      [| by repeat split; eauto].
    unfold with_tasks. cbn [sink tasks objects _sessions].
    split; [done |]. split; [by apply Hcp |]. by eauto.
  - (* the return of a call *)
    unfold prompt_resumed in Hstep.
    destruct (calls s !! c) as [[session' t' [out|]]|]; try discriminate.
    destruct (tasks s !! t') as [[| | |e]|]; try discriminate;
      injection Hstep as <-;
      unfold with_calls, with_objects, logging;
      cbn [sink tasks objects _sessions calls log];
      (split; [done |]); (split; [by left |]); (split; [| done]);
      intros o Ho; by apply Hsp.
Qed.

(** **** The invariant of an undisturbed run *)

Section Run.

Variables (t : nat) (sid : string) (session : nat) (blocks : list block).
Variables (h0 : list message) (k0 : list (string * string)).

Local Abbreviation X := (extract blocks).
Local Abbreviation EH := (expected_history h0 (extract blocks)).
Local Abbreviation EK := (expected_sink k0 sid).
Local Abbreviation Inv :=
  (run_invariant t sid session blocks (extract blocks) h0 k0).

Lemma expected_history_keep rs r :
  StreamEnd ∉ rs -> r <> Start -> r <> StreamEnd -> EH (rs ++ [r]) = EH rs.
Proof.
  intros Hend H1 H2. unfold expected_history.
  rewrite (bool_decide_ext (Start ∈ rs ++ [r]) (Start ∈ rs))
    by (rewrite elem_of_snoc; intuition congruence).
  rewrite (bool_decide_eq_false_2 (StreamEnd ∈ rs ++ [r]))
    by (rewrite elem_of_snoc; intuition congruence).
  by rewrite (bool_decide_eq_false_2 (StreamEnd ∈ rs)).
Qed.

Lemma expected_history_start :
  EH [Start] = h0 ++ (if no_content X then [] else [user_message X]).
Proof.
  unfold expected_history.
  rewrite (bool_decide_eq_true_2 (Start ∈ [Start]))
    by (by apply list_elem_of_singleton).
  rewrite (bool_decide_eq_false_2 (StreamEnd ∈ [Start]))
    by (by rewrite list_elem_of_singleton).
  destruct (no_content X); cbn; by rewrite ?app_nil_r.
Qed.

Lemma expected_history_end rs :
  Start ∈ rs -> no_content X = false -> StreamEnd ∉ rs ->
  EH (rs ++ [StreamEnd])
  = EH rs ++ [Message "assistant" (join (increments rs)) None].
Proof.
  intros Hs Hnc Hend. unfold expected_history.
  rewrite (bool_decide_eq_true_2 (Start ∈ rs ++ [StreamEnd]))
    by (rewrite elem_of_snoc; by left).
  rewrite (bool_decide_eq_true_2 (StreamEnd ∈ rs ++ [StreamEnd]))
    by (rewrite elem_of_snoc; by right).
  rewrite (bool_decide_eq_true_2 (Start ∈ rs)) by done.
  rewrite (bool_decide_eq_false_2 (StreamEnd ∈ rs)) by done.
  rewrite Hnc, increments_snoc. cbn. by rewrite !app_nil_r, <- app_assoc.
Qed.

Lemma expected_sink_keep rs r :
  increments [r] = [] -> failure [r] = None \/ failure rs <> None ->
  EK (rs ++ [r]) = EK rs.
Proof.
  intros Hi Hf. unfold expected_sink.
  rewrite increments_snoc, Hi, app_nil_r, failure_snoc.
  destruct (failure rs); [done |]. by destruct Hf as [-> | ?].
Qed.

Lemma expected_sink_next rs content :
  failure rs = None -> truthy content = true ->
  EK (rs ++ [Next (Some content)]) = EK rs ++ [(sid, content)].
Proof.
  intros Hf Ht. unfold expected_sink.
  rewrite increments_snoc, failure_snoc, Hf. cbn. rewrite Ht. cbn.
  by rewrite fmap_app, !app_nil_r, <- app_assoc.
Qed.

Lemma expected_sink_throw rs e :
  failure rs = None ->
  EK (rs ++ [Throw e]) = EK rs ++ [(sid, error_notice e)].
Proof.
  intros Hf. unfold expected_sink.
  rewrite increments_snoc, failure_snoc, Hf. cbn.
  by rewrite !app_nil_r, <- app_assoc.
Qed.

Lemma invariant_other_event s s' rs ev :
  Inv s rs -> ~ is_step ev -> undisturbed t sid ev ->
  step s ev = Some s' -> Inv s' rs.
Proof.
  intros [(x & Hx & Hcons) Hreg (o & Ho & Hh) Hk Hend Hfail] Hns Hund Hstep.
  destruct (other_event_frame t sid session s s' ev Hns Hund Hstep)
    as (Hsink & Htask & Hobj & Hr).
  split; try done.
  - destruct (Htask x Hx) as [H | H]; eexists; (split; [exact H |]);
      [done | by destruct x].
  - by apply Hr.
  - destruct (Hobj o Ho) as (o' & Ho' & Hh'). exists o'. by rewrite Hh'.
  - by rewrite Hsink.
Qed.

Lemma history_append_lookup (m : message) (o : AgentSession) (s : state) :
  objects s !! session = Some o ->
  exists o',
    alter (history_append m) session (objects s) !! session = Some o'
    /\ conversation_history o' = conversation_history o ++ [m].
Proof. intros Ho. rewrite list_lookup_alter_eq, Ho. by eexists. Qed.

Lemma invariant_task_step s s' rs r :
  Inv s rs -> step s (Step t r) = Some s' -> Inv s' (rs ++ [r]).
Proof.
  intros [(x & Hx & Hcons) Hreg (o & Ho & Hh) Hk Hend Hfail] Hstep.
  cbn [Agent.step] in Hstep.
  assert (Hlt : t < length (tasks s)) by (by eapply lookup_lt_Some).
  destruct x as [co mc | | | e];
    try (unfold run_task in Hstep; rewrite Hx in Hstep; discriminate).
  assert (Hnoend : StreamEnd ∉ rs).
  { destruct co; cbn in Hcons; [| tauto].
    destruct Hcons as (_ & _ & ->). apply not_elem_of_nil. }
  assert (Hnocancel : ThrowCancelled ∉ rs).
  { destruct co; cbn in Hcons; [| tauto].
    destruct Hcons as (_ & _ & ->). apply not_elem_of_nil. }
  destruct mc.
  { (* CancelledError is thrown in *)
    rewrite (run_task_cancelled _ _ _ _ Hx) in Hstep.
    destruct r; try discriminate. injection Hstep as <-.
    unfold set_task, with_tasks. split; cbn [tasks _sessions objects sink].
    - exists Cancelled. rewrite list_lookup_insert_eq by done.
      split; [done |]. cbn. rewrite elem_of_snoc. by right.
    - done.
    - exists o. by rewrite expected_history_keep.
    - rewrite expected_sink_keep; [done | done | by left].
    - rewrite elem_of_snoc. intros [H | H]; [by destruct Hnoend | done].
    - rewrite failure_snoc, !elem_of_snoc. cbn.
      destruct (failure rs) eqn:Hf; [| done]. intros _.
      destruct Hfail as (? & ? & ?); [done |]. intuition congruence. }
  destruct co as [sid' blocks' | sid' session' point]; cbn in Hcons.
  { (* the first step *)
    destruct Hcons as (-> & -> & ->).
    rewrite (run_task_created _ _ _ _ _ Hx) in Hstep.
    destruct r; try discriminate. injection Hstep as <-.
    rewrite (handle_prompt_known _ _ _ _ _ Hreg). cbn [app].
    assert (Hin : Start ∈ [Start]) by (by apply list_elem_of_singleton).
    assert (Hni : StreamEnd ∉ [Start]) by (by rewrite list_elem_of_singleton).
    assert (Hnc : ThrowCancelled ∉ [Start])
      by (by rewrite list_elem_of_singleton).
    destruct (no_content X) eqn:Hno; split;
      cbn [tasks _sessions objects sink]; try done.
    - exists Returned. rewrite list_lookup_insert_eq by done.
      split; [done |]. exact Hnc.
    - exists o. split; [done |].
      rewrite expected_history_start, Hno, app_nil_r.
      rewrite Hh. unfold expected_history. cbn.
      rewrite (bool_decide_eq_false_2 (StreamEnd ∈ [])) by apply not_elem_of_nil.
      by rewrite !app_nil_r.
    - eexists. rewrite list_lookup_insert_eq by done. split; [done |].
      cbn. by rewrite Hno.
    - destruct (history_append_lookup (user_message X) o s Ho)
        as (o' & Ho' & Hh').
      exists o'. split; [done |].
      rewrite Hh', expected_history_start, Hno, Hh.
      unfold expected_history. cbn.
      rewrite (bool_decide_eq_false_2 (StreamEnd ∈ [])) by apply not_elem_of_nil.
      by rewrite !app_nil_r. }
  (* a later step *)
  destruct Hcons as (-> & -> & Hno & Hstart & _ & _ & Hpoint).
  rewrite (run_task_suspended _ _ _ _ _ _ Hx) in Hstep.
  assert (Hstart' : forall r', Start ∈ rs ++ [r'])
    by (intros r'; rewrite elem_of_snoc; by left).
  assert (Hjoin : forall c, join (increments rs ++ [c])
                             = join (increments rs) +:+ c).
  { intros c. rewrite ExtractorFacts.join_app. cbn.
    by rewrite ExtractorFacts.append_empty_r. }
  destruct point as [| fr | fr |], r as [| | [content|] | | | e |];
    cbn in Hstep; try discriminate;
    try destruct (truthy content) eqn:Htruthy;
    injection Hstep as <-;
    unfold handle_prompt_except, set_task, with_tasks, with_objects,
      session_update, logging;
    (split; cbn [tasks _sessions objects sink]; [| done | | | |]).
  (* the task *)
  all: try (eexists; rewrite ?list_lookup_insert_eq by done;
            (split; [first [reflexivity | exact Hx] |]);
            cbn [consistent];
            rewrite ?increments_snoc, ?failure_snoc, ?elem_of_snoc; cbn;
            rewrite ?Htruthy, ?app_nil_r, ?Hjoin;
            try (destruct Hpoint as [Hp Hp']; try rewrite Hp);
            try destruct (failure rs);
            intuition (first [congruence | discriminate])).
  (* the history *)
  all: try (exists o; split; [done |];
            by rewrite expected_history_keep).
  all: try (destruct (history_append_lookup
                        (Message "assistant" fr None) o s Ho)
              as (o' & Ho' & Hh');
            exists o'; split; [exact Ho' |];
            destruct Hpoint as [-> _];
            by rewrite Hh', Hh, expected_history_end).
  (* the sink *)
  all: try (rewrite Hk;
            first [ by rewrite expected_sink_next by tauto
                  | by rewrite expected_sink_throw by tauto
                  | rewrite expected_sink_keep;
                    [done | by (cbn; rewrite ?Htruthy) | cbn; tauto] ]).
  (* the end of the stream and the failure *)
  all: rewrite ?failure_snoc, ?elem_of_snoc; cbn;
       try destruct (failure rs);
       try (intuition (first [congruence | discriminate])).
Qed.

Lemma invariant_created s o mc :
  tasks s !! t = Some (Pending (Created sid blocks) mc) ->
  _sessions s !! sid = Some session ->
  objects s !! session = Some o ->
  conversation_history o = h0 ->
  sink s = k0 ->
  Inv s [].
Proof.
  intros Hx Hreg Ho Hh Hk.
  assert (Hnil : forall r : resume, r ∉ []) by (intros r; apply not_elem_of_nil).
  split.
  - by eexists.
  - done.
  - exists o. split; [done |]. unfold expected_history.
    rewrite !bool_decide_eq_false_2 by apply Hnil. cbn.
    by rewrite !app_nil_r.
  - unfold expected_sink. cbn. by rewrite app_nil_r.
  - intros H. by destruct (Hnil _ H).
  - done.
Qed.

Lemma run_keeps_invariant tr s s' rs :
  Inv s rs -> Forall (undisturbed t sid) tr -> run s tr = Some s' ->
  Inv s' (rs ++ resumes t tr).
Proof.
  revert s rs. induction tr as [|ev tr IH]; intros s rs Hinv Hund Hrun.
  - injection Hrun as <-. by rewrite app_nil_r.
  - apply Forall_cons in Hund as [Hev Hund]. cbn [Agent.run] in Hrun.
    destruct (Agent.step b64decode s ev) as [s1|] eqn:Hstep; [| done].
    destruct ev as [token | sid' blocks' | sid' | t' r | c];
      try (change (Inv s' (rs ++ resumes t tr));
           apply (IH s1 rs);
           [lazymatch type of Hstep with
            | Agent.step _ _ ?ev = _ =>
              exact (invariant_other_event s s1 rs ev Hinv (fun H => H) Hev
                       Hstep)
            end
           | done | done]).
    cbn in Hev. subst t'.
    change (Step t r :: tr) with ([Step t r] ++ tr).
    rewrite resumes_app, resumes_step, (assoc_L (++)).
    apply (IH s1); [| done | done]. by eapply invariant_task_step.
Qed.

End Run.

Lemma history_lookup s session o :
  objects s !! session = Some o -> history s session = conversation_history o.
Proof. intros H. unfold history. by rewrite (deref_lookup _ _ _ H). Qed.

(** The invariant at the end of an undisturbed run that began with the task
    just created. *)
Lemma undisturbed_run_invariant (s0 s : state) (tr : list event) (t : nat)
    (sid : string) (session : nat) (blocks : list block) (o0 : AgentSession)
    (mc : bool) :
  tasks s0 !! t = Some (Pending (Created sid blocks) mc) ->
  _sessions s0 !! sid = Some session ->
  objects s0 !! session = Some o0 ->
  Forall (undisturbed t sid) tr ->
  run s0 tr = Some s ->
  run_invariant t sid session blocks (extract blocks) (history s0 session)
    (sink s0) s (resumes t tr).
Proof.
  intros Hx Hreg Ho Hund Hrun.
  change (resumes t tr) with ([] ++ resumes t tr).
  eapply run_keeps_invariant; [| exact Hund | exact Hrun].
  eapply invariant_created; eauto using eq_sym, history_lookup.
Qed.

(** How an undisturbed run ended, read off what its task was handed. *)
Lemma run_outcome (s0 s : state) (tr : list event) (t : nat) (sid : string)
    (session : nat) (blocks : list block) (o0 : AgentSession) (mc : bool) :
  tasks s0 !! t = Some (Pending (Created sid blocks) mc) ->
  _sessions s0 !! sid = Some session ->
  objects s0 !! session = Some o0 ->
  Forall (undisturbed t sid) tr ->
  run s0 tr = Some s ->
  (tasks s !! t = Some Cancelled <-> ThrowCancelled ∈ resumes t tr)
  /\ (StreamEnd ∈ resumes t tr -> tasks s !! t = Some Returned).
Proof.
  intros Hx Hreg Ho Hund Hrun.
  destruct (undisturbed_run_invariant _ _ _ _ _ _ _ _ _ Hx Hreg Ho Hund Hrun)
    as [(x & Hx' & Hcons) _ _ _ Hend _].
  assert (Hc : x = Cancelled <-> ThrowCancelled ∈ resumes t tr).
  { destruct x as [[] ?| | |]; cbn in Hcons;
      try (destruct Hcons as (_ & _ & ->); rewrite elem_of_nil);
      intuition (first [congruence | discriminate]). }
  assert (He : StreamEnd ∈ resumes t tr -> x = Returned).
  { intros H. destruct (Hend H) as (_ & _ & _ & Hnc).
    destruct x as [[] ?| | |]; cbn in Hcons; try done.
    - destruct Hcons as (_ & _ & Hnil). rewrite Hnil in H.
      by apply elem_of_nil in H.
    - tauto.
    - tauto. }
  rewrite Hx'. split; [split |].
  - intros [= ->]. tauto.
  - intros H. f_equal. tauto.
  - intros H. f_equal. tauto.
Qed.

(** Every finite stream can be run to its end: the steps of
    [stream_events] are all enabled for a task that is not cancelled, and
    they hand the task the end of the stream. *)
Lemma chunks_are_consumed (chunks : list chunk) (s : state) (t : nat)
    (sid : string) (session : nat) (fr : string) :
  tasks s !! t = Some (Pending (Suspended sid session (AwaitNext fr)) false) ->
  exists s' fr',
    run s (flat_map (chunk_events t) chunks) = Some s'
    /\ tasks s' !! t
       = Some (Pending (Suspended sid session (AwaitNext fr')) false).
Proof.
  revert s fr. induction chunks as [|c chunks IH]; intros s fr Ht.
  - by exists s, fr.
  - assert (Hlt : t < length (tasks s)) by (by eapply lookup_lt_Some).
    cbn [flat_map]. unfold chunk_events at 1.
    destruct c as [content|]; [destruct (truthy content) eqn:Htr |];
      cbn [app Agent.run Agent.step];
      rewrite (run_task_suspended _ _ _ _ _ _ Ht);
      cbn [handle_prompt_resumed _stream_ollama_response]; rewrite ?Htr.
    + erewrite run_task_suspended
        by (unfold set_task, with_tasks, session_update; cbn [tasks];
            by rewrite list_lookup_insert_eq).
      cbn [handle_prompt_resumed _stream_ollama_response]. eapply IH.
      unfold set_task, with_tasks, session_update. cbn [tasks].
      rewrite list_insert_insert_eq. by rewrite list_lookup_insert_eq.
    + eapply IH. unfold set_task, with_tasks. cbn [tasks].
      by rewrite list_lookup_insert_eq.
    + eapply IH. unfold set_task, with_tasks. cbn [tasks].
      by rewrite list_lookup_insert_eq.
Qed.

Lemma finite_stream_completes (chunks : list chunk) (s0 : state) (t : nat)
    (sid : string) (session : nat) (blocks : list block) :
  tasks s0 !! t = Some (Pending (Created sid blocks) false) ->
  _sessions s0 !! sid = Some session ->
  no_content (extract blocks) = false ->
  Forall (undisturbed t sid) (stream_events t chunks)
  /\ (StreamEnd ∈ resumes t (stream_events t chunks))
  /\ exists s, run s0 (stream_events t chunks) = Some s.
Proof.
  intros Ht Hreg Hno.
  assert (Hlt : t < length (tasks s0)) by (by eapply lookup_lt_Some).
  split; [| split].
  - unfold stream_events. repeat apply Forall_cons_2; try done.
    apply Forall_app_2; [| by repeat constructor].
    apply Forall_flat_map, Forall_true. intros c. unfold chunk_events.
    destruct c as [content|]; [destruct (truthy content) |];
      by repeat constructor.
  - unfold stream_events. rewrite (assoc_L (++)), resumes_app, resumes_step.
    apply elem_of_app. right. by apply list_elem_of_singleton.
  - unfold stream_events. cbn [app Agent.run Agent.step].
    rewrite (run_task_created _ _ _ _ _ Ht).
    rewrite (handle_prompt_known _ _ _ _ _ Hreg), Hno.
    erewrite run_task_suspended
      by (cbn [tasks]; by rewrite list_lookup_insert_eq).
    cbn [handle_prompt_resumed _stream_ollama_response]. rewrite run_app.
    match goal with
    | |- context [Agent.run _ ?s1 (flat_map _ _)] =>
      destruct (chunks_are_consumed chunks s1 t sid session "")
        as (s' & fr' & -> & Ht')
    end.
    { unfold set_task, with_tasks. cbn [tasks].
      rewrite list_insert_insert_eq. by rewrite list_lookup_insert_eq. }
    cbn [mbind option_bind Agent.run Agent.step].
    rewrite (run_task_suspended _ _ _ _ _ _ Ht').
    cbn [handle_prompt_resumed _stream_ollama_response]. by eexists.
Qed.

End WithDecoder.

(** C1 as stated fails: after the second [prompt] of [handoff_trace] the
    first run has not ended (cancellation is requested, not awaited) and the
    second run exists, so two runs of the session are pending. *)
Lemma new_run_is_created_while_old_run_is_pending :
  ~ (forall (tr : list event) (s : state) (sid : string),
       run b64decode init tr = Some s ->
       length (in_flight s sid) <= 1).
Proof.
  intros H.
  specialize (H handoff_trace (state_after handoff_trace) "s1").
  assert (Hrun : run b64decode init handoff_trace
                 = Some (state_after handoff_trace))
    by (vm_compute; reflexivity).
  specialize (H Hrun).
  assert (Hin : in_flight (state_after handoff_trace) "s1" = [0; 1])
    by (vm_compute; reflexivity).
  rewrite Hin in H. cbn in H. lia.
Qed.

(** C2 as stated fails: in [failure_trace] the stream raises after one
    increment, and the call of [prompt] results in [end_turn]. *)
Lemma backend_failure_yields_end_turn :
  ~ (forall (tr : list event) (s : state) (c : nat) (cl : call) (e : exn)
            (out : result PromptResponse),
       run b64decode init tr = Some s ->
       calls s !! c = Some cl ->
       In (Step (call_task cl) (Throw e)) tr ->
       call_outcome cl = Some out ->
       exists e', out = Raise e').
Proof.
  intros H.
  destruct (H failure_trace (state_after failure_trace) 0
              (Call 0 0 (Some (Ok (StopReason "end_turn")))) boom
              (Ok (StopReason "end_turn"))) as [e' He'].
  - vm_compute; reflexivity.
  - vm_compute; reflexivity.
  - cbn. tauto.
  - reflexivity.
  - discriminate He'.
Qed.

(** C3 as stated fails: a prompt with content whose run is cancelled before
    the event loop has run its task ([opening] then [early_cancel]) results
    in [cancelled] and leaves the history as it was. *)
Lemma run_cancelled_before_its_first_step_appends_nothing :
  ~ (forall (pre tr : list event) (s0 s : state) (t c : nat) (sid : string)
            (session : nat) (blocks : list block) (mc : bool),
       run b64decode init pre = Some s0 ->
       tasks s0 !! t = Some (Pending (Created sid blocks) mc) ->
       _sessions s0 !! sid = Some session ->
       Forall (undisturbed t sid) tr ->
       run b64decode s0 tr = Some s ->
       no_content (_extract_content_from_prompt b64decode blocks) = false ->
       tasks s !! t = Some Cancelled ->
       calls s !! c = Some (Call session t (Some (Ok (StopReason "cancelled")))) ->
       history s session
       = history s0 session
         ++ [user_message (_extract_content_from_prompt b64decode blocks)]).
Proof.
  intros H.
  specialize (H opening early_cancel (state_after opening)
                (state_after (opening ++ early_cancel)) 0 0 "s1" 0
                [text_block "hello"] false).
  assert (Hh : history (state_after (opening ++ early_cancel)) 0 = [])
    by (vm_compute; reflexivity).
  rewrite Hh in H.
  assert (Hne : [] <> history (state_after opening) 0
                      ++ [user_message (_extract_content_from_prompt b64decode
                                          [text_block "hello"])])
    by (vm_compute; discriminate).
  apply Hne, H; try (vm_compute; reflexivity).
  repeat constructor.
Qed.

Lemma unknown_session_is_created_on_demand_witness :
  _sessions init !! "s1" = None
  /\ exists s' s'',
       step b64decode init (Prompt "s1" [text_block "hello"]) = Some s'
       /\ step b64decode s' (Step 0 Start) = Some s''
       /\ _sessions s'' !! "s1" = Some 0
       /\ objects s'' = [Session (Some 0) [Message "user" "hello" None]].
Proof.
  assert (H0 : _sessions init !! "s1" = None) by reflexivity.
  split; [exact H0 |].
  destruct (unknown_session_is_created_on_demand b64decode init "s1"
              [text_block "hello"] H0)
    as (s' & s'' & H1 & H2 & H3 & _ & _ & _ & H4 & H5).
  exists s', s''. split; [exact H1 |]. split; [exact H2 |].
  split; [rewrite H4, H3; vm_compute; reflexivity |].
  assert (Hno : no_content (_extract_content_from_prompt b64decode
                              [text_block "hello"]) = false)
    by (vm_compute; reflexivity).
  rewrite Hno in H5. destruct H5 as [_ ->]. vm_compute. reflexivity.
Defined.

Lemma prompt_return_clears_pending_prompt_witness :
  let s := state_after superseded_trace in
  let o := Session (Some 1)
             [Message "user" "first" None; Message "user" "second" None] in
  (calls s !! 0 = Some (Call 0 0 None) /\ objects s !! 0 = Some o
   /\ tasks s !! 0 = Some Cancelled /\ done Cancelled = true
   /\ _sessions s !! "s1" = Some 0 /\ pending_prompt o = Some 1
   /\ tasks s !! 1 = Some (Pending (Suspended "s1" 0 AwaitChat) false))
  /\ exists s',
       step b64decode s (Return 0) = Some s'
       /\ calls s' !! 0 = Some (Call 0 0 (Some (Ok (StopReason "cancelled"))))
       /\ pending_prompt (deref s' 0) = None
       /\ step b64decode s' (Cancel "s1") = Some s'
       /\ tasks s' !! 1 = Some (Pending (Suspended "s1" 0 AwaitChat) false).
Proof.
  intros s o.
  assert (H1 : calls s !! 0 = Some (Call 0 0 None)) by (vm_compute; reflexivity).
  assert (H2 : objects s !! 0 = Some o) by (vm_compute; reflexivity).
  assert (H3 : tasks s !! 0 = Some Cancelled) by (vm_compute; reflexivity).
  assert (H4 : done Cancelled = true) by reflexivity.
  assert (H5 : _sessions s !! "s1" = Some 0) by (vm_compute; reflexivity).
  assert (H6 : pending_prompt o = Some 1) by reflexivity.
  assert (H7 : tasks s !! 1 = Some (Pending (Suspended "s1" 0 AwaitChat) false))
    by (vm_compute; reflexivity).
  split; [exact (conj H1 (conj H2 (conj H3 (conj H4 (conj H5 (conj H6 H7)))))) |].
  destruct (prompt_return_clears_pending_prompt b64decode s 0 0 0 o Cancelled
              H1 H2 H3 H4)
    as (s' & out & Hs' & Hc & _ & Hout & _ & _ & _ & Hsup).
  destruct (Hsup "s1" 1 _ _ H5 H6 H7) as (_ & Hp & Hcancel & Hnew).
  exists s'. rewrite (Hout eq_refl) in Hc.
  exact (conj Hs' (conj Hc (conj Hp (conj Hcancel Hnew)))).
Defined.

Lemma prompt_cancels_without_awaiting_witness :
  let s := state_after first_run in
  let o := Session (Some 0) [Message "user" "first" None] in
  (_sessions s !! "s1" = Some 0 /\ objects s !! 0 = Some o
   /\ pending_prompt o = Some 0
   /\ tasks s !! 0 = Some (Pending (Suspended "s1" 0 AwaitChat) false))
  /\ exists s' s'',
       step b64decode s (Prompt "s1" [text_block "second"]) = Some s'
       /\ tasks s'
          = [Pending (Suspended "s1" 0 AwaitChat) true;
             Pending (Created "s1" [text_block "second"]) false]
       /\ step b64decode s' (Step 0 ThrowCancelled) = Some s''
       /\ tasks s''
          = [Cancelled; Pending (Created "s1" [text_block "second"]) false].
Proof.
  intros s o.
  assert (H1 : _sessions s !! "s1" = Some 0) by (vm_compute; reflexivity).
  assert (H2 : objects s !! 0 = Some o) by (vm_compute; reflexivity).
  assert (H3 : pending_prompt o = Some 0) by reflexivity.
  assert (H4 : tasks s !! 0 = Some (Pending (Suspended "s1" 0 AwaitChat) false))
    by (vm_compute; reflexivity).
  split; [exact (conj H1 (conj H2 (conj H3 H4))) |].
  destruct (prompt_cancels_without_awaiting b64decode s "s1"
              [text_block "second"] 0 o 0 _ _ H1 H2 H3 H4)
    as (s' & s'' & Hs' & Ht' & _ & _ & Hs'' & _ & Ht'' & _).
  exists s', s''. rewrite Ht', Ht''.
  split; [exact Hs' |]. split; [vm_compute; reflexivity |].
  split; [exact Hs'' |]. vm_compute; reflexivity.
Defined.

Lemma backend_failure_is_notified_and_turn_ends_witness :
  let s := state_after (opening ++ [Step 0 Start; Step 0 ChatReturned]) in
  (tasks s !! 0 = Some (Pending (Suspended "s1" 0 (AwaitNext "")) false)
   /\ AwaitNext "" <> AwaitNotice /\ calls s !! 0 = Some (Call 0 0 None))
  /\ exists s3,
       run b64decode s [Step 0 (Throw boom); Step 0 Sent; Return 0] = Some s3
       /\ sink s3 = [("s1", error_notice boom)]
       /\ calls s3 !! 0 = Some (Call 0 0 (Some (Ok (StopReason "end_turn")))).
Proof.
  intros s.
  assert (H1 : tasks s !! 0
               = Some (Pending (Suspended "s1" 0 (AwaitNext "")) false))
    by (vm_compute; reflexivity).
  assert (H2 : AwaitNext "" <> AwaitNotice) by discriminate.
  assert (H3 : calls s !! 0 = Some (Call 0 0 None)) by (vm_compute; reflexivity).
  split; [exact (conj H1 (conj H2 H3)) |].
  destruct (backend_failure_is_notified_and_turn_ends b64decode s 0 "s1" 0
              (AwaitNext "") boom 0 0 H1 H2 H3)
    as (s1 & s2 & s3 & E1 & E2 & E3 & Hk1 & _ & _ & Hk3 & _ & Hc & _).
  exists s3. cbn [run]. rewrite E1, E2, E3, Hk3, Hk1.
  split; [reflexivity |]. split; [vm_compute; reflexivity | exact Hc].
Defined.

(** Two runs of one session streaming side by side: the return of the first
    call has cleared the reference to the second run, so the third prompt
    cancels nothing. *)
Example two_runs_stream_at_once :
  tasks (state_after overlap_trace)
  = [Cancelled;
     Pending (Suspended "s1" 0 (AwaitNext "")) false;
     Pending (Suspended "s1" 0 (AwaitNext "")) false]
  /\ in_flight (state_after overlap_trace) "s1" = [1; 2].
Proof. split; vm_compute; reflexivity. Qed.

End AgentFacts.

(** * More on the content extraction *)
Module ExtractorMore.

Import Extractor ExtractorFacts.

Lemma lstrip_blank sp2 sp3 (s : string) :
  blank s = true -> lstrip_with sp2 sp3 s = "".
Proof.
  induction s as [|c s IH]; [done |]. cbn [blank lstrip_with].
  intros [Hc Hs]%andb_prop. rewrite Hc. by apply IH.
Qed.

Lemma strip_blank (s : string) : blank s = true -> strip s = "".
Proof.
  intros H. unfold strip, lstrip. by rewrite lstrip_blank.
Qed.

Lemma blank_append (a b : string) :
  blank (a +:+ b) = blank a && blank b.
Proof.
  induction a as [|c a IH]; [done |].
  rewrite append_cons. cbn [blank]. by rewrite IH, andb_assoc.
Qed.

Lemma blank_join (l : list string) :
  Forall (fun t => blank t = true) l -> blank (join l) = true.
Proof.
  induction 1 as [|t l Ht _ IH]; [done |].
  unfold join in *. cbn [foldr]. by rewrite blank_append, Ht, IH.
Qed.

Section WithDecoder.

Variable b64decode : string -> result bytes.

Local Abbreviation extract_loop := (extract_loop b64decode).
Local Abbreviation contribution := (contribution b64decode).
Local Abbreviation extract := (_extract_content_from_prompt b64decode).
Local Abbreviation extract_log := (extract_log b64decode).
Local Abbreviation decoded_image := (decoded_image b64decode).
Local Abbreviation decode_error := (decode_error b64decode).

(** A block that is not an image block takes no image branch. *)
Lemma contribution_no_image b :
  image_data b = None -> contribution b = Acc (text_content b) [] [].
Proof.
  unfold Extractor.contribution, Extractor.loop_body, text_or_dict,
    object_image.
  destruct b as [attrs | items]; cbn [hasattr getattr image_data text_content].
  - destruct (decide (attrs !! "type" = Some "image")) as [|Hty];
      [discriminate |].
    intros _.
    assert (Hno : bool_decide (is_Some (attrs !! "type"))
                  && bool_decide (default "" (attrs !! "type") = "image")
                  = false).
    { destruct (attrs !! "type") as [ty|] eqn:E.
      - rewrite (bool_decide_eq_false_2 (default "" (Some ty) = "image"));
          [apply andb_false_r |].
        cbn. intros ->. by destruct Hty.
      - rewrite (bool_decide_eq_false_2 (is_Some None));
          [done | by intros [? ?]]. }
    rewrite Hno.
    destruct (attrs !! "text") as [t|] eqn:Ht.
    + rewrite bool_decide_eq_true_2 by eauto. reflexivity.
    + rewrite bool_decide_eq_false_2 by (intros [? ?]; congruence).
      reflexivity.
  - destruct (decide (items !! "type" = Some "image")) as [|Hty];
      [discriminate |].
    intros _. cbn [andb].
    destruct (decide (items !! "type" = Some "text")); reflexivity.
Qed.

(** What a block adds to the loop variables, in every case. *)
Lemma contribution_cases b :
  contribution b
  = Acc (text_content b) (option_list (decoded_image b))
      (option_list (decode_error b)).
Proof.
  unfold Extractor.decoded_image, Extractor.decode_error.
  destruct (image_data b) as [data|] eqn:Hb.
  - rewrite (contribution_image _ _ _ Hb). unfold append_image.
    destruct (truthy data); [| reflexivity].
    by destruct (b64decode data).
  - by apply contribution_no_image.
Qed.

Lemma extract_loop_cases l :
  extract_loop l
  = Acc (join (map text_content l)) (omap decoded_image l)
      (omap decode_error l).
Proof.
  induction l as [|b l IH]; [reflexivity |].
  rewrite extract_loop_cons, IH, contribution_cases. unfold acc_app.
  cbn [prompt_text images logged map omap list_omap].
  unfold join. cbn [foldr].
  by destruct (decoded_image b), (decode_error b).
Qed.

(** X1.  The images returned are exactly the decodings of the non-empty data
    of the image blocks, those that succeed, in the order of the blocks. *)
Theorem images_are_the_decoded_image_blocks (prompt : list block) :
  snd (extract prompt) = omap decoded_image prompt.
Proof.
  unfold _extract_content_from_prompt. cbn [snd].
  by rewrite extract_loop_cases.
Qed.

(** X2.  Every image block with non-empty data ends up either as one image
    or as one logged error, never both and never neither: the log holds one
    record per failed decoding, in order, and images and records together
    are as many as the blocks with image data. *)
Theorem every_image_with_data_is_decoded_or_logged (prompt : list block) :
  extract_log prompt = omap decode_error prompt
  /\ length (snd (extract prompt)) + length (extract_log prompt)
     = length (filter (fun b => has_image_data b = true) prompt).
Proof.
  unfold _extract_content_from_prompt, Extractor.extract_log. cbn [snd].
  rewrite extract_loop_cases. cbn [images logged]. split; [done |].
  induction prompt as [|b l IH]; [done |].
  cbn [omap list_omap]. rewrite filter_cons.
  unfold Extractor.decoded_image, Extractor.decode_error, has_image_data
    in *.
  destruct (image_data b) as [data|]; [| by rewrite decide_False].
  destruct (truthy data); [| by rewrite decide_False].
  rewrite decide_True by done.
  destruct (b64decode data); cbn [length]; lia.
Qed.

(** X3.  A block that is neither a text block nor an image block (an audio
    block, a resource link, a dict of another type) is ignored without a
    trace: the result and the log are those of the prompt without it. *)
Theorem unrecognised_block_is_ignored (l1 : list block) (b : block)
    (l2 : list block) :
  unrecognised b ->
  extract (l1 ++ b :: l2) = extract (l1 ++ l2)
  /\ extract_log (l1 ++ b :: l2) = extract_log (l1 ++ l2).
Proof.
  intros (Htext & Himg & Hdict).
  assert (Hc : contribution b = Acc "" [] []).
  { rewrite (contribution_no_image _ Himg). f_equal.
    destruct b as [attrs | items]; cbn [text_content hasattr] in *.
    - destruct (attrs !! "text"); [| done].
      apply bool_decide_eq_false in Htext. destruct Htext. eauto.
    - by rewrite decide_False. }
  assert (Hloop : extract_loop (l1 ++ b :: l2) = extract_loop (l1 ++ l2)).
  { rewrite !extract_loop_app, extract_loop_cons, Hc.
    destruct (extract_loop l2) as [t i l]. reflexivity. }
  unfold _extract_content_from_prompt, Extractor.extract_log.
  by rewrite Hloop.
Qed.

(** X4.  An image block whose data is missing or empty is skipped silently:
    it gives no image, nothing is logged, and the other blocks are
    unaffected. *)
Theorem image_without_data_is_skipped_silently (l1 : list block) (b : block)
    (l2 : list block) (data : string) :
  image_data b = Some data ->
  truthy data = false ->
  snd (extract (l1 ++ b :: l2)) = snd (extract (l1 ++ l2))
  /\ extract_log (l1 ++ b :: l2) = extract_log (l1 ++ l2).
Proof.
  intros Hb Hd.
  unfold _extract_content_from_prompt, Extractor.extract_log. cbn [snd].
  rewrite !extract_loop_cases. cbn [images logged].
  rewrite !omap_app. cbn [omap list_omap].
  unfold Extractor.decoded_image, Extractor.decode_error.
  by rewrite Hb, Hd.
Qed.

(** X5.  For a dict block the text branch and the image branch exclude each
    other: a dict never gives both text and an image (or a logged decoding
    error), whatever items it holds. *)
Theorem dict_block_gives_text_or_image_never_both
    (items : gmap string string) :
  prompt_text (contribution (Dict items)) = ""
  \/ (images (contribution (Dict items)) = []
      /\ logged (contribution (Dict items)) = []).
Proof.
  rewrite contribution_cases. cbn [prompt_text images logged].
  unfold Extractor.decoded_image, Extractor.decode_error.
  cbn [text_content image_data].
  destruct (decide (items !! "type" = Some "text")) as [Ht|Ht].
  - right. rewrite decide_False by congruence. done.
  - by left.
Qed.

(** X6.  A prompt whose text blocks hold ASCII whitespace only has the empty
    string as its extracted text. *)
Theorem blank_text_extracts_to_nothing (prompt : list block) :
  Forall (fun b => blank (text_content b) = true) prompt ->
  fst (extract prompt) = "".
Proof.
  intros Hall. unfold _extract_content_from_prompt. cbn [fst].
  rewrite extract_loop_cases. cbn [prompt_text].
  apply strip_blank, blank_join. by apply Forall_fmap.
Qed.

End WithDecoder.

Lemma unrecognised_block_is_ignored_witness :
  unrecognised (audio_block "UklGRg==")
  /\ _extract_content_from_prompt b64decode
       ([text_block "listen: "] ++ audio_block "UklGRg==" :: [text_block "done"])
     = ("listen: done", []).
Proof.
  assert (H : unrecognised (audio_block "UklGRg=="))
    by (repeat split; vm_compute; reflexivity).
  split; [exact H |].
  destruct (unrecognised_block_is_ignored b64decode [text_block "listen: "]
              (audio_block "UklGRg==") [text_block "done"] H) as [-> _].
  vm_compute. reflexivity.
Defined.

Lemma image_without_data_is_skipped_silently_witness :
  (image_data (image_dict "") = Some "" /\ truthy "" = false)
  /\ snd (_extract_content_from_prompt b64decode
            ([image_block "aGk="] ++ image_dict "" :: []))
     = [[Byte.x68; Byte.x69]]
  /\ extract_log b64decode ([image_block "aGk="] ++ image_dict "" :: []) = [].
Proof.
  assert (H1 : image_data (image_dict "") = Some "")
    by (vm_compute; reflexivity).
  assert (H2 : truthy "" = false) by reflexivity.
  split; [exact (conj H1 H2) |].
  destruct (image_without_data_is_skipped_silently b64decode
              [image_block "aGk="] (image_dict "") [] "" H1 H2) as [-> ->].
  split; vm_compute; reflexivity.
Defined.

Lemma blank_text_extracts_to_nothing_witness :
  Forall (fun b => blank (text_content b) = true)
    [text_block "  "; image_dict "abc"; text_dict " "]
  /\ fst (_extract_content_from_prompt b64decode
            [text_block "  "; image_dict "abc"; text_dict " "]) = "".
Proof.
  assert (H : Forall (fun b => blank (text_content b) = true)
                [text_block "  "; image_dict "abc"; text_dict " "])
    by (repeat constructor; vm_compute; reflexivity).
  split; [exact H |].
  exact (blank_text_extracts_to_nothing b64decode _ H).
Defined.

End ExtractorMore.

(** * More on the agent *)
Module AgentMore.

Import Extractor Agent AgentFacts.

Lemma history_extend_nil o : history_extend [] o = o.
Proof. destruct o. unfold history_extend. cbn. by rewrite app_nil_r. Qed.

Lemma alter_history_extend_nil i (l : list AgentSession) :
  alter (history_extend []) i l = l.
Proof.
  apply list_eq. intros j. destruct (decide (i = j)) as [<- | Hne].
  - rewrite list_lookup_alter_eq. destruct (l !! i); cbn; [| done].
    by rewrite history_extend_nil.
  - by rewrite list_lookup_alter_ne.
Qed.

Lemma lookup_alter_Some {A} (f : A -> A) (i j : nat) (l : list A) (x : A) :
  l !! j = Some x ->
  exists y, alter f i l !! j = Some y /\ (y = x \/ (i = j /\ y = f x)).
Proof.
  intros H. destruct (decide (i = j)) as [<- | Hne].
  - rewrite list_lookup_alter_eq, H. cbn. eauto.
  - rewrite list_lookup_alter_ne by done. eauto.
Qed.

Lemma lookup_alter_inv {A} (f : A -> A) (i j : nat) (l : list A) (y : A) :
  alter f i l !! j = Some y ->
  exists x, l !! j = Some x /\ (y = x \/ (i = j /\ y = f x)).
Proof.
  destruct (decide (i = j)) as [<- | Hne].
  - rewrite list_lookup_alter_eq. destruct (l !! i) as [x|]; [| done].
    cbn. intros [= <-]. eauto.
  - rewrite list_lookup_alter_ne by done. eauto.
Qed.

Lemma cancel_task_idemp x : cancel_task (cancel_task x) = cancel_task x.
Proof. by destruct x. Qed.

Lemma cancel_pending_Some o (ts : list task) t x :
  ts !! t = Some x ->
  exists x', cancel_pending o ts !! t = Some x'
             /\ (x' = x \/ x' = cancel_task x).
Proof.
  intros H. unfold cancel_pending. destruct (pending_prompt o) as [old|].
  - destruct (lookup_alter_Some cancel_task old t ts x H) as (y & -> & Hy).
    exists y. split; [done |]. destruct Hy as [-> | [_ ->]]; eauto.
  - eauto.
Qed.

Lemma cancel_pending_inv o (ts : list task) t x' :
  cancel_pending o ts !! t = Some x' ->
  exists x, ts !! t = Some x /\ (x' = x \/ x' = cancel_task x).
Proof.
  unfold cancel_pending. destruct (pending_prompt o) as [old|].
  - intros H. destruct (lookup_alter_inv _ _ _ _ _ H) as (x & Hx & Hy).
    exists x. split; [done |]. destruct Hy as [-> | [_ ->]]; eauto.
  - eauto.
Qed.

Lemma cancel_pending_idemp o (ts : list task) :
  cancel_pending o (cancel_pending o ts) = cancel_pending o ts.
Proof.
  unfold cancel_pending. destruct (pending_prompt o) as [old|]; [| done].
  apply list_eq. intros j. destruct (decide (old = j)) as [<- | Hne].
  - rewrite !list_lookup_alter_eq. destruct (ts !! old); cbn; [| done].
    by rewrite cancel_task_idemp.
  - by rewrite !list_lookup_alter_ne.
Qed.

Section WithDecoder.

Variable b64decode : string -> result bytes.

Local Abbreviation step := (step b64decode).
Local Abbreviation run := (run b64decode).
Local Abbreviation extract := (_extract_content_from_prompt b64decode).
Local Abbreviation handle_prompt := (handle_prompt b64decode).

(** **** The shape of each event *)

(** [prompt]: the session it works on is the registered one or a fresh one,
    registered. *)
Lemma prompt_shape sid blocks s :
  exists reg' session objs' o,
    prompt sid blocks s
    = State reg'
        (alter (set_pending (Some (length (tasks s)))) session objs')
        (cancel_pending o (tasks s) ++ [Pending (Created sid blocks) false])
        (calls s ++ [Call session (length (tasks s)) None])
        (sink s) (log s)
    /\ reg' !! sid = Some session
    /\ ((reg' = _sessions s /\ objs' = objects s)
        \/ (_sessions s !! sid = None
            /\ reg' = <[sid := length (objects s)]> (_sessions s)
            /\ session = length (objects s)
            /\ objs' = objects s ++ [Session None []]
            /\ pending_prompt o = None)).
Proof.
  unfold Agent.prompt. destruct (_sessions s !! sid) as [session|] eqn:Hreg.
  - exists (_sessions s), session, (objects s), (deref s session).
    unfold with_calls, with_objects, with_tasks.
    cbn [_sessions objects tasks calls sink log].
    rewrite length_cancel_pending. eauto.
  - eexists _, (length (objects s)), _, (Session None []).
    unfold with_calls, with_objects, with_tasks, deref.
    cbn [_sessions objects tasks calls sink log].
    rewrite lookup_snoc_length. cbn [default from_option id].
    rewrite length_cancel_pending. split; [reflexivity |].
    split; [by rewrite lookup_insert_eq |]. right. eauto.
Qed.

Lemma cancel_shape sid s :
  exists o, cancel sid s = with_tasks (cancel_pending o) s.
Proof.
  unfold cancel. destruct (_sessions s !! sid) as [session|].
  - by eexists.
  - exists (Session None []). by destruct s.
Qed.

(** The return of a call of [prompt]: its task is done, and the outcome is
    read off it. *)
Lemma prompt_resumed_shape c s s' :
  prompt_resumed c s = Some s' ->
  exists session t x out ls,
    calls s !! c = Some (Call session t None)
    /\ tasks s !! t = Some x
    /\ outcome_of x = Some out
    /\ s' = State (_sessions s) (alter (set_pending None) session (objects s))
              (tasks s) (<[c := Call session t (Some out)]> (calls s))
              (sink s) (log s ++ ls).
Proof.
  unfold prompt_resumed.
  destruct (calls s !! c) as [[session t [out|]]|]; try discriminate.
  destruct (tasks s !! t) as [[| | |e]|] eqn:Ht; try discriminate;
    intros [= <-]; exists session, t.
  - exists Returned, (Ok (StopReason "end_turn")), [].
    unfold with_calls, with_objects. cbn. by rewrite app_nil_r.
  - exists Cancelled, (Ok (StopReason "cancelled")), [].
    unfold with_calls, with_objects. cbn. by rewrite app_nil_r.
  - by exists (Raised e), (Raise e), [Log "ERROR" "Error handling prompt"].
Qed.

(** One run of a task by the event loop: the task was pending; its own
    entry of [tasks] is replaced; the history of at most one session object,
    the one its coroutine works on, is extended; the sink is extended by
    updates for its own session id; the log is extended. *)
Lemma run_task_shape t r s s' :
  run_task b64decode t r s = Some s' ->
  exists co mc x' ref ms ks ls,
    tasks s !! t = Some (Pending co mc)
    /\ s' = State (_sessions s) (alter (history_extend ms) ref (objects s))
              (<[t := x']> (tasks s)) (calls s) (sink s ++ ks) (log s ++ ls)
    /\ (ms = []
        \/ match co with
           | Created sid _ => _sessions s !! sid = Some ref
           | Suspended _ session _ => session = ref
           end)
    /\ Forall (fun k => k.1 = coroutine_session co) ks
    /\ match x' with
       | Pending (Created _ _) _ => False
       | Pending (Suspended sid' session' _) mc' =>
         sid' = coroutine_session co /\ mc' = false
         /\ match co with
            | Created sid _ => _sessions s !! sid = Some session'
            | Suspended _ session _ => session = session'
            end
       | _ => True
       end.
Proof.
  unfold run_task.
  destruct (tasks s !! t) as [[co [|]| | |]|] eqn:Ht; try discriminate.
  - (* cancelled *)
    intros H.
    assert (r = ThrowCancelled /\ s' = set_task t Cancelled s) as [-> ->]
      by (destruct co, r; try discriminate; by injection H as <-).
    clear H. exists co, true, Cancelled, 0, [], [], [].
    split; [done |]. split.
    { unfold set_task, with_tasks.
      by rewrite alter_history_extend_nil, !app_nil_r. }
    split; [by left |]. split; [by constructor | done].
  - destruct co as [sid blocks | sid session point].
    + (* first run *)
      destruct r; try discriminate. intros [= <-].
      unfold Agent.handle_prompt.
      destruct (_sessions s !! sid) as [session|] eqn:Hreg.
      * destruct (no_content _) eqn:Hno.
        -- exists (Created sid blocks), false, Returned, 0, [], [],
             (extract_log b64decode blocks).
           split; [done |]. split.
           { unfold set_task, with_tasks, logging. cbn.
             by rewrite alter_history_extend_nil, !app_nil_r. }
           split; [by left |]. split; [by constructor | done].
        -- exists (Created sid blocks), false,
             (Pending (Suspended sid session AwaitChat) false), session,
             [user_message (extract blocks)], [],
             (extract_log b64decode blocks).
           split; [done |]. split.
           { unfold set_task, with_tasks, with_objects, logging. cbn.
             by rewrite !app_nil_r. }
           split; [by right |]. split; [by constructor | done].
      * exists (Created sid blocks), false, (Raised (KeyError sid)), 0, [],
          [], [].
        split; [done |]. split.
        { unfold set_task, with_tasks.
          by rewrite alter_history_extend_nil, !app_nil_r. }
        split; [by left |]. split; [by constructor | done].
    + (* a later run *)
      assert (Hnotice : forall x',
        match x' with Returned | Raised _ => True | _ => False end ->
        exists co mc x'0 ref ms ks ls,
          Some (Pending (Suspended sid session point) false)
          = Some (Pending co mc)
          /\ set_task t x' s
             = State (_sessions s)
                 (alter (history_extend ms) ref (objects s))
                 (<[t := x'0]> (tasks s)) (calls s) (sink s ++ ks)
                 (log s ++ ls)
          /\ (ms = []
              \/ match co with
                 | Created sid _ => _sessions s !! sid = Some ref
                 | Suspended _ session _ => session = ref
                 end)
          /\ Forall (fun k => k.1 = coroutine_session co) ks
          /\ match x'0 with
             | Pending (Created _ _) _ => False
             | Pending (Suspended sid' session' _) mc' =>
               sid' = coroutine_session co /\ mc' = false
               /\ match co with
                  | Created sid _ => _sessions s !! sid = Some session'
                  | Suspended _ session _ => session = session'
                  end
             | _ => True
             end).
      { intros x' Hx'.
        exists (Suspended sid session point), false, x', 0, [], [], [].
        split; [done |]. split.
        { unfold set_task, with_tasks.
          by rewrite alter_history_extend_nil, !app_nil_r. }
        split; [by left |]. split; [by constructor |].
        by destruct x' as [[] ?| | |]. }
      assert (Hdriver :
        point <> AwaitNotice ->
        handle_prompt_resumed t sid session point r s
        = match _stream_ollama_response point r with
          | Some (Await point' delivered) =>
            Some (set_task t
                    (Pending (Suspended sid session point') false)
                    (match delivered with
                     | Some content => session_update sid content s
                     | None => s
                     end))
          | Some (ReturnText response_text) =>
            Some (set_task t Returned
                    (with_objects
                       (alter
                          (history_append
                             (Message "assistant" response_text None))
                          session) s))
          | Some (Reraise e) =>
            Some (handle_prompt_except t sid session e s)
          | None => None
          end).
      { by destruct point. }
      assert (point = AwaitNotice \/ point <> AwaitNotice) as [-> | Hpoint]
        by (destruct point; (by left) || (by right)).
      * cbn [handle_prompt_resumed].
        destruct r; try discriminate; intros [= <-]; by apply Hnotice.
      * rewrite (Hdriver Hpoint).
        destruct (_stream_ollama_response point r)
          as [[point' [content|] | response_text | e]|];
          try discriminate; intros [= <-].
        -- exists (Suspended sid session point), false,
             (Pending (Suspended sid session point') false), 0, [],
             [(sid, content)], [].
           split; [done |]. split.
           { unfold set_task, with_tasks, session_update. cbn.
             by rewrite alter_history_extend_nil, !app_nil_r. }
           split; [by left |]. split; [by repeat constructor | done].
        -- exists (Suspended sid session point), false,
             (Pending (Suspended sid session point') false), 0, [], [], [].
           split; [done |]. split.
           { unfold set_task, with_tasks.
             by rewrite alter_history_extend_nil, !app_nil_r. }
           split; [by left |]. split; [by constructor | done].
        -- exists (Suspended sid session point), false, Returned, session,
             [Message "assistant" response_text None], [], [].
           split; [done |]. split.
           { unfold set_task, with_tasks, with_objects. cbn.
             by rewrite !app_nil_r. }
           split; [by right |]. split; [by constructor | done].
        -- exists (Suspended sid session point), false,
             (Pending (Suspended sid session AwaitNotice) false), 0, [],
             [(sid, error_notice e)], [Log "ERROR" "Error calling Ollama"].
           split; [done |]. split.
           { unfold handle_prompt_except, set_task, with_tasks,
               session_update, logging. cbn.
             by rewrite alter_history_extend_nil. }
           split; [by left |]. split; [by repeat constructor | done].
Qed.

(** **** What every event keeps *)

Lemma done_cancel_task x : done x = true -> cancel_task x = x.
Proof. by destruct x. Qed.

Local Abbreviation frame s s' :=
  ((forall t x, tasks s !! t = Some x ->
      exists x', tasks s' !! t = Some x' /\ (done x = true -> x' = x))
   /\ (forall c cl, calls s !! c = Some cl ->
         exists cl', calls s' !! c = Some cl'
           /\ call_session cl' = call_session cl
           /\ call_task cl' = call_task cl
           /\ (is_Some (call_outcome cl) -> cl' = cl))
   /\ (forall i o, objects s !! i = Some o ->
         exists o', objects s' !! i = Some o'
           /\ conversation_history o `prefix_of` conversation_history o')
   /\ sink s `prefix_of` sink s'
   /\ log s `prefix_of` log s'
   /\ (forall sid, is_Some (_sessions s !! sid) ->
         is_Some (_sessions s' !! sid))).

Lemma frame_refl s : frame s s.
Proof.
  refine (conj _ (conj _ (conj _ (conj _ (conj _ _))))); eauto 10.
Qed.

Lemma frame_trans s1 s2 s3 : frame s1 s2 -> frame s2 s3 -> frame s1 s3.
Proof.
  intros (Ht1 & Hc1 & Ho1 & Hk1 & Hl1 & Hr1) (Ht2 & Hc2 & Ho2 & Hk2 & Hl2 & Hr2).
  refine (conj _ (conj _ (conj _ (conj _ (conj _ _))))).
  - intros t x Hx. destruct (Ht1 t x Hx) as (x1 & Hx1 & Hd1).
    destruct (Ht2 t x1 Hx1) as (x2 & Hx2 & Hd2).
    exists x2. split; [done |]. intros Hd. rewrite <- (Hd1 Hd).
    apply Hd2. by rewrite (Hd1 Hd).
  - intros c cl Hcl. destruct (Hc1 c cl Hcl) as (cl1 & Hcl1 & Hs1 & Hk1' & Hd1).
    destruct (Hc2 c cl1 Hcl1) as (cl2 & Hcl2 & Hs2 & Hk2' & Hd2).
    exists cl2. split; [done |]. split; [congruence |].
    split; [congruence |]. intros Hd. rewrite <- (Hd1 Hd).
    apply Hd2. by rewrite (Hd1 Hd).
  - intros i o Ho. destruct (Ho1 i o Ho) as (o1 & Ho1' & Hp1).
    destruct (Ho2 i o1 Ho1') as (o2 & Ho2' & Hp2).
    exists o2. split; [done |]. by etrans.
  - by etrans.
  - by etrans.
  - eauto.
Qed.

Lemma step_frame s ev s' : step s ev = Some s' -> frame s s'.
Proof.
  intros Hstep.
  assert (Hsp : forall v j (l : list AgentSession) i o, l !! i = Some o ->
            exists o', alter (set_pending v) j l !! i = Some o'
              /\ conversation_history o `prefix_of` conversation_history o').
  { intros v j l i o Ho.
    destruct (lookup_alter_Some (set_pending v) j i l o Ho) as (y & Hy & Hc).
    exists y. split; [done |]. by destruct Hc as [-> | [_ ->]]. }
  assert (Hcp : forall o t x, tasks s !! t = Some x ->
            exists x', (cancel_pending o (tasks s)) !! t = Some x'
                       /\ (done x = true -> x' = x)).
  { intros o t x Hx.
    destruct (cancel_pending_Some o _ _ _ Hx) as (x' & Hx' & Hc).
    exists x'. split; [done |]. intros Hd.
    destruct Hc as [-> | ->]; [done | by apply done_cancel_task]. }
  destruct ev as [token | sid blocks | sid | t r | c];
    cbn [Agent.step] in Hstep.
  - (* new_session *)
    injection Hstep as <-. unfold new_session, logging.
    cbn [_sessions objects tasks calls sink log].
    refine (conj _ (conj _ (conj _ (conj _ (conj _ _))))); eauto 10.
    + intros i o Ho. exists o. split; [by apply lookup_app_l_Some | done].
    + by eexists.
    + intros sid' H. destruct (decide (token = sid')) as [<- | Hne].
      * by rewrite lookup_insert_eq.
      * by rewrite lookup_insert_ne.
  - (* prompt *)
    injection Hstep as <-.
    destruct (prompt_shape sid blocks s)
      as (reg' & session & objs' & o & -> & Hreg & Hcase).
    cbn [_sessions objects tasks calls sink log].
    refine (conj _ (conj _ (conj _ (conj _ (conj _ _))))); try done.
    + intros t x Hx. destruct (Hcp o t x Hx) as (x' & Hx' & Hd).
      exists x'. split; [by apply lookup_app_l_Some | done].
    + intros c cl Hcl. exists cl. split; [by apply lookup_app_l_Some | done].
    + intros i o' Ho'. apply Hsp.
      destruct Hcase as [[_ ->] | (_ & _ & _ & -> & _)];
        [done | by apply lookup_app_l_Some].
    + intros sid' H. destruct Hcase as [[-> _] | (_ & -> & _)]; [done |].
      destruct (decide (sid = sid')) as [<- | Hne].
      * by rewrite lookup_insert_eq.
      * by rewrite lookup_insert_ne.
  - (* cancel *)
    injection Hstep as <-. destruct (cancel_shape sid s) as (o & ->).
    unfold with_tasks. cbn [_sessions objects tasks calls sink log].
    refine (conj _ (conj _ (conj _ (conj _ (conj _ _))))); eauto 10.
  - (* a run of a task *)
    destruct (run_task_shape _ _ _ _ Hstep)
      as (co & mc & x' & ref & ms & ks & ls & Ht & -> & _).
    cbn [_sessions objects tasks calls sink log].
    refine (conj _ (conj _ (conj _ (conj _ (conj _ _))))); eauto 10.
    + intros t0 x Hx. destruct (decide (t0 = t)) as [-> | Hne].
      * rewrite list_lookup_insert_eq by (by eapply lookup_lt_Some).
        exists x'. split; [done |]. rewrite Ht in Hx. by injection Hx as <-.
      * rewrite list_lookup_insert_ne by done. eauto.
    + intros i o Ho.
      destruct (lookup_alter_Some (history_extend ms) ref i _ o Ho)
        as (y & Hy & Hc).
      exists y. split; [done |].
      destruct Hc as [-> | [_ ->]]; [done | by exists ms].
    + by exists ks.
    + by exists ls.
  - (* the return of a call *)
    destruct (prompt_resumed_shape _ _ _ Hstep)
      as (session & t & x & out & ls & Hc & Ht & Hout & ->).
    cbn [_sessions objects tasks calls sink log].
    refine (conj _ (conj _ (conj _ (conj _ (conj _ _))))); eauto 10.
    + intros c0 cl Hcl. destruct (decide (c0 = c)) as [-> | Hne].
      * rewrite list_lookup_insert_eq by (by eapply lookup_lt_Some).
        rewrite Hc in Hcl. injection Hcl as <-. eexists. split; [done |].
        cbn. split; [done |]. split; [done |]. by intros [? [=]].
      * rewrite list_lookup_insert_ne by done. eauto 10.
    + by exists ls.
Qed.

Lemma run_frame tr s s' : run s tr = Some s' -> frame s s'.
Proof.
  revert s. induction tr as [|ev tr IH]; intros s; cbn [Agent.run].
  - intros [= <-]. apply frame_refl.
  - destruct (Agent.step b64decode s ev) as [s1|] eqn:Hstep; [| done].
    intros Hrun. eapply frame_trans; [by eapply step_frame | by apply IH].
Qed.

(** **** Well-formedness is kept *)

Lemma pending_cancel_task_inv co mc x :
  Pending co mc = x \/ Pending co mc = cancel_task x ->
  exists mc', x = Pending co mc'.
Proof.
  intros [<- | H]; [by eexists |].
  destruct x as [co' mc'| | |]; try discriminate.
  injection H as -> _. by eexists.
Qed.

Lemma snoc_lookup_Some {A} (l : list A) (x y : A) (i : nat) :
  (l ++ [x]) !! i = Some y ->
  l !! i = Some y \/ (i = length l /\ y = x).
Proof.
  intros [H | [Hle H]]%lookup_app_Some; [by left | right].
  destruct (i - length l) as [|k] eqn:Hk; cbn in H; [| done].
  injection H as <-. split; [lia | done].
Qed.

Lemma wf_init : well_formed init.
Proof. by split; intros *; cbn; rewrite ?lookup_empty, ?lookup_nil. Qed.

Lemma wf_new_session token s : well_formed s -> well_formed (new_session token s).
Proof.
  intros [Hreg Hcr Hsu Hca Hpe]. unfold new_session, logging.
  split; cbn [_sessions objects tasks calls sink log]; rewrite ?length_app;
    cbn [length].
  - intros sid session [[_ <-] | [_ H]]%lookup_insert_Some; [lia |].
    specialize (Hreg _ _ H). lia.
  - intros t sid blocks mc H. specialize (Hcr _ _ _ _ H).
    destruct (decide (token = sid)) as [<- | Hne].
    + by rewrite lookup_insert_eq.
    + by rewrite lookup_insert_ne.
  - intros t sid session point mc H. specialize (Hsu _ _ _ _ _ H). lia.
  - intros c cl H. destruct (Hca _ _ H). split; lia.
  - intros i o t [H | [_ ->]]%snoc_lookup_Some; [by eapply Hpe | done].
Qed.

Lemma wf_prompt sid blocks s : well_formed s -> well_formed (prompt sid blocks s).
Proof.
  intros [Hreg Hcr Hsu Hca Hpe].
  destruct (prompt_shape sid blocks s)
    as (reg' & session & objs' & o & -> & Hses & Hcase).
  assert (Hlen : length (objects s) <= length objs').
  { destruct Hcase as [[_ ->] | (_ & _ & _ & -> & _)]; [done |].
    rewrite length_app. lia. }
  assert (Hreg' : forall sid0 ses0, reg' !! sid0 = Some ses0 ->
                    ses0 < length objs').
  { intros sid0 ses0 H.
    destruct Hcase as [[-> ->] | (_ & -> & _ & -> & _)]; [by eapply Hreg |].
    rewrite length_app. cbn [length].
    apply lookup_insert_Some in H as [[_ <-] | [_ H]]; [lia |].
    specialize (Hreg _ _ H). lia. }
  assert (Hdom : forall sid0, is_Some (_sessions s !! sid0) ->
                   is_Some (reg' !! sid0)).
  { intros sid0 H. destruct Hcase as [[-> _] | (_ & -> & _)]; [done |].
    destruct (decide (sid = sid0)) as [<- | Hne].
    - by rewrite lookup_insert_eq.
    - by rewrite lookup_insert_ne. }
  assert (Hold : forall i x, objs' !! i = Some x ->
                   objects s !! i = Some x \/ x = Session None []).
  { intros i x H. destruct Hcase as [[_ ->] | (_ & _ & _ & -> & _)];
      [by left |].
    apply snoc_lookup_Some in H as [H | [_ ->]]; eauto. }
  split; cbn [_sessions objects tasks calls sink log];
    rewrite ?length_alter, ?length_app, ?length_cancel_pending;
    cbn [length].
  - exact Hreg'.
  - intros t sid0 blocks0 mc [H | [_ H]]%snoc_lookup_Some.
    + apply cancel_pending_inv in H as (x & Hx & Hc).
      destruct (pending_cancel_task_inv _ _ _ Hc) as (mc' & ->).
      apply Hdom. by eapply Hcr.
    + injection H as -> _ _. by rewrite Hses.
  - intros t sid0 session0 point mc [H | [_ H]]%snoc_lookup_Some; [| done].
    apply cancel_pending_inv in H as (x & Hx & Hc).
    destruct (pending_cancel_task_inv _ _ _ Hc) as (mc' & ->).
    specialize (Hsu _ _ _ _ _ Hx). lia.
  - intros c cl [H | [_ ->]]%snoc_lookup_Some.
    + destruct (Hca _ _ H). split; lia.
    + cbn. split; [by eapply Hreg' | lia].
  - intros i o' t H Hp.
    apply lookup_alter_inv in H as (x & Hx & Hc).
    destruct Hc as [-> | [_ ->]].
    + destruct (Hold _ _ Hx) as [H | ->]; [| done].
      specialize (Hpe _ _ _ H Hp). lia.
    + cbn in Hp. injection Hp as <-. lia.
Qed.

Lemma wf_cancel sid s : well_formed s -> well_formed (cancel sid s).
Proof.
  intros [Hreg Hcr Hsu Hca Hpe]. destruct (cancel_shape sid s) as (o & ->).
  unfold with_tasks.
  split; cbn [_sessions objects tasks calls sink log];
    rewrite ?length_cancel_pending; try done.
  - intros t sid0 blocks0 mc H.
    apply cancel_pending_inv in H as (x & Hx & Hc).
    destruct (pending_cancel_task_inv _ _ _ Hc) as (mc' & ->).
    by eapply Hcr.
  - intros t sid0 session0 point mc H.
    apply cancel_pending_inv in H as (x & Hx & Hc).
    destruct (pending_cancel_task_inv _ _ _ Hc) as (mc' & ->).
    by eapply Hsu.
Qed.

Lemma wf_run_task t r s s' :
  well_formed s -> run_task b64decode t r s = Some s' -> well_formed s'.
Proof.
  intros [Hreg Hcr Hsu Hca Hpe] Hstep.
  destruct (run_task_shape _ _ _ _ Hstep)
    as (co & mc & x' & ref & ms & ks & ls & Ht & -> & _ & _ & Hx').
  split; cbn [_sessions objects tasks calls sink log];
    rewrite ?length_alter, ?length_insert; try done.
  - intros t0 sid0 blocks0 mc0 [(<- & -> & _) | [_ H]]%list_lookup_insert_Some;
      [done | by eapply Hcr].
  - intros t0 sid0 session0 point mc0
      [(<- & -> & _) | [_ H]]%list_lookup_insert_Some; [| by eapply Hsu].
    destruct Hx' as (_ & _ & Hx'). destruct co as [sid1 blocks1 | sid1 ses1 pt1].
    + by eapply Hreg.
    + subst ses1. by eapply Hsu.
  - intros i o' t0 H Hp. apply lookup_alter_inv in H as (x & Hx & Hc).
    destruct Hc as [-> | [_ ->]]; by eapply Hpe.
Qed.

Lemma wf_prompt_resumed c s s' :
  well_formed s -> prompt_resumed c s = Some s' -> well_formed s'.
Proof.
  intros [Hreg Hcr Hsu Hca Hpe] Hstep.
  destruct (prompt_resumed_shape _ _ _ Hstep)
    as (session & t & x & out & ls & Hc & Ht & Hout & ->).
  split; cbn [_sessions objects tasks calls sink log];
    rewrite ?length_alter, ?length_insert; try done.
  - intros c0 cl [(<- & <- & _) | [_ H]]%list_lookup_insert_Some;
      [| by eapply Hca].
    apply (Hca _ _ Hc).
  - intros i o' t0 H Hp. apply lookup_alter_inv in H as (x0 & Hx0 & Hcase).
    destruct Hcase as [-> | [_ ->]]; [by eapply Hpe | done].
Qed.

Lemma wf_step s ev s' : well_formed s -> step s ev = Some s' -> well_formed s'.
Proof.
  intros Hwf. destruct ev as [token | sid blocks | sid | t r | c];
    cbn [Agent.step].
  - intros [= <-]. by apply wf_new_session.
  - intros [= <-]. by apply wf_prompt.
  - intros [= <-]. by apply wf_cancel.
  - by apply wf_run_task.
  - by apply wf_prompt_resumed.
Qed.

Lemma wf_run tr s s' : well_formed s -> run s tr = Some s' -> well_formed s'.
Proof.
  revert s. induction tr as [|ev tr IH]; intros s Hwf; cbn [Agent.run].
  - by intros [= <-].
  - destruct (Agent.step b64decode s ev) as [s1|] eqn:Hstep; [| done].
    apply IH. by eapply wf_step.
Qed.

(** **** Calls and the tasks they await *)

Local Abbreviation agrees s :=
  (forall c cl out,
     calls s !! c = Some cl -> call_outcome cl = Some out ->
     exists x, tasks s !! call_task cl = Some x /\ outcome_of x = Some out).

Lemma outcome_of_done x out : outcome_of x = Some out -> done x = true.
Proof. by destruct x. Qed.

Lemma agrees_step s ev s' : agrees s -> step s ev = Some s' -> agrees s'.
Proof.
  intros Hag Hstep c cl out Hcl Hout.
  assert (Hold : calls s !! c = Some cl ->
            exists x, tasks s' !! call_task cl = Some x
                      /\ outcome_of x = Some out).
  { intros H. destruct (Hag _ _ _ H Hout) as (x & Hx & Hox).
    destruct (step_frame _ _ _ Hstep) as (Hts & _).
    destruct (Hts _ _ Hx) as (x' & Hx' & Hd).
    rewrite (Hd (outcome_of_done _ _ Hox)) in Hx'. eauto. }
  destruct ev as [token | sid blocks | sid | t r | c0];
    cbn [Agent.step] in Hstep.
  - injection Hstep as <-. by apply Hold.
  - injection Hstep as <-.
    destruct (prompt_shape sid blocks s)
      as (reg' & session & objs' & o & Heq & _).
    rewrite Heq in Hcl, Hold |- *. cbn [calls tasks] in Hcl, Hold |- *.
    apply snoc_lookup_Some in Hcl as [H | [_ ->]]; [by apply Hold | done].
  - injection Hstep as <-. destruct (cancel_shape sid s) as (o & Heq).
    rewrite Heq in Hcl, Hold |- *. by apply Hold.
  - destruct (run_task_shape _ _ _ _ Hstep)
      as (co & mc & x' & ref & ms & ks & ls & Ht & -> & _).
    by apply Hold.
  - destruct (prompt_resumed_shape _ _ _ Hstep)
      as (session & t & x & out' & ls & Hc & Ht & Hox & ->).
    cbn [calls tasks] in Hcl, Hold |- *.
    apply list_lookup_insert_Some in Hcl as [(<- & <- & _) | [_ H]];
      [| by apply Hold].
    cbn in Hout |- *. injection Hout as <-. eauto.
Qed.

Lemma agrees_run tr s s' : agrees s -> run s tr = Some s' -> agrees s'.
Proof.
  revert s. induction tr as [|ev tr IH]; intros s Hag; cbn [Agent.run].
  - by intros [= <-].
  - destruct (Agent.step b64decode s ev) as [s1|] eqn:Hstep; [| done].
    apply IH. by eapply agrees_step.
Qed.

Lemma pending_history_extend ms i (l : list AgentSession) :
  pending_prompt <$> alter (history_extend ms) i l = pending_prompt <$> l.
Proof.
  revert i. induction l as [|o l IH]; intros [|i]; cbn; try done.
  f_equal. apply IH.
Qed.

(** **** The theorems *)

(** X7.  In every state the agent can reach from its start, no reference
    dangles: every registered session id, every local [session] of a
    suspended [handle_prompt] and of a call of [prompt], refers to a session
    object that exists; every [pending_prompt] and every call refers to a
    task that exists; and every task that has not started yet was created
    for a session id that is registered. *)
Theorem references_never_dangle (tr : list event) (s : state) :
  run init tr = Some s -> well_formed s.
Proof. apply wf_run, wf_init. Qed.

(** X8.  The lookup [self._sessions[session_id]] at the entry of
    [handle_prompt] never raises [KeyError] in a reachable state: when the
    event loop first runs a task that was not cancelled, the session is
    registered and exists, and the task returns at once (no content) or goes
    on to the backend call with that session. *)
Theorem first_run_finds_its_session (tr : list event) (s : state) (t : nat)
    (sid : string) (blocks : list block) :
  run init tr = Some s ->
  tasks s !! t = Some (Pending (Created sid blocks) false) ->
  exists session s',
    _sessions s !! sid = Some session
    /\ is_Some (objects s !! session)
    /\ step s (Step t Start) = Some s'
    /\ tasks s' !! t
       = Some (if no_content (extract blocks) then Returned
               else Pending (Suspended sid session AwaitChat) false).
Proof.
  intros Hrun Ht. destruct (wf_run _ _ _ wf_init Hrun) as [Hreg Hcr _ _ _].
  destruct (Hcr _ _ _ _ Ht) as (session & Hs).
  assert (Hlt : t < length (tasks s)) by (by eapply lookup_lt_Some).
  exists session. eexists. split; [done |].
  split; [by eapply lookup_lt_is_Some, Hreg |].
  cbn [Agent.step]. rewrite (run_task_created _ _ _ _ _ _ Ht).
  split; [done |]. rewrite (handle_prompt_known _ _ _ _ _ _ Hs).
  destruct (no_content _); cbn [tasks]; by rewrite list_lookup_insert_eq.
Qed.

(** X9.  Nothing is ever taken back: along any execution the conversation
    history of every session object, the sequence of updates sent to the
    client and the log only grow at their end, and no session id leaves the
    registry. *)
Theorem history_sink_and_log_only_grow (s s' : state) (tr : list event) :
  run s tr = Some s' ->
  (forall i o, objects s !! i = Some o ->
     exists o', objects s' !! i = Some o'
       /\ conversation_history o `prefix_of` conversation_history o')
  /\ sink s `prefix_of` sink s'
  /\ log s `prefix_of` log s'
  /\ (forall sid, is_Some (_sessions s !! sid) ->
        is_Some (_sessions s' !! sid)).
Proof.
  intros Hrun. destruct (run_frame _ _ _ Hrun) as (_ & _ & Ho & Hk & Hl & Hr).
  eauto.
Qed.

(** X10.  A task that is done stays as it is, whatever happens later
    (a later [cancel()] on it included), and so does a call of [prompt] that
    has returned or raised. *)
Theorem finished_tasks_and_calls_are_final (s s' : state) (tr : list event) :
  run s tr = Some s' ->
  (forall t x, tasks s !! t = Some x -> done x = true ->
     tasks s' !! t = Some x)
  /\ (forall c cl, calls s !! c = Some cl -> is_Some (call_outcome cl) ->
        calls s' !! c = Some cl).
Proof.
  intros Hrun. destruct (run_frame _ _ _ Hrun) as (Ht & Hc & _). split.
  - intros t x Hx Hd. destruct (Ht _ _ Hx) as (x' & Hx' & Heq).
    by rewrite <- (Heq Hd).
  - intros c cl Hcl Hd. destruct (Hc _ _ Hcl) as (cl' & Hcl' & _ & _ & Heq).
    by rewrite <- (Heq Hd).
Qed.

(** X11.  What a call of [prompt] gave back is what became of the task it
    awaited: in every reachable state, a call that answered with stop reason
    [end_turn] awaited a task that returned, one that answered [cancelled] a
    task that was cancelled, and one that raised raised the exception its
    task ended with. *)
Theorem call_outcome_is_the_end_of_its_task (tr : list event) (s : state)
    (c : nat) (cl : call) (out : result PromptResponse) :
  run init tr = Some s ->
  calls s !! c = Some cl ->
  call_outcome cl = Some out ->
  exists x, tasks s !! call_task cl = Some x /\ outcome_of x = Some out.
Proof.
  intros Hrun. revert c cl out. eapply agrees_run; [| exact Hrun].
  intros c cl out. cbn. by rewrite lookup_nil.
Qed.

(** X12.  One run of a task by the event loop stays within its session: it
    leaves the registry, the calls, every other task and every
    [pending_prompt] alone, changes no session object but the one its
    coroutine works on, and every update it sends carries its own session
    id. *)
Theorem task_step_stays_in_its_session (s s' : state) (t : nat) (r : resume)
    (co : coroutine) (mc : bool) :
  tasks s !! t = Some (Pending co mc) ->
  step s (Step t r) = Some s' ->
  _sessions s' = _sessions s
  /\ calls s' = calls s
  /\ (forall t', t' <> t -> tasks s' !! t' = tasks s !! t')
  /\ pending_prompt <$> objects s' = pending_prompt <$> objects s
  /\ (forall i, coroutine_object s co <> Some i ->
        objects s' !! i = objects s !! i)
  /\ exists ks, sink s' = sink s ++ ks
                /\ Forall (fun k => k.1 = coroutine_session co) ks.
Proof.
  intros Ht Hstep. cbn [Agent.step] in Hstep.
  destruct (run_task_shape _ _ _ _ Hstep)
    as (co' & mc' & x' & ref & ms & ks & ls & Ht' & -> & Hms & Hks & _).
  rewrite Ht in Ht'. injection Ht' as <- <-.
  cbn [_sessions objects tasks calls sink log].
  split; [done |]. split; [done |]. split.
  { intros t' Hne. by rewrite list_lookup_insert_ne. }
  split; [apply pending_history_extend |]. split; [| by exists ks].
  intros i Hi. destruct Hms as [-> | Href].
  - by rewrite alter_history_extend_nil.
  - rewrite list_lookup_alter_ne; [done |]. intros ->. apply Hi.
    by destruct co; cbn; [| f_equal].
Qed.

(** X13.  [cancel] only requests a cancellation: it changes nothing but the
    cancellation flag of the task its session has in [pending_prompt];
    registry, session objects, calls, sink and log stay as they are, no task
    is added or removed, and calling it twice is the same as calling it
    once. *)
Theorem cancel_only_requests_cancellation (s : state) (sid : string) :
  cancel sid (cancel sid s) = cancel sid s
  /\ _sessions (cancel sid s) = _sessions s
  /\ objects (cancel sid s) = objects s
  /\ calls (cancel sid s) = calls s
  /\ sink (cancel sid s) = sink s
  /\ log (cancel sid s) = log s
  /\ length (tasks (cancel sid s)) = length (tasks s)
  /\ forall t x, tasks s !! t = Some x ->
       tasks (cancel sid s) !! t = Some x
       \/ (tasks (cancel sid s) !! t = Some (cancel_task x)
           /\ exists session o,
                _sessions s !! sid = Some session
                /\ objects s !! session = Some o
                /\ pending_prompt o = Some t).
Proof.
  unfold cancel. destruct (_sessions s !! sid) as [session|] eqn:Hreg.
  - unfold with_tasks at 2 3 4 5 6 7 8 9.
    cbn [_sessions objects tasks calls sink log].
    split.
    { unfold with_tasks at 1. cbn [_sessions objects tasks calls sink log].
      rewrite Hreg. unfold with_tasks, deref.
      cbn [_sessions objects tasks calls sink log].
      by rewrite cancel_pending_idemp. }
    do 5 (split; [done |]). split; [apply length_cancel_pending |].
    intros t x Hx. unfold deref, cancel_pending.
    destruct (objects s !! session) as [o|] eqn:Ho; cbn; [| by left].
    destruct (pending_prompt o) as [old|] eqn:Hp; [| by left].
    destruct (decide (old = t)) as [-> | Hne].
    + right. rewrite list_lookup_alter_eq, Hx. eauto 10.
    + left. by rewrite list_lookup_alter_ne.
  - rewrite Hreg. do 7 (split; [done |]). eauto.
Qed.

(** **** Whole turns *)

Lemma default_history_set_pending v j (l : list AgentSession) i :
  conversation_history (default (Session None []) (alter (set_pending v) j l !! i))
  = conversation_history (default (Session None []) (l !! i)).
Proof.
  destruct (decide (j = i)) as [-> | Hne].
  - rewrite list_lookup_alter_eq. by destruct (l !! i).
  - by rewrite list_lookup_alter_ne.
Qed.

Lemma default_history_fresh (l : list AgentSession) i :
  conversation_history (default (Session None []) ((l ++ [Session None []]) !! i))
  = conversation_history (default (Session None []) (l !! i)).
Proof.
  destruct (l !! i) as [o|] eqn:Ho.
  - by rewrite (lookup_app_l_Some _ _ _ _ Ho).
  - destruct ((l ++ [Session None []]) !! i) as [o|] eqn:Ho'; [| done].
    apply snoc_lookup_Some in Ho' as [H | [_ ->]]; [congruence | done].
Qed.

(** [prompt] leaves every history as it is. *)
Lemma history_prompt sid blocks s i :
  history (prompt sid blocks s) i = history s i.
Proof.
  destruct (prompt_shape sid blocks s)
    as (reg' & session & objs' & o & -> & _ & Hcase).
  unfold history, deref. cbn [objects].
  rewrite default_history_set_pending.
  destruct Hcase as [[_ ->] | (_ & _ & _ & -> & _)]; [done |].
  apply default_history_fresh.
Qed.

Lemma steps_keep_calls tr s s' :
  Forall is_step tr -> run s tr = Some s' -> calls s' = calls s.
Proof.
  revert s. induction tr as [|ev tr IH]; intros s Hsteps; cbn [Agent.run].
  - by intros [= <-].
  - apply Forall_cons in Hsteps as [Hev Htr].
    destruct (Agent.step b64decode s ev) as [s1|] eqn:Hstep; [| done].
    intros Hrun. rewrite (IH _ Htr Hrun).
    destruct ev as [| | | t r |]; try done. cbn [Agent.step] in Hstep.
    by destruct (run_task_shape _ _ _ _ Hstep)
      as (co & mc & x' & ref & ms & ks & ls & _ & -> & _).
Qed.

Lemma stream_events_are_steps t chunks : Forall is_step (stream_events t chunks).
Proof.
  unfold stream_events. repeat apply Forall_cons_2; try done.
  apply Forall_app_2; [| by repeat constructor].
  apply Forall_flat_map, Forall_true. intros c. unfold chunk_events.
  destruct c as [content|]; [destruct (truthy content) |];
    by repeat constructor.
Qed.

Lemma increments_chunk_events t chunks :
  increments (resumes t (flat_map (chunk_events t) chunks))
  = chunk_texts chunks.
Proof.
  induction chunks as [|c chunks IH]; [done |].
  cbn [flat_map]. rewrite resumes_app. unfold increments at 1.
  rewrite omap_app. fold (increments (resumes t (flat_map (chunk_events t) chunks))).
  rewrite IH. change (c :: chunks) with ([c] ++ chunks).
  unfold chunk_texts at 2. rewrite omap_app. fold (chunk_texts chunks).
  f_equal. unfold chunk_events.
  destruct c as [content|]; [destruct (truthy content) eqn:Htr |].
  - change [Step t (Next (Some content)); Step t Sent]
      with ([Step t (Next (Some content))] ++ [Step t Sent]).
    rewrite resumes_app, !resumes_step. cbn -[truthy]. by rewrite Htr.
  - rewrite resumes_step. cbn -[truthy]. by rewrite Htr.
  - by rewrite resumes_step.
Qed.

Lemma increments_stream_events t chunks :
  increments (resumes t (stream_events t chunks)) = chunk_texts chunks.
Proof.
  unfold stream_events.
  change ([Step t Start; Step t ChatReturned]
          ++ flat_map (chunk_events t) chunks ++ [Step t StreamEnd])
    with ([Step t Start] ++ [Step t ChatReturned]
          ++ flat_map (chunk_events t) chunks ++ [Step t StreamEnd]).
  rewrite !resumes_app, !resumes_step. unfold increments.
  rewrite !omap_app. cbn [omap app].
  fold (increments (resumes t (flat_map (chunk_events t) chunks))).
  by rewrite increments_chunk_events, app_nil_r.
Qed.

(** X14.  Cancelling works wherever the run stands: when [cancel] is
    called for a session whose [pending_prompt] is a pending task, be it
    not yet started or suspended at any of its awaits, the next run of the
    task ends it cancelled, the call of [prompt] that awaits it answers with
    stop reason [cancelled], and neither a history nor the sink has
    changed. *)
Theorem cancelled_run_answers_cancelled (s : state) (sid : string)
    (session csession t c : nat) (o : AgentSession) (co : coroutine)
    (mc : bool) :
  _sessions s !! sid = Some session ->
  objects s !! session = Some o ->
  pending_prompt o = Some t ->
  tasks s !! t = Some (Pending co mc) ->
  calls s !! c = Some (Call csession t None) ->
  exists s',
    run s [Cancel sid; Step t ThrowCancelled; Return c] = Some s'
    /\ tasks s' !! t = Some Cancelled
    /\ calls s' !! c
       = Some (Call csession t (Some (Ok (StopReason "cancelled"))))
    /\ sink s' = sink s
    /\ conversation_history <$> objects s'
       = conversation_history <$> objects s.
Proof.
  intros Hreg Ho Hp Ht Hc.
  assert (Hlt : t < length (tasks s)) by (by eapply lookup_lt_Some).
  assert (Hlc : c < length (calls s)) by (by eapply lookup_lt_Some).
  cbn [Agent.run Agent.step]. rewrite (cancel_known _ _ _ _ Hreg Ho).
  unfold cancel_pending. rewrite Hp.
  erewrite run_task_cancelled
    by (unfold with_tasks; cbn [tasks];
        by rewrite list_lookup_alter_eq, Ht).
  unfold prompt_resumed, set_task, with_tasks.
  cbn [_sessions objects tasks calls sink log]. rewrite Hc.
  rewrite list_lookup_insert_eq by (by rewrite length_alter).
  eexists. split; [reflexivity |].
  unfold with_calls, with_objects.
  cbn [_sessions objects tasks calls sink log].
  split; [by rewrite list_lookup_insert_eq by (by rewrite length_alter) |].
  split; [by rewrite list_lookup_insert_eq |].
  split; [done | apply history_set_pending].
Qed.

(** The tasks after [prompt]: the pending task of the session is cancelled
    and the new task is added. *)
Lemma prompt_tasks sid blocks s :
  exists session,
    _sessions (prompt sid blocks s) !! sid = Some session
    /\ tasks (prompt sid blocks s)
       = cancel_pending (deref s session) (tasks s)
         ++ [Pending (Created sid blocks) false].
Proof.
  unfold Agent.prompt. destruct (_sessions s !! sid) as [session|] eqn:Hr.
  - exists session. unfold with_calls, with_objects, with_tasks.
    by cbn [_sessions objects tasks calls sink log].
  - exists (length (objects s)).
    unfold with_calls, with_objects, with_tasks, deref.
    cbn [_sessions objects tasks calls sink log].
    rewrite lookup_snoc_length, lookup_insert_eq.
    cbn [default from_option id]. split; [done |].
    by rewrite (lookup_ge_None_2 (objects s)) by lia.
Qed.

(** X15.  What a prompt without content does.  When the extracted text is
    empty and there is no image, the call of [prompt] answers with stop
    reason [end_turn] as soon as its task has run once; nothing is sent to
    the client, no conversation history changes, and the log gains only what
    the extraction logged.  It is not without effect: like every prompt it
    first calls [cancel()] on the task in [pending_prompt] of its session,
    so a run in flight gets its cancellation requested; it adds its task and
    its call, and a session if the id was unknown; and its return leaves
    [pending_prompt] of the session at [None].  Every other task, session
    object and registry entry stays as it was. *)
Theorem empty_prompt_sends_and_appends_nothing (s : state) (sid : string)
    (blocks : list block) :
  no_content (extract blocks) = true ->
  exists s' session,
    run s [Prompt sid blocks; Step (length (tasks s)) Start;
           Return (length (calls s))] = Some s'
    /\ _sessions s' !! sid = Some session
    /\ calls s'
       = calls s ++ [Call session (length (tasks s))
                       (Some (Ok (StopReason "end_turn")))]
    /\ tasks s'
       = cancel_pending (deref s session) (tasks s) ++ [Returned]
    /\ sink s' = sink s
    /\ log s' = log s ++ extract_log b64decode blocks
    /\ (forall i, history s' i = history s i)
    /\ pending_prompt (deref s' session) = None
    /\ (forall i, i <> session -> objects s' !! i = objects s !! i)
    /\ (forall sid', sid' <> sid -> _sessions s' !! sid' = _sessions s !! sid').
Proof.
  intros Hno.
  pose proof (history_prompt sid blocks s) as Hh.
  destruct (prompt_shape sid blocks s)
    as (reg' & session & objs' & o & Heq & Hses & Hcase).
  set (s1 := prompt sid blocks s) in *.
  set (t := length (tasks s)) in *. set (c := length (calls s)) in *.
  assert (Hreg1 : _sessions s1 = reg') by (by rewrite Heq).
  assert (Hobj1 : objects s1 = alter (set_pending (Some t)) session objs')
    by (by rewrite Heq).
  assert (Htasks1 : tasks s1
                    = cancel_pending o (tasks s)
                      ++ [Pending (Created sid blocks) false])
    by (by rewrite Heq).
  assert (Hcalls1 : calls s1 = calls s ++ [Call session t None])
    by (by rewrite Heq).
  assert (Hsink1 : sink s1 = sink s) by (by rewrite Heq).
  assert (Hlog1 : log s1 = log s) by (by rewrite Heq).
  assert (Hses1 : _sessions s1 !! sid = Some session) by (by rewrite Hreg1).
  assert (Hlen : length (cancel_pending o (tasks s)) = t)
    by apply length_cancel_pending.
  assert (Ht : tasks s1 !! t = Some (Pending (Created sid blocks) false)).
  { rewrite Htasks1, <- Hlen. apply lookup_snoc_length. }
  assert (Hc : calls s1 !! c = Some (Call session t None)).
  { rewrite Hcalls1. apply lookup_snoc_length. }
  assert (Hcancel : cancel_pending o (tasks s)
                    = cancel_pending (deref s session) (tasks s)).
  { destruct (prompt_tasks sid blocks s) as (session' & Hs' & Htk).
    fold s1 in Hs', Htk. rewrite Hses1 in Hs'. injection Hs' as <-.
    rewrite Htasks1 in Htk. by apply app_inj_tail in Htk as [-> _]. }
  assert (Hlt : t < length (tasks s1)) by (by eapply lookup_lt_Some).
  assert (Hlc : c < length (calls s1)) by (by eapply lookup_lt_Some).
  cbn [Agent.run Agent.step].
  rewrite (run_task_created _ _ _ _ _ _ Ht).
  rewrite (handle_prompt_known _ _ _ _ _ _ Hses1), Hno.
  unfold prompt_resumed. cbn [_sessions objects tasks calls sink log].
  rewrite Hc, list_lookup_insert_eq by done.
  eexists _, session. split; [reflexivity |].
  unfold with_calls, with_objects.
  cbn [_sessions objects tasks calls sink log].
  split; [done |].
  split; [subst c; by rewrite Hcalls1, (insert_snoc (A:=call)) |].
  split.
  { rewrite Htasks1, <- Hlen, (insert_snoc (A:=task)). by rewrite Hcancel. }
  split; [done |]. split; [by rewrite Hlog1 |].
  split.
  { intros i. rewrite <- Hh. unfold history, deref. cbn [objects].
    apply default_history_set_pending. }
  split.
  { unfold deref. cbn [objects]. rewrite list_lookup_alter_eq.
    by destruct (objects s1 !! session). }
  split.
  { intros i Hi. rewrite list_lookup_alter_ne, Hobj1 by done.
    rewrite list_lookup_alter_ne by done.
    destruct Hcase as [[_ ->] | (_ & _ & Hs & -> & _)]; [done |].
    subst session.
    destruct (decide (i < length (objects s))) as [Hlti | Hge].
    - by rewrite lookup_app_l.
    - rewrite !lookup_ge_None_2; [done | lia |].
      rewrite length_app. cbn. lia. }
  intros sid' Hne. rewrite Hreg1.
  destruct Hcase as [[-> _] | (_ & -> & _)]; [done |].
  by rewrite lookup_insert_ne.
Qed.

(** X16.  A whole turn, from any reachable state: a prompt with content,
    whose backend call streams finitely many chunks and whose sends all
    succeed, is answered with stop reason [end_turn]; by then the session
    (created on the way if the id was unknown) has gained the user message
    and the assistant message made of the non-empty chunk contents, these
    contents have been sent to the client in order under the session id, and
    [pending_prompt] is cleared. *)
Theorem streamed_prompt_ends_the_turn (tr : list event) (s : state)
    (sid : string) (blocks : list block) (chunks : list chunk) :
  run init tr = Some s ->
  no_content (extract blocks) = false ->
  exists s' session,
    run s (Prompt sid blocks
           :: stream_events (length (tasks s)) chunks
           ++ [Return (length (calls s))]) = Some s'
    /\ _sessions s' !! sid = Some session
    /\ calls s' !! length (calls s)
       = Some (Call session (length (tasks s))
                 (Some (Ok (StopReason "end_turn"))))
    /\ history s' session
       = history s session
         ++ [user_message (extract blocks);
             Message "assistant" (join (chunk_texts chunks)) None]
    /\ sink s' = sink s ++ (pair sid <$> chunk_texts chunks)
    /\ pending_prompt (deref s' session) = None.
Proof.
  intros Hreach Hno.
  pose proof (wf_prompt sid blocks s (wf_run _ _ _ wf_init Hreach))
    as [Hwreg _ _ _ _].
  pose proof (history_prompt sid blocks s) as Hh.
  assert (Hsink : sink (prompt sid blocks s) = sink s).
  { by destruct (prompt_shape sid blocks s) as (? & ? & ? & ? & -> & _). }
  assert (exists session,
            _sessions (prompt sid blocks s) !! sid = Some session
            /\ tasks (prompt sid blocks s) !! length (tasks s)
               = Some (Pending (Created sid blocks) false)
            /\ calls (prompt sid blocks s) !! length (calls s)
               = Some (Call session (length (tasks s)) None))
    as (session & Hses & Ht & Hc).
  { destruct (prompt_shape sid blocks s)
      as (reg' & session & objs' & o & -> & Hses & _).
    exists session. cbn [_sessions tasks calls].
    split; [done |]. split; [| apply lookup_snoc_length].
    rewrite <- (length_cancel_pending o (tasks s)).
    apply lookup_snoc_length. }
  cbn [Agent.run Agent.step].
  set (s1 := prompt sid blocks s) in *.
  set (t := length (tasks s)) in *. set (c := length (calls s)) in *.
  destruct (lookup_lt_is_Some_2 (objects s1) session (Hwreg _ _ Hses))
    as (o1 & Ho1).
  destruct (finite_stream_completes b64decode chunks s1 t sid session blocks
              Ht Hses Hno) as (Hund & Hend & s2 & Hrun).
  destruct (undisturbed_run_invariant b64decode _ _ _ _ _ _ _ _ _
              Ht Hses Ho1 Hund Hrun)
    as [_ Hreg2 (o2 & Ho2 & Hhist) Hsink2 Hinv_end _].
  destruct (run_outcome b64decode _ _ _ _ _ _ _ _ _ Ht Hses Ho1 Hund Hrun)
    as [_ Hret].
  specialize (Hret Hend). destruct (Hinv_end Hend) as (Hfail & Hstart & _).
  pose proof (steps_keep_calls _ _ _ (stream_events_are_steps t chunks) Hrun)
    as Hcalls.
  rewrite run_app, Hrun. cbn [mbind option_bind Agent.run Agent.step].
  unfold prompt_resumed. rewrite Hcalls, Hc, Hret.
  eexists _, session. split; [reflexivity |].
  unfold with_calls, with_objects.
  cbn [_sessions objects tasks calls sink log].
  split; [done |]. split.
  { rewrite Hcalls. apply list_lookup_insert_eq. by eapply lookup_lt_Some. }
  split; [| split].
  - unfold history, deref. cbn [objects].
    rewrite default_history_set_pending, Ho2. cbn [default from_option id].
    rewrite Hhist. unfold expected_history.
    rewrite (bool_decide_true _ Hstart), (bool_decide_true _ Hend), Hno.
    cbn [andb negb]. rewrite increments_stream_events.
    fold s1. by rewrite Hh.
  - rewrite Hsink2. unfold expected_sink.
    rewrite Hfail, increments_stream_events, app_nil_r. by rewrite Hsink.
  - unfold deref. cbn [objects]. rewrite list_lookup_alter_eq, Ho2. done.
Qed.

(** X17.  A prompt for the id [new_session] has just handed out works on
    the session object that [new_session] registered: no second object is
    created, the registry is left alone, no task is cancelled, and the new
    task is that session's [pending_prompt]. *)
Theorem prompt_after_new_session_uses_that_session (s : state)
    (token : string) (blocks : list block) :
  _sessions (new_session token s) !! token = Some (length (objects s))
  /\ _sessions (prompt token blocks (new_session token s))
     = _sessions (new_session token s)
  /\ objects (prompt token blocks (new_session token s))
     = objects s ++ [Session (Some (length (tasks s))) []]
  /\ tasks (prompt token blocks (new_session token s))
     = tasks s ++ [Pending (Created token blocks) false]
  /\ calls (prompt token blocks (new_session token s))
     = calls s ++ [Call (length (objects s)) (length (tasks s)) None].
Proof.
  assert (Hreg : _sessions (new_session token s) !! token
                 = Some (length (objects s))).
  { unfold new_session, logging. cbn [_sessions].
    by rewrite lookup_insert_eq. }
  assert (Ho : objects (new_session token s) !! length (objects s)
               = Some (Session None [])).
  { unfold new_session, logging. cbn [objects]. apply lookup_snoc_length. }
  split; [done |]. rewrite (prompt_known _ _ _ _ _ Hreg Ho).
  unfold new_session, logging, cancel_pending.
  cbn [_sessions objects tasks calls sink log pending_prompt
       conversation_history].
  split; [done |]. split; [| done].
  by rewrite (insert_snoc (A:=AgentSession)).
Qed.

End WithDecoder.

(** **** The theorems at sample executions *)

Lemma references_never_dangle_witness :
  well_formed (state_after overlap_trace).
Proof.
  apply (references_never_dangle Py.b64decode overlap_trace).
  vm_compute. reflexivity.
Defined.

Lemma first_run_finds_its_session_witness :
  exists session s',
    _sessions (state_after opening) !! "s1" = Some session
    /\ is_Some (objects (state_after opening) !! session)
    /\ Agent.step Py.b64decode (state_after opening) (Step 0 Start) = Some s'
    /\ tasks s' !! 0
       = Some (if no_content
                    (_extract_content_from_prompt Py.b64decode
                       [text_block "hello"])
               then Returned
               else Pending (Suspended "s1" session AwaitChat) false).
Proof.
  apply (first_run_finds_its_session Py.b64decode opening).
  - vm_compute. reflexivity.
  - vm_compute. reflexivity.
Defined.

Lemma history_sink_and_log_only_grow_witness :
  Agent.run Py.b64decode (state_after opening) streaming
  = Some (state_after (opening ++ streaming))
  /\ sink (state_after opening)
     `prefix_of` sink (state_after (opening ++ streaming)).
Proof.
  assert (Hrun : Agent.run Py.b64decode (state_after opening) streaming
                 = Some (state_after (opening ++ streaming)))
    by (vm_compute; reflexivity).
  exact (conj Hrun
           (proj1 (proj2 (history_sink_and_log_only_grow Py.b64decode
                            _ _ _ Hrun)))).
Defined.

Lemma finished_tasks_and_calls_are_final_witness :
  Agent.run Py.b64decode (state_after quiet_run) resubmission
  = Some (state_after (quiet_run ++ resubmission))
  /\ tasks (state_after (quiet_run ++ resubmission)) !! 0 = Some Returned.
Proof.
  assert (Hrun : Agent.run Py.b64decode (state_after quiet_run) resubmission
                 = Some (state_after (quiet_run ++ resubmission)))
    by (vm_compute; reflexivity).
  assert (Ht : tasks (state_after quiet_run) !! 0 = Some Returned)
    by (vm_compute; reflexivity).
  exact (conj Hrun
           (proj1 (finished_tasks_and_calls_are_final Py.b64decode
                     _ _ _ Hrun) 0 Returned Ht eq_refl)).
Defined.

Lemma call_outcome_is_the_end_of_its_task_witness :
  exists x, tasks (state_after failure_trace) !! 0 = Some x
            /\ outcome_of x = Some (Ok (StopReason "end_turn")).
Proof.
  apply (call_outcome_is_the_end_of_its_task Py.b64decode failure_trace
           (state_after failure_trace) 0
           (Call 0 0 (Some (Ok (StopReason "end_turn"))))).
  - vm_compute. reflexivity.
  - vm_compute. reflexivity.
  - reflexivity.
Defined.

Lemma task_step_stays_in_its_session_witness :
  Agent.step Py.b64decode (state_after superseded_trace) (Step 1 ChatReturned)
  = Some (state_after (superseded_trace ++ [Step 1 ChatReturned]))
  /\ pending_prompt
     <$> objects (state_after (superseded_trace ++ [Step 1 ChatReturned]))
     = pending_prompt <$> objects (state_after superseded_trace).
Proof.
  assert (Hstep : Agent.step Py.b64decode (state_after superseded_trace)
                    (Step 1 ChatReturned)
                  = Some (state_after
                            (superseded_trace ++ [Step 1 ChatReturned])))
    by (vm_compute; reflexivity).
  assert (Ht : tasks (state_after superseded_trace) !! 1
               = Some (Pending (Suspended "s1" 0 AwaitChat) false))
    by (vm_compute; reflexivity).
  exact (conj Hstep
           (proj1 (proj2 (proj2 (proj2
              (task_step_stays_in_its_session Py.b64decode _ _ _ _ _ _
                 Ht Hstep)))))).
Defined.

Lemma cancelled_run_answers_cancelled_witness :
  exists s',
    Agent.run Py.b64decode (state_after cancelled_trace)
      [Cancel "s1"; Step 0 ThrowCancelled; Return 0] = Some s'
    /\ tasks s' !! 0 = Some Cancelled
    /\ calls s' !! 0 = Some (Call 0 0 (Some (Ok (StopReason "cancelled"))))
    /\ sink s' = sink (state_after cancelled_trace)
    /\ conversation_history <$> objects s'
       = conversation_history <$> objects (state_after cancelled_trace).
Proof.
  apply (cancelled_run_answers_cancelled Py.b64decode
           (state_after cancelled_trace) "s1" 0 0 0 0
           (Session (Some 0) [Message "user" "hello" None])
           (Suspended "s1" 0 (AwaitNext "")) false);
    vm_compute; reflexivity.
Defined.

Lemma empty_prompt_sends_and_appends_nothing_witness :
  no_content
    (_extract_content_from_prompt b64decode [text_block "  "; image_dict ""])
  = true
  /\ exists s' session,
       Agent.run b64decode (state_after cancelled_trace)
         [Prompt "s1" [text_block "  "; image_dict ""];
          Step (length (tasks (state_after cancelled_trace))) Start;
          Return (length (calls (state_after cancelled_trace)))]
       = Some s'
       /\ tasks s'
          = cancel_pending (deref (state_after cancelled_trace) session)
              (tasks (state_after cancelled_trace))
            ++ [Returned]
       /\ sink s' = sink (state_after cancelled_trace)
       /\ pending_prompt (deref s' session) = None.
Proof.
  assert (Hno : no_content
                  (_extract_content_from_prompt b64decode
                     [text_block "  "; image_dict ""]) = true)
    by (vm_compute; reflexivity).
  destruct (empty_prompt_sends_and_appends_nothing b64decode
              (state_after cancelled_trace) "s1"
              [text_block "  "; image_dict ""] Hno)
    as (s' & session & Hrun & _ & _ & Ht & Hk & _ & _ & Hp & _).
  exact (conj Hno
           (ex_intro _ s'
              (ex_intro _ session (conj Hrun (conj Ht (conj Hk Hp)))))).
Defined.

(** An empty prompt for a session with a run in flight: the run is
    cancelled all the same. *)
Example empty_prompt_cancels_the_run_in_flight :
  tasks (state_after cancelled_trace)
  = [Pending (Suspended "s1" 0 (AwaitNext "")) false]
  /\ tasks (state_after
              (cancelled_trace
               ++ [Prompt "s1" [text_block "  "]; Step 1 Start; Return 1]))
     = [Pending (Suspended "s1" 0 (AwaitNext "")) true; Returned].
Proof. split; vm_compute; reflexivity. Qed.

Lemma streamed_prompt_ends_the_turn_witness :
  exists s' session,
    Agent.run Py.b64decode (state_after [NewSession "s1"])
      (Prompt "s1" [text_block "hello"]
       :: stream_events (length (tasks (state_after [NewSession "s1"])))
            sample_chunks
       ++ [Return (length (calls (state_after [NewSession "s1"])))])
    = Some s'
    /\ _sessions s' !! "s1" = Some session
    /\ calls s' !! length (calls (state_after [NewSession "s1"]))
       = Some (Call session
                 (length (tasks (state_after [NewSession "s1"])))
                 (Some (Ok (StopReason "end_turn"))))
    /\ history s' session
       = history (state_after [NewSession "s1"]) session
         ++ [user_message
               (_extract_content_from_prompt Py.b64decode
                  [text_block "hello"]);
             Message "assistant" (join (chunk_texts sample_chunks)) None]
    /\ sink s'
       = sink (state_after [NewSession "s1"])
         ++ (pair "s1" <$> chunk_texts sample_chunks)
    /\ pending_prompt (deref s' session) = None.
Proof.
  apply (streamed_prompt_ends_the_turn Py.b64decode [NewSession "s1"]
           (state_after [NewSession "s1"]) "s1" [text_block "hello"]
           sample_chunks).
  - vm_compute. reflexivity.
  - vm_compute. reflexivity.
Defined.

End AgentMore.

(** * Runs in executions where anything may happen in between *)
Module RunFacts.

Import Extractor Agent AgentFacts AgentMore.

Lemma consistent_cancel_task sid session blocks X x rs :
  consistent sid session blocks X x rs ->
  consistent sid session blocks X (cancel_task x) rs.
Proof. by destruct x as [[] ?| | |]. Qed.

Lemma resumes_cons_other t ev tr :
  runs_task t ev = false -> resumes t (ev :: tr) = resumes t tr.
Proof.
  unfold resumes. destruct ev; cbn; try done.
  intros H%bool_decide_eq_false. by rewrite decide_False.
Qed.

Lemma resumes_cons_task t r tr :
  resumes t (Step t r :: tr) = r :: resumes t tr.
Proof. unfold resumes. cbn. by rewrite decide_True. Qed.

Lemma runs_task_true t ev : runs_task t ev = true -> exists r, ev = Step t r.
Proof.
  destruct ev; cbn; try done. intros ->%bool_decide_eq_true. eauto.
Qed.

Lemma runs_task_step t r : runs_task t (Step t r) = true.
Proof. cbn. by apply bool_decide_eq_true. Qed.

(** **** What a turn appended and delivered *)

Lemma appended_same i s ev s' :
  objects s' = objects s -> appended i (Turn s ev s') = [].
Proof.
  intros H. unfold appended, history, deref. cbn [before after].
  rewrite H. apply drop_all.
Qed.

Lemma appended_append session m s ev s' o :
  objects s !! session = Some o ->
  objects s' = alter (history_append m) session (objects s) ->
  appended session (Turn s ev s') = [m]
  /\ forall i, i <> session -> appended i (Turn s ev s') = [].
Proof.
  intros Ho H. unfold appended, history, deref. cbn [before after].
  rewrite H. split.
  - rewrite list_lookup_alter_eq, Ho. cbn. by rewrite drop_app_length.
  - intros i Hi. rewrite list_lookup_alter_ne by done. apply drop_all.
Qed.

Lemma delivered_app s ev s' d :
  sink s' = sink s ++ d -> delivered (Turn s ev s') = d.
Proof.
  intros H. unfold delivered. cbn [before after].
  by rewrite H, drop_app_length.
Qed.

Section WithDecoder.

Variable b64decode : string -> result bytes.

Local Abbreviation step := (step b64decode).
Local Abbreviation run := (run b64decode).
Local Abbreviation extract := (_extract_content_from_prompt b64decode).
Local Abbreviation turns := (turns b64decode).
Local Abbreviation turns_of := (turns_of b64decode).
Local Abbreviation appended_by := (appended_by b64decode).
Local Abbreviation delivered_by := (delivered_by b64decode).

(** **** The turns of an execution *)

Lemma turns_cons s ev tr s1 :
  step s ev = Some s1 -> turns s (ev :: tr) = Turn s ev s1 :: turns s1 tr.
Proof. intros H. cbn [Agent.turns]. by rewrite H. Qed.

Lemma turns_of_cons_task t s r tr s1 :
  step s (Step t r) = Some s1 ->
  turns_of t s (Step t r :: tr) = Turn s (Step t r) s1 :: turns_of t s1 tr.
Proof.
  intros H. unfold Agent.turns_of. rewrite (turns_cons _ _ _ _ H).
  rewrite filter_cons. cbn [happened].
  by rewrite decide_True by apply runs_task_step.
Qed.

Lemma turns_of_cons_other t s ev tr s1 :
  runs_task t ev = false -> step s ev = Some s1 ->
  turns_of t s (ev :: tr) = turns_of t s1 tr.
Proof.
  intros Hev H. unfold Agent.turns_of. rewrite (turns_cons _ _ _ _ H).
  rewrite filter_cons. cbn [happened].
  by rewrite decide_False by (by rewrite Hev).
Qed.

(** Every turn of an execution is a turn of the event loop. *)
Lemma elem_of_turns s tr x :
  x ∈ turns s tr -> step (before x) (happened x) = Some (after x).
Proof.
  revert s. induction tr as [|ev tr IH]; intros s; cbn [Agent.turns].
  - by intros ?%elem_of_nil.
  - destruct (Agent.step b64decode s ev) as [s1|] eqn:Hstep;
      [| by intros ?%elem_of_nil].
    intros [-> | H]%elem_of_cons; [done | by eapply IH].
Qed.


(** A history only grows in a turn, so it is what it was followed by what
    the turn appended. *)
Lemma history_turn s ev s' i :
  step s ev = Some s' ->
  history s' i = history s i ++ appended i (Turn s ev s').
Proof.
  intros Hstep. unfold appended. cbn [before after].
  assert (Hp : history s i `prefix_of` history s' i).
  { unfold history, deref.
    destruct (objects s !! i) as [o|] eqn:Ho; [| apply prefix_nil].
    destruct (step_frame _ _ _ _ Hstep) as (_ & _ & Hobj & _).
    destruct (Hobj _ _ Ho) as (o' & -> & Hpre). done. }
  destruct Hp as (k & ->). by rewrite drop_app_length.
Qed.

(** Only the runs of tasks append: a request ([new_session], [prompt],
    [cancel]) and the return of a call leave every history as it is. *)
Lemma request_appends_nothing s ev s' i :
  step s ev = Some s' -> ~ is_step ev -> appended i (Turn s ev s') = [].
Proof.
  intros Hstep Hns.
  assert (H : history s' i = history s i);
    [| unfold appended; cbn [before after]; rewrite H; apply drop_all].
  destruct ev as [token | sid blocks | sid | t r | c];
    cbn [Agent.step] in Hstep; [| | | by destruct Hns |].
  - injection Hstep as <-. unfold new_session, logging, history, deref.
    cbn [objects]. apply default_history_fresh.
  - injection Hstep as <-. apply history_prompt.
  - injection Hstep as <-. destruct (cancel_shape sid s) as (o & ->). done.
  - destruct (prompt_resumed_shape _ _ _ Hstep)
      as (session & t & x & out & ls & _ & _ & _ & ->).
    unfold history, deref. cbn [objects]. apply default_history_set_pending.
Qed.

Lemma history_run tr s s' i :
  run s tr = Some s' ->
  history s' i = history s i ++ flat_map (appended i) (turns s tr).
Proof.
  revert s. induction tr as [|ev tr IH]; intros s; cbn [Agent.run Agent.turns].
  - intros [= <-]. cbn. by rewrite app_nil_r.
  - destruct (Agent.step b64decode s ev) as [s1|] eqn:Hstep; [| done].
    intros Hrun. cbn [flat_map]. rewrite (IH _ Hrun), (history_turn _ _ _ i Hstep).
    by rewrite (assoc_L (++)).
Qed.

(** The sink only grows in a turn, so it is what it was followed by what the
    turn delivered. *)
Lemma sink_turn s ev s' :
  step s ev = Some s' -> sink s' = sink s ++ delivered (Turn s ev s').
Proof.
  intros Hstep. unfold delivered. cbn [before after].
  destruct (step_frame _ _ _ _ Hstep) as (_ & _ & _ & (k & ->) & _).
  by rewrite drop_app_length.
Qed.

Lemma sink_run tr s s' :
  run s tr = Some s' -> sink s' = sink s ++ flat_map delivered (turns s tr).
Proof.
  revert s. induction tr as [|ev tr IH]; intros s; cbn [Agent.run Agent.turns].
  - intros [= <-]. cbn. by rewrite app_nil_r.
  - destruct (Agent.step b64decode s ev) as [s1|] eqn:Hstep; [| done].
    intros Hrun. cbn [flat_map].
    rewrite (IH _ Hrun), (sink_turn _ _ _ Hstep). by rewrite (assoc_L (++)).
Qed.


(** What a turn that is not a run of task [t] does to it: nothing, or the
    request of a cancellation. *)
Lemma other_turn_task t s ev s' x :
  runs_task t ev = false -> step s ev = Some s' -> tasks s !! t = Some x ->
  tasks s' !! t = Some x \/ tasks s' !! t = Some (cancel_task x).
Proof.
  intros Hev Hstep Hx.
  destruct ev as [token | sid blocks | sid | t' r | c];
    cbn [Agent.step] in Hstep.
  - injection Hstep as <-. by left.
  - injection Hstep as <-.
    destruct (prompt_shape sid blocks s)
      as (reg' & session & objs' & o & -> & _).
    cbn [tasks].
    destruct (cancel_pending_Some o _ _ _ Hx) as (x' & Hx' & [-> | ->]);
      [left | right]; by apply lookup_app_l_Some.
  - injection Hstep as <-. destruct (cancel_shape sid s) as (o & ->).
    unfold with_tasks. cbn [tasks].
    destruct (cancel_pending_Some o _ _ _ Hx) as (x' & Hx' & [-> | ->]);
      eauto.
  - cbn in Hev. apply bool_decide_eq_false in Hev.
    destruct (run_task_shape _ _ _ _ _ Hstep)
      as (co & mc & x' & ref & ms & ks & ls & _ & -> & _).
    cbn [tasks]. left. by rewrite list_lookup_insert_ne.
  - destruct (prompt_resumed_shape _ _ _ Hstep)
      as (session & t0 & x0 & out & ls & _ & _ & _ & ->).
    by left.
Qed.

(** **** The invariant of a run *)

Section Run.

Variables (t : nat) (sid : string) (blocks : list block).

Local Abbreviation X := (extract blocks).
Local Abbreviation E := (expected_history [] (extract blocks)).
Local Abbreviation D := (expected_sink [] sid).
Local Abbreviation Inv := (run_turns_invariant t sid blocks (extract blocks)).

Lemma rt_created session s mc :
  tasks s !! t = Some (Pending (Created sid blocks) mc) -> Inv session s [] [].
Proof.
  intros Hx.
  assert (Hnil : forall r : resume, r ∉ []) by (intros r; apply not_elem_of_nil).
  split.
  - by eexists.
  - done.
  - by intros x ?%elem_of_nil.
  - unfold expected_history.
    by rewrite !bool_decide_eq_false_2 by apply Hnil.
  - done.
  - done.
  - intros H. by destruct (Hnil _ H).
  - done.
Qed.

Lemma rt_other session s s' rs T ev :
  Inv session s rs T -> runs_task t ev = false -> step s ev = Some s' ->
  Inv session s' rs T.
Proof.
  intros [(x & Hx & Hcons) Hev Hst Ha He Hd Hend Hfail] Hnot Hstep.
  split; try done.
  destruct (other_turn_task _ _ _ _ _ Hnot Hstep Hx) as [H | H];
    eexists; (split; [exact H |]); [done |].
  by apply consistent_cancel_task.
Qed.

Lemma rt_extend session s s' rs T r x' a d :
  Inv session s rs T ->
  tasks s' !! t = Some x' ->
  consistent sid session blocks X x' (rs ++ [r]) ->
  (r = Start -> _sessions s !! sid = Some session) ->
  (objects s' = objects s /\ a = []
   \/ exists m o, objects s !! session = Some o
                  /\ objects s' = alter (history_append m) session (objects s)
                  /\ a = [m]) ->
  sink s' = sink s ++ d ->
  E (rs ++ [r]) = E rs ++ a ->
  D (rs ++ [r]) = D rs ++ d ->
  (StreamEnd ∈ rs ++ [r] ->
   failure (rs ++ [r]) = None /\ (Start ∈ rs ++ [r])
   /\ no_content X = false /\ (ThrowCancelled ∉ rs ++ [r])) ->
  (failure (rs ++ [r]) <> None ->
   (Start ∈ rs ++ [r]) /\ no_content X = false /\ (StreamEnd ∉ rs ++ [r])) ->
  Inv session s' (rs ++ [r]) (T ++ [Turn s (Step t r) s']).
Proof.
  intros [_ Hev Hst Ha He Hd _ _] Hx' Hcons Hstart Hobj Hsink HE HD Hend
    Hfail.
  assert (Happ : appended session (Turn s (Step t r) s') = a
                 /\ forall i, i <> session ->
                      appended i (Turn s (Step t r) s') = []).
  { destruct Hobj as [[Hsame ->] | (m & o & Ho & Halt & ->)].
    - split; [by apply appended_same |]. intros i _. by apply appended_same.
    - by eapply appended_append. }
  destruct Happ as [Happ Hels].
  split; try done.
  - by eexists.
  - by rewrite !fmap_app, Hev.
  - intros x [Hin | ->%list_elem_of_singleton]%elem_of_app; [by apply Hst |].
    cbn [happened before]. intros [= ->]. by apply Hstart.
  - rewrite flat_map_app, Ha. cbn [flat_map]. by rewrite Happ, app_nil_r, HE.
  - intros i Hi. rewrite flat_map_app, (He i Hi). cbn [flat_map].
    by rewrite (Hels i Hi).
  - rewrite flat_map_app, Hd. cbn [flat_map].
    by rewrite (delivered_app _ _ _ _ Hsink), app_nil_r, HD.
Qed.

Lemma rt_task_step session0 s s' rs T r :
  Inv session0 s rs T -> well_formed s -> step s (Step t r) = Some s' ->
  exists session, Inv session s' (rs ++ [r]) (T ++ [Turn s (Step t r) s']).
Proof.
  intros Hinv Hwf Hstep.
  pose proof Hinv as [(x & Hx & Hcons) Hev Hst Ha He Hd Hend Hfail].
  cbn [Agent.step] in Hstep.
  assert (Hlt : t < length (tasks s)) by (by eapply lookup_lt_Some).
  destruct x as [co mc | | | e];
    try (unfold run_task in Hstep; rewrite Hx in Hstep; discriminate).
  assert (Hnoend : StreamEnd ∉ rs).
  { destruct co; cbn in Hcons; [| tauto].
    destruct Hcons as (_ & _ & ->). apply not_elem_of_nil. }
  assert (Hnocancel : ThrowCancelled ∉ rs).
  { destruct co; cbn in Hcons; [| tauto].
    destruct Hcons as (_ & _ & ->). apply not_elem_of_nil. }
  destruct mc.
  { (* CancelledError is thrown in *)
    rewrite (run_task_cancelled _ _ _ _ _ Hx) in Hstep.
    destruct r; try discriminate. injection Hstep as <-.
    exists session0.
    apply (rt_extend session0 s _ rs T ThrowCancelled Cancelled [] []);
      unfold set_task, with_tasks; cbn [tasks _sessions objects sink].
    - done.
    - by rewrite list_lookup_insert_eq.
    - cbn. rewrite elem_of_snoc. by right.
    - done.
    - by left.
    - by rewrite app_nil_r.
    - by rewrite app_nil_r, (expected_history_keep b64decode sid).
    - rewrite app_nil_r, expected_sink_keep; [done | done | by left].
    - rewrite elem_of_snoc. intros [H | H]; [by destruct Hnoend | done].
    - rewrite failure_snoc, !elem_of_snoc. cbn.
      destruct (failure rs) eqn:Hf; [| done]. intros _.
      destruct Hfail as (? & ? & ?); [done |]. intuition congruence. }
  destruct co as [sid' blocks' | sid' session' point]; cbn in Hcons.
  { (* the first step *)
    destruct Hcons as (-> & -> & ->).
    assert (T = []) as -> by (by destruct T).
    rewrite (run_task_created _ _ _ _ _ _ Hx) in Hstep.
    destruct r; try discriminate. injection Hstep as <-.
    destruct Hwf as [Hwreg Hwcr _ _ _].
    destruct (Hwcr _ _ _ _ Hx) as (session & Hreg).
    destruct (lookup_lt_is_Some_2 _ _ (Hwreg _ _ Hreg)) as (o & Ho).
    rewrite (handle_prompt_known _ _ _ _ _ _ Hreg).
    assert (Hin : Start ∈ [Start]) by (by apply list_elem_of_singleton).
    assert (Hni : StreamEnd ∉ [Start]) by (by rewrite list_elem_of_singleton).
    assert (Hnc : ThrowCancelled ∉ [Start])
      by (by rewrite list_elem_of_singleton).
    exists session. pose proof (rt_created session s false Hx) as Hinv'.
    change [Start] with ([] ++ [Start]) in Hin, Hni, Hnc.
    assert (HE : E ([] ++ [Start])
                 = E [] ++ (if no_content X then [] else [user_message X])).
    { cbn [app]. rewrite expected_history_start. unfold expected_history.
      by rewrite !bool_decide_eq_false_2 by apply not_elem_of_nil. }
    destruct (no_content X) eqn:Hno.
    - apply (rt_extend session s _ [] [] Start Returned [] []);
        cbn [tasks _sessions objects sink].
      + exact Hinv'.
      + by rewrite list_lookup_insert_eq.
      + exact Hnc.
      + done.
      + by left.
      + by rewrite app_nil_r.
      + exact HE.
      + done.
      + intros H. by destruct (Hni H).
      + done.
    - apply (rt_extend session s _ [] [] Start
               (Pending (Suspended sid session AwaitChat) false)
               [user_message X] []);
        cbn [tasks _sessions objects sink].
      + exact Hinv'.
      + by rewrite list_lookup_insert_eq.
      + cbn. by rewrite Hno.
      + done.
      + right. by exists (user_message X), o.
      + by rewrite app_nil_r.
      + exact HE.
      + done.
      + intros H. by destruct (Hni H).
      + done. }
  (* a later step *)
  destruct Hcons as (-> & -> & Hno & Hstart & _ & _ & Hpoint).
  rewrite (run_task_suspended _ _ _ _ _ _ _ Hx) in Hstep.
  destruct Hwf as [_ _ Hwsu _ _].
  destruct (lookup_lt_is_Some_2 _ _ (Hwsu _ _ _ _ _ Hx)) as (o & Ho).
  assert (Hstart' : forall r', Start ∈ rs ++ [r'])
    by (intros r'; rewrite elem_of_snoc; by left).
  assert (Hjoin : forall c, join (increments rs ++ [c])
                             = join (increments rs) +:+ c).
  { intros c. rewrite ExtractorFacts.join_app. cbn.
    by rewrite ExtractorFacts.append_empty_r. }
  exists session0.
  destruct point as [| fr | fr |], r as [| | [content|] | | | e |];
    cbn in Hstep; try discriminate;
    try destruct (truthy content) eqn:Htruthy;
    injection Hstep as <-;
    unfold handle_prompt_except, set_task, with_tasks, with_objects,
      session_update, logging.
  all: lazymatch goal with
       | Hp : failure _ <> None |- _ =>
         eapply (rt_extend session0 s _ rs T _ _ [] [])
       | |- context [Step _ StreamEnd] =>
         eapply (rt_extend session0 s _ rs T _ _
                   [Message "assistant" fr None] [])
       | |- context [Step _ (Throw ?e)] =>
         eapply (rt_extend session0 s _ rs T _ _ [] [(sid, error_notice e)])
       | Htr : truthy ?c = true |- context [Step _ (Next (Some ?c))] =>
         eapply (rt_extend session0 s _ rs T _ _ [] [(sid, c)])
       | |- _ => eapply (rt_extend session0 s _ rs T _ _ [] [])
       end;
       cbn [tasks _sessions objects sink].
  all: try exact Hinv.
  all: try (by rewrite list_lookup_insert_eq).
  all: try (intros [=]).
  all: try (left; split; reflexivity).
  all: try (right; exists (Message "assistant" fr None), o;
            split; [exact Ho |]; split; reflexivity).
  all: try (by rewrite app_nil_r).
  all: try reflexivity.
  (* the task *)
  all: try (cbn [consistent];
            rewrite ?increments_snoc, ?failure_snoc, ?elem_of_snoc; cbn;
            rewrite ?Htruthy, ?app_nil_r, ?Hjoin;
            try (destruct Hpoint as [Hp Hp']; try rewrite Hp);
            try destruct (failure rs);
            by intuition (first [congruence | discriminate])).
  (* the history *)
  all: try (rewrite app_nil_r;
            by rewrite (expected_history_keep b64decode sid)).
  all: try (destruct Hpoint as [-> _]; by rewrite expected_history_end).
  (* the sink *)
  all: try (first [ by rewrite expected_sink_next by tauto
                  | by rewrite expected_sink_throw by tauto
                  | rewrite app_nil_r, expected_sink_keep;
                    [done | by (cbn; rewrite ?Htruthy) | cbn; tauto] ]).
  (* the end of the stream and the failure *)
  all: rewrite ?failure_snoc, ?elem_of_snoc; cbn;
       try destruct (failure rs);
       try (intuition (first [congruence | discriminate])).
Qed.

Lemma rt_run tr s s' session0 rs T :
  Inv session0 s rs T -> well_formed s -> run s tr = Some s' ->
  exists session, Inv session s' (rs ++ resumes t tr) (T ++ turns_of t s tr).
Proof.
  revert s session0 rs T.
  induction tr as [|ev tr IH]; intros s session0 rs T Hinv Hwf Hrun.
  - injection Hrun as <-. exists session0. by rewrite !app_nil_r.
  - cbn [Agent.run] in Hrun.
    destruct (Agent.step b64decode s ev) as [s1|] eqn:Hstep; [| done].
    pose proof (wf_step _ _ _ _ Hwf Hstep) as Hwf1.
    destruct (runs_task t ev) eqn:Hev.
    + destruct (runs_task_true _ _ Hev) as (r & ->).
      rewrite resumes_cons_task, (turns_of_cons_task _ _ _ _ _ Hstep).
      destruct (rt_task_step _ _ _ _ _ _ Hinv Hwf Hstep) as (session1 & Hinv1).
      destruct (IH _ _ _ _ Hinv1 Hwf1 Hrun) as (session & H).
      exists session. by rewrite <- !(assoc_L (++)) in H.
    + rewrite (resumes_cons_other _ _ _ Hev),
        (turns_of_cons_other _ _ _ _ _ Hev Hstep).
      eapply IH; [| done | done]. by eapply rt_other.
Qed.

End Run.

(** The invariant at the end of any execution that began with the task not
    yet started. *)
Lemma run_turns (s0 s : state) (tr : list event) (t : nat) (sid : string)
    (blocks : list block) (mc : bool) :
  well_formed s0 ->
  tasks s0 !! t = Some (Pending (Created sid blocks) mc) ->
  run s0 tr = Some s ->
  exists session,
    run_turns_invariant t sid blocks (extract blocks) session s
      (resumes t tr) (turns_of t s0 tr).
Proof.
  intros Hwf Hx Hrun.
  destruct (rt_run t sid blocks tr s0 s 0 [] []
              (rt_created t sid blocks 0 s0 mc Hx) Hwf Hrun) as (session & H).
  by exists session.
Qed.

(** How a run ended, read off what its task was handed. *)
Lemma run_end (session : nat) (s : state) (t : nat) (sid : string)
    (blocks : list block) (rs : list resume) (T : list turn) :
  run_turns_invariant t sid blocks (extract blocks) session s rs T ->
  (tasks s !! t = Some Cancelled <-> ThrowCancelled ∈ rs)
  /\ (StreamEnd ∈ rs -> tasks s !! t = Some Returned).
Proof.
  intros [(x & Hx' & Hcons) _ _ _ _ _ Hend _].
  assert (Hc : x = Cancelled <-> ThrowCancelled ∈ rs).
  { destruct x as [[] ?| | |]; cbn in Hcons;
      try (destruct Hcons as (_ & _ & ->); rewrite elem_of_nil);
      intuition (first [congruence | discriminate]). }
  assert (He : StreamEnd ∈ rs -> x = Returned).
  { intros H. destruct (Hend H) as (_ & _ & _ & Hnc).
    destruct x as [[] ?| | |]; cbn in Hcons; try done.
    - destruct Hcons as (_ & _ & Hnil). rewrite Hnil in H.
      by apply elem_of_nil in H.
    - tauto.
    - tauto. }
  rewrite Hx'. split; [split |].
  - intros [= ->]. tauto.
  - intros H. f_equal. tauto.
  - intros H. f_equal. tauto.
Qed.

Lemma snd_pair_fmap (sid : string) (l : list string) :
  snd <$> (pair sid <$> l) = l.
Proof. induction l as [|x l IH]; [done |]. cbn. by rewrite IH. Qed.

(** What a run that was handed the end of the stream, or that was
    cancelled, has appended. *)
Lemma appended_at_the_end (session : nat) (s : state) (t : nat)
    (sid : string) (blocks : list block) (rs : list resume)
    (T : list turn) :
  run_turns_invariant t sid blocks (extract blocks) session s rs T ->
  (no_content (extract blocks) = true -> flat_map (appended session) T = [])
  /\ (no_content (extract blocks) = false ->
      (StreamEnd ∈ rs ->
       flat_map (appended session) T
       = [user_message (extract blocks);
          Message "assistant" (join (increments rs)) None])
      /\ (StreamEnd ∉ rs -> Start ∈ rs ->
          flat_map (appended session) T = [user_message (extract blocks)])
      /\ (Start ∉ rs -> flat_map (appended session) T = [])).
Proof.
  intros [_ _ _ Ha _ _ Hend _]. rewrite Ha. unfold expected_history.
  split.
  { intros Hno. rewrite Hno, andb_false_r.
    rewrite bool_decide_eq_false_2; [done |].
    intros H. destruct (Hend H) as (_ & _ & ? & _). congruence. }
  intros Hno. rewrite Hno, andb_true_r. split; [| split].
  - intros H. destruct (Hend H) as (_ & Hs & _).
    by rewrite !bool_decide_eq_true_2 by done.
  - intros Hne Hs. rewrite (bool_decide_eq_true_2 _ Hs).
    by rewrite (bool_decide_eq_false_2 _ Hne).
  - intros Hs. rewrite (bool_decide_eq_false_2 _ Hs).
    rewrite bool_decide_eq_false_2; [done |].
    intros H. destruct (Hend H) as (_ & ? & _). tauto.
Qed.

(** C3, amended.  In any execution, whatever requests and runs of other
    tasks take their turns in between, the run of a task created for a
    prompt appends to the history of its session (the session registered
    under its id when the run takes its first step) exactly two messages,
    the user message then the assistant message, when it completes normally
    (it is handed the end of its stream); exactly the user message when its
    backend call or stream fails, or when it is cancelled after its first
    step; nothing when it is cancelled before its first step, or when the
    extracted content is empty; and it appends to no other session.  Nothing
    else makes a history grow: the history of a session is what it was
    followed by what the turns of the execution appended, and a turn that is
    not the run of a task appends nothing. *)
Theorem history_growth_of_a_run (tr0 tr : list event) (s0 s : state)
    (t : nat) (sid : string) (blocks : list block) (mc : bool) :
  run init tr0 = Some s0 ->
  tasks s0 !! t = Some (Pending (Created sid blocks) mc) ->
  run s0 tr = Some s ->
  let rs := resumes t tr in
  let user := user_message (extract blocks) in
  (tasks s !! t = Some Cancelled <-> ThrowCancelled ∈ rs)
  /\ (StreamEnd ∈ rs -> tasks s !! t = Some Returned)
  /\ (exists session,
        (forall x, x ∈ turns_of t s0 tr -> happened x = Step t Start ->
                   _sessions (before x) !! sid = Some session)
        /\ (forall i, i <> session -> appended_by t i s0 tr = [])
        /\ (no_content (extract blocks) = true ->
            appended_by t session s0 tr = [])
        /\ (no_content (extract blocks) = false ->
            (StreamEnd ∈ rs ->
             exists text,
               appended_by t session s0 tr
               = [user; Message "assistant" text None])
            /\ (failure rs <> None -> appended_by t session s0 tr = [user])
            /\ (tasks s !! t = Some Cancelled -> Start ∈ rs ->
                appended_by t session s0 tr = [user])
            /\ (tasks s !! t = Some Cancelled -> Start ∉ rs ->
                appended_by t session s0 tr = [])))
  /\ (forall i,
        history s i = history s0 i ++ flat_map (appended i) (turns s0 tr))
  /\ (forall x i, x ∈ turns s0 tr -> ~ is_step (happened x) ->
                  appended i x = []).
Proof.
  intros Hreach Hx Hrun rs user.
  destruct (run_turns _ _ _ _ _ _ _ (wf_run _ _ _ _ wf_init Hreach) Hx Hrun)
    as (session & Hinv).
  destruct (run_end _ _ _ _ _ _ _ Hinv) as (Hcan & Hret).
  destruct (appended_at_the_end _ _ _ _ _ _ _ Hinv) as (Hempty & Hfull).
  pose proof Hinv as [_ _ Hst _ Hels _ Hend Hfail].
  fold rs in Hcan, Hret, Hempty, Hfull, Hend, Hfail.
  split; [exact Hcan |]. split; [exact Hret |]. split; [| split].
  - exists session. split; [exact Hst |]. split; [exact Hels |].
    split; [exact Hempty |]. intros Hno.
    destruct (Hfull Hno) as (H2 & H1 & H0). split; [| split; [| split]].
    + intros H. eexists. by apply H2.
    + intros Hf. destruct (Hfail Hf) as (Hs & _ & Hne). by apply H1.
    + intros Hc Hs. apply H1; [| done].
      intros H. destruct (Hend H) as (_ & _ & _ & Hnc). apply Hnc. tauto.
    + intros _ Hs. by apply H0.
  - intros i. by apply history_run.
  - intros x i Hin Hns. destruct x as [sa ev sb].
    apply elem_of_turns in Hin. by apply request_appends_nothing.
Qed.

(** C5.  In any execution, when a run completes normally, what it delivered
    to the update sink is exactly the increments of its stream (the
    non-empty chunk contents), in arrival order and under its session id;
    and the text its streaming driver returns, which [handle_prompt] stores
    as the assistant message after the user message, is the concatenation of
    what the run delivered, in that order.  The sink itself is what it was
    followed by what the turns of the execution delivered. *)
Theorem assistant_text_is_what_was_delivered (tr0 tr : list event)
    (s0 s : state) (t : nat) (sid : string) (blocks : list block)
    (mc : bool) :
  run init tr0 = Some s0 ->
  tasks s0 !! t = Some (Pending (Created sid blocks) mc) ->
  run s0 tr = Some s ->
  StreamEnd ∈ resumes t tr ->
  tasks s !! t = Some Returned
  /\ delivered_by t s0 tr = pair sid <$> increments (resumes t tr)
  /\ (exists session,
        appended_by t session s0 tr
        = [user_message (extract blocks);
           Message "assistant" (join (snd <$> delivered_by t s0 tr)) None]
        /\ forall i, i <> session -> appended_by t i s0 tr = [])
  /\ sink s = sink s0 ++ flat_map delivered (turns s0 tr).
Proof.
  intros Hreach Hx Hrun Hin.
  destruct (run_turns _ _ _ _ _ _ _ (wf_run _ _ _ _ wf_init Hreach) Hx Hrun)
    as (session & Hinv).
  destruct (run_end _ _ _ _ _ _ _ Hinv) as (_ & Hret).
  destruct (appended_at_the_end _ _ _ _ _ _ _ Hinv) as (_ & Hfull).
  pose proof Hinv as [_ _ _ _ Hels Hd Hend _].
  destruct (Hend Hin) as (Hf & _ & Hno & _).
  assert (Hdel : delivered_by t s0 tr = pair sid <$> increments (resumes t tr)).
  { unfold Agent.delivered_by. rewrite Hd. unfold expected_sink.
    by rewrite Hf, app_nil_r. }
  split; [by apply Hret |]. split; [exact Hdel |].
  split; [| by apply sink_run].
  exists session. split; [| exact Hels].
  rewrite Hdel, snd_pair_fmap. by apply Hfull.
Qed.


End WithDecoder.

(** **** The theorems at sample executions *)

Lemma history_growth_of_a_run_witness :
  Agent.run b64decode init handoff_trace = Some (state_after handoff_trace)
  /\ Agent.run b64decode (state_after handoff_trace) overlap_completed
     = Some (state_after (handoff_trace ++ overlap_completed))
  /\ length (history (state_after handoff_trace) 0) = 1
  /\ length (history (state_after (handoff_trace ++ overlap_completed)) 0) = 5
  /\ tasks (state_after (handoff_trace ++ overlap_completed)) !! 1
     = Some Returned
  /\ exists session text,
       appended_by b64decode 1 session (state_after handoff_trace)
         overlap_completed
       = [user_message
            (_extract_content_from_prompt b64decode [text_block "second"]);
          Message "assistant" text None].
Proof.
  assert (H0 : Agent.run b64decode init handoff_trace
               = Some (state_after handoff_trace))
    by (vm_compute; reflexivity).
  assert (H1 : tasks (state_after handoff_trace) !! 1
               = Some (Pending (Created "s1" [text_block "second"]) false))
    by (vm_compute; reflexivity).
  assert (H2 : Agent.run b64decode (state_after handoff_trace)
                 overlap_completed
               = Some (state_after (handoff_trace ++ overlap_completed)))
    by (vm_compute; reflexivity).
  assert (H3 : length (history (state_after handoff_trace) 0) = 1)
    by (vm_compute; reflexivity).
  assert (H4 : length (history (state_after
                                  (handoff_trace ++ overlap_completed)) 0)
               = 5)
    by (vm_compute; reflexivity).
  assert (Hno : no_content
                  (_extract_content_from_prompt b64decode
                     [text_block "second"]) = false)
    by (vm_compute; reflexivity).
  assert (Hend : StreamEnd ∈ resumes 1 overlap_completed)
    by (apply (bool_decide_unpack _); vm_compute; exact I).
  destruct (history_growth_of_a_run b64decode _ _ _ _ _ _ _ _ H0 H1 H2)
    as (_ & Hret & (session & _ & _ & _ & Hfull) & _).
  destruct (Hfull Hno) as (Htwo & _).
  destruct (Htwo Hend) as (text & Htext).
  exact (conj H0 (conj H2 (conj H3 (conj H4 (conj (Hret Hend)
           (ex_intro _ session (ex_intro _ text Htext))))))).
Defined.

Lemma assistant_text_is_what_was_delivered_witness :
  Agent.run b64decode init two_sessions = Some (state_after two_sessions)
  /\ Agent.run b64decode (state_after two_sessions) interleaved
     = Some (state_after (two_sessions ++ interleaved))
  /\ delivered_by b64decode 0 (state_after two_sessions) interleaved
     = pair "s1" <$> increments (resumes 0 interleaved).
Proof.
  assert (H0 : Agent.run b64decode init two_sessions
               = Some (state_after two_sessions))
    by (vm_compute; reflexivity).
  assert (H1 : tasks (state_after two_sessions) !! 0
               = Some (Pending (Created "s1" [text_block "hello"]) false))
    by (vm_compute; reflexivity).
  assert (H2 : Agent.run b64decode (state_after two_sessions) interleaved
               = Some (state_after (two_sessions ++ interleaved)))
    by (vm_compute; reflexivity).
  assert (Hend : StreamEnd ∈ resumes 0 interleaved)
    by (apply (bool_decide_unpack _); vm_compute; exact I).
  destruct (assistant_text_is_what_was_delivered b64decode _ _ _ _ _ _ _ _
              H0 H1 H2 Hend) as (_ & Hd & _).
  exact (conj H0 (conj H2 Hd)).
Defined.


(** Two sessions stream at once: the sink holds the updates of both runs
    interleaved, and each run has delivered its own. *)
Example two_sessions_stream_at_once :
  sink (state_after (two_sessions ++ interleaved))
  = [("s2", "a"); ("s1", "Hel"); ("s1", "lo")]
  /\ delivered_by b64decode 0 (state_after two_sessions) interleaved
     = [("s1", "Hel"); ("s1", "lo")]
  /\ delivered_by b64decode 1 (state_after two_sessions) interleaved
     = [("s2", "a")].
Proof. vm_compute. done. Qed.

End RunFacts.

(** * Properties of the connection check *)
Module ConnectionFacts.

Import Extractor Connection.

Lemma contains_unfold sub s :
  contains sub s
  = startswith s sub
    || match s with
       | EmptyString => false
       | String _ s' => contains sub s'
       end.
Proof. by destruct s. Qed.

(** The second test of the disjunction never decides: a prefix is a
    substring. *)
Lemma contains_or_startswith sub s :
  contains sub s || startswith s sub = contains sub s.
Proof.
  rewrite contains_unfold.
  destruct (startswith s sub); cbn; [done | by rewrite orb_false_r].
Qed.

Section WithInterpreter.

Variable repr : string -> string.
Variable not_iterable : string.

Local Abbreviation any_match := (any_match not_iterable).
Local Abbreviation verify_connection :=
  (verify_connection repr not_iterable).
Local Abbreviation run_agent_command :=
  (run_agent_command repr not_iterable).

Lemma any_match_false model names :
  any_match model names = Ok false <-> Forall (missing model) names.
Proof.
  induction names as [|[s|] names IH]; cbn [Connection.any_match].
  - split; [by constructor | done].
  - rewrite contains_or_startswith.
    destruct (contains model s) eqn:Hc.
    + split; [done |]. intros [(s' & [= <-] & H) _]%Forall_cons. congruence.
    + rewrite IH. split.
      * intros H. constructor; [by exists s | done].
      * by intros [_ H]%Forall_cons.
  - split; [done |]. by intros [(s' & [=] & _) _]%Forall_cons.
Qed.

Lemma any_match_raise model names e :
  any_match model names = Raise e
  <-> e = Exn "TypeError" not_iterable
      /\ exists l1 l2, names = l1 ++ None :: l2 /\ Forall (missing model) l1.
Proof.
  induction names as [|[s|] names IH]; cbn [Connection.any_match].
  - split; [done |]. intros (_ & l1 & l2 & H & _). by destruct l1.
  - rewrite contains_or_startswith.
    destruct (contains model s) eqn:Hc.
    + split; [done |]. intros (_ & l1 & l2 & H & Hl1).
      destruct l1 as [|n l1]; [done |]. cbn in H. injection H as Hn _.
      subst n.
      apply Forall_cons in Hl1 as [(s' & [= <-] & H) _]. congruence.
    + rewrite IH. split.
      * intros (-> & l1 & l2 & -> & Hl1). split; [done |].
        exists (Some s :: l1), l2. split; [done |].
        constructor; [by exists s | done].
      * intros (-> & l1 & l2 & H & Hl1). split; [done |].
        destruct l1 as [|n l1]; [done |]. cbn in H. injection H as _ Hl.
        apply Forall_cons in Hl1 as [_ Hl1]. eauto.
  - split.
    + intros [= <-]. split; [done |]. exists [], names. by split.
    + by intros (-> & _).
Qed.

Lemma list_models_log answer r :
  r ∈ (list_models answer).2 -> log_level r = "ERROR".
Proof.
  destruct answer as [e | [models|]]; cbn.
  - by intros ->%list_elem_of_singleton.
  - by intros ?%elem_of_nil.
  - by intros ?%elem_of_nil.
Qed.

Lemma verify_connection_unfold model answer :
  verify_connection model answer
  = match any_match model (model_names (list_models answer).1) with
    | Ok model_exists =>
      (true,
       (list_models answer).2
       ++ (if model_exists then []
           else [Log "WARNING"
                   ("Model '" +:+ model
                    +:+ "' not found. Available models: "
                    +:+ repr_names repr (model_names (list_models answer).1));
                 Log "WARNING" ("Please run: ollama pull " +:+ model)]))
    | Raise e =>
      (false,
       (list_models answer).2
       ++ [Log "ERROR" ("Failed to connect to Ollama: " +:+ exn_str e)])
    end.
Proof. unfold Connection.verify_connection. by destruct (list_models _). Qed.

(** X18.  [verify_connection] answers [False] in one case only: the list
    of names holds a [None] that is reached, i.e. no name before it contains
    the model.  A server that cannot be reached, a result without models
    and a list without the model all pass. *)
Theorem verification_fails_only_on_a_name_that_is_none (model : string)
    (answer : list_answer) :
  (verify_connection model answer).1 = false
  <-> exists l1 l2,
        model_names (list_models answer).1 = l1 ++ None :: l2
        /\ Forall (missing model) l1.
Proof.
  rewrite verify_connection_unfold.
  destruct (any_match model _) as [b | e] eqn:Hany; cbn [fst].
  - split; [done |]. intros H.
    assert (any_match model (model_names (list_models answer).1)
            = Raise (Exn "TypeError" not_iterable))
      by (by apply any_match_raise).
    congruence.
  - split; [| done]. intros _. by apply any_match_raise in Hany as [_ H].
Qed.

(** X19.  When listing gives no model (the call to the server raised, the
    result has no [models], or the list is empty) the connection check
    still passes: [verify_connection] answers [True] after logging the hint
    to pull the model, and [run_agent_command] starts the agent, its exit
    code being 1 only if the agent itself fails. *)
Theorem empty_listing_passes_the_check (model : string)
    (answer : list_answer) (agent : agent_end) :
  (list_models answer).1 = [] ->
  (verify_connection model answer).1 = true
  /\ (Log "WARNING" ("Please run: ollama pull " +:+ model)
      ∈ (verify_connection model answer).2)
  /\ agent_started (run_agent_command model answer agent) = true
  /\ exit_code (run_agent_command model answer agent)
     = match agent with
       | AgentRaised _ => 1
       | _ => 0
       end.
Proof.
  intros Hnil. unfold Connection.run_agent_command.
  rewrite verify_connection_unfold, Hnil. cbn.
  split; [done |]. split.
  - apply elem_of_app. right. apply list_elem_of_In. cbn. tauto.
  - by destruct agent.
Qed.

(** X20.  The hint to pull the model is logged exactly when every listed
    name is a [str] that does not contain the model. *)
Theorem pull_hint_iff_no_name_contains_the_model (model : string)
    (answer : list_answer) :
  Log "WARNING" ("Please run: ollama pull " +:+ model)
  ∈ (verify_connection model answer).2
  <-> Forall (missing model) (model_names (list_models answer).1).
Proof.
  rewrite verify_connection_unfold, <- any_match_false.
  destruct (any_match model _) as [[|] | e]; cbn [snd].
  - rewrite app_nil_r. split; [| done].
    by intros ?%list_models_log.
  - split; [done |]. intros _. apply elem_of_app. right.
    apply list_elem_of_In. cbn. tauto.
  - split; [| done].
    intros [?%list_models_log | ?%list_elem_of_singleton]%elem_of_app; done.
Qed.


End WithInterpreter.

Lemma empty_listing_passes_the_check_witness :
  (list_models refused).1 = []
  /\ (verify_connection quoted none_not_iterable "llama3.2" refused).1 = true
  /\ agent_started
       (run_agent_command quoted none_not_iterable "llama3.2" refused
          AgentReturned) = true.
Proof.
  assert (Hnil : (list_models refused).1 = []) by reflexivity.
  destruct (empty_listing_passes_the_check quoted none_not_iterable "llama3.2"
              refused AgentReturned Hnil) as (Hv & _ & Hs & _).
  exact (conj Hnil (conj Hv Hs)).
Defined.

(** A model without a name is reached before the model wanted: the check
    fails, and the command exits with 1 without starting the agent. *)
Example nameless_model_fails_the_check :
  run_agent_command quoted none_not_iterable "llama3.2" nameless AgentReturned
  = CommandResult 1 false
      [Log "ERROR"
         "Failed to connect to Ollama: argument of type 'NoneType' is not iterable";
       Log "ERROR" "Failed to connect to Ollama. Exiting."].
Proof. vm_compute. reflexivity. Qed.

(** The model wanted is found before the model without a name: [any] stops
    there. *)
Example match_stops_the_search :
  verify_connection quoted none_not_iterable "llama3.2" listed = (true, []).
Proof. vm_compute. reflexivity. Qed.

End ConnectionFacts.
